(** * The deterministic crawler of the lead-generation agent

    A shallow embedding of [Lead_Management_Agent/src/crawler.py]: link
    discovery, signal extraction, feature derivation, the rule score, the
    robots.txt cache and the [crawl_site] orchestrator, followed by the
    properties the specification states about them.

    Conventions.
    - A Python [str] is a Rocq [string] holding the UTF-8 bytes of the text.
      Concatenation, [in], [startswith], comparison and sorting act on the
      bytes exactly as Python acts on the code points.
    - Operations whose result depends on the Unicode database, on the regular
      expression engine, on [urllib] or on the hash seed are fields of the
      class [Runtime].  Every theorem is proved for an arbitrary runtime;
      [reference_runtime] implements the fields on ASCII text so that the
      functions can be run on concrete pages.
    - A page is given by what [html.parser] makes of it: the record [Soup]
      lists the queries that the crawler performs on a parsed document. *)

From Stdlib Require Import ZArith List String Ascii Bool Lia Permutation.
From Stdlib Require Import Floats Uint63.
From Stdlib Require Sorted OrdersEx.
From stdpp Require Import base option list gmap strings.

Local Open Scope list_scope.
Local Open Scope string_scope.

(** ** Python built-ins on byte strings *)

(** [k in s] for two strings. *)
Fixpoint str_in (k s : string) : bool :=
  String.prefix k s ||
  match s with
  | EmptyString => false
  | String _ s' => str_in k s'
  end.

(** [any(k in s for k in ks)]. *)
Definition any_in (ks : list string) (s : string) : bool :=
  existsb (fun k => str_in k s) ks.

(** [sep.join(parts)]. *)
Fixpoint join (sep : string) (parts : list string) : string :=
  match parts with
  | [] => ""
  | [p] => p
  | p :: rest => p ++ sep ++ join sep rest
  end.

(** Truth value of a list and of a string: non-empty. *)
Definition truthy {A} (l : list A) : bool :=
  match l with [] => false | _ => true end.

Definition nonempty (s : string) : bool :=
  match s with EmptyString => false | _ => true end.

Definition is_some {A} (o : option A) : bool :=
  match o with Some _ => true | None => false end.

(** [x in xs] for a list of strings. *)
Definition mem (x : string) (xs : list string) : bool :=
  existsb (String.eqb x) xs.

(** [l[:n]] for any integer [n]: a negative bound counts from the end. *)
Definition slice_to {A} (l : list A) (n : Z) : list A :=
  if (n <? 0)%Z
  then take (Z.to_nat (Z.of_nat (length l) + n)) l
  else take (Z.to_nat n) l.

(** Byte-wise order on strings, which is the code point order of the texts. *)
Definition str_ltb (a b : string) : bool :=
  match String.compare a b with Lt => true | _ => false end.

(** [sorted(set(l))]: the distinct elements in increasing order. *)
Fixpoint insert_sorted (x : string) (l : list string) : list string :=
  match l with
  | [] => [x]
  | y :: l' =>
      if String.eqb x y then l
      else if str_ltb x y then x :: l
      else y :: insert_sorted x l'
  end.

Definition sorted_set (l : list string) : list string :=
  fold_right insert_sorted [] l.

(** ** Floating point: [round((raw / 48) * 100)] *)

(** An integer below 2^53 as a binary64 float. *)
Definition float_of_int (n : Z) : float :=
  PrimFloat.of_uint63 (Uint63.of_Z n).

(** [round(x)] of a finite float: the nearest integer, ties to the even one.
    (On an infinity or a NaN Python raises; [normalise] never gets there,
    see [normalise_finite].) *)
Definition py_round (x : float) : Z :=
  match Prim2SF x with
  | S754_finite s m e =>
      let mag :=
        if (0 <=? e)%Z then (Z.pos m * 2 ^ e)%Z
        else
          let d := (2 ^ (- e))%Z in
          let q := (Z.pos m / d)%Z in
          let r := (Z.pos m mod d)%Z in
          if (2 * r <? d)%Z then q
          else if (d <? 2 * r)%Z then (q + 1)%Z
          else if Z.even q then q else (q + 1)%Z in
      if s then (- mag)%Z else mag
  | _ => 0%Z
  end.

Definition is_finite (x : float) : bool :=
  match Prim2SF x with
  | S754_finite _ _ _ | S754_zero _ => true
  | _ => false
  end.

(** The float that line 173 rounds. *)
Definition scaled (raw : Z) : float :=
  PrimFloat.mul (PrimFloat.div (float_of_int raw) (float_of_int 48)) (float_of_int 100).

Definition normalise (raw : Z) : Z := py_round (scaled raw).

(** The same number in exact arithmetic: [100 * raw / 48] rounded to the
    nearest integer, ties to even. *)
Definition round_half_even_div (a b : Z) : Z :=
  let q := (a / b)%Z in
  let r := (a mod b)%Z in
  if (2 * r <? b)%Z then q
  else if (b <? 2 * r)%Z then (q + 1)%Z
  else if Z.even q then q else (q + 1)%Z.

(** ** More string methods that act on bytes *)

Definition char_in (c : ascii) (chars : string) : bool :=
  existsb (Ascii.eqb c) (list_ascii_of_string chars).

(** [s.lstrip(chars)], [s.rstrip(chars)] and [s.strip(chars)]. *)
Fixpoint lstrip_chars (chars s : string) : string :=
  match s with
  | String c s' => if char_in c chars then lstrip_chars chars s' else s
  | EmptyString => s
  end.

Definition reverse (s : string) : string :=
  string_of_list_ascii (rev (list_ascii_of_string s)).

Definition rstrip_chars (chars s : string) : string :=
  reverse (lstrip_chars chars (reverse s)).

Definition strip_chars (chars s : string) : string :=
  rstrip_chars chars (lstrip_chars chars s).

(** [s.split(sep)] for a one-character separator. *)
Fixpoint split_on (sep : ascii) (s : string) : list string :=
  match s with
  | EmptyString => [""]
  | String c s' =>
      if Ascii.eqb c sep then "" :: split_on sep s'
      else match split_on sep s' with
           | w :: ws => String c w :: ws
           | [] => [String c ""]
           end
  end.

(** [s.split(sep, 1)]: at most one cut, at the first separator. *)
Fixpoint split_once (sep : ascii) (s : string) : list string :=
  match s with
  | EmptyString => [""]
  | String c s' =>
      if Ascii.eqb c sep then [""; s']
      else match split_once sep s' with
           | w :: ws => String c w :: ws
           | [] => [String c ""]
           end
  end.

(** [s[:s.find(c)]] when [c] occurs, [s] otherwise. *)
Fixpoint before_char (c : ascii) (s : string) : string :=
  match s with
  | EmptyString => ""
  | String x s' => if Ascii.eqb x c then "" else String x (before_char c s')
  end.

Definition endswith (suffix s : string) : bool :=
  String.prefix (reverse suffix) (reverse s).

(** ** A backtracking matcher for the regular expressions of the module

    A matcher receives the text and a continuation on what it leaves; greedy
    repetitions try the longest run first and give characters back, as
    [re] does. *)

Definition Matcher := string -> (string -> option string) -> option string.

Definition m_char (p : ascii -> bool) : Matcher := fun s k =>
  match s with
  | String c s' => if p c then k s' else None
  | EmptyString => None
  end.

Definition m_seq (a b : Matcher) : Matcher := fun s k =>
  a s (fun s' => b s' k).

Definition m_opt (a : Matcher) : Matcher := fun s k =>
  match a s k with
  | Some r => Some r
  | None => k s
  end.

(** [[class]{lo,hi}], greedy. *)
Fixpoint m_rep (p : ascii -> bool) (lo hi : nat) : Matcher := fun s k =>
  let stop := if Nat.eqb lo 0 then k s else None in
  match hi with
  | O => stop
  | S hi' =>
      match s with
      | String c s' =>
          if p c then
            match m_rep p (Nat.pred lo) hi' s' k with
            | Some r => Some r
            | None => stop
            end
          else stop
      | EmptyString => stop
      end
  end.

(** [[class]{lo,}]: no run is longer than the text. *)
Definition m_at_least (p : ascii -> bool) (lo : nat) : Matcher := fun s k =>
  m_rep p lo (String.length s) s k.

(** The part of [s] in front of its suffix [rest]. *)
Definition consumed (s rest : string) : string :=
  substring 0 (String.length s - String.length rest) s.

(** [re.findall(pattern, s)] for a pattern without groups: the matches from
    left to right, each search resuming where the last match ended. *)
Fixpoint findall_from (m : Matcher) (fuel : nat) (s : string) : list string :=
  match fuel with
  | O => []
  | S fuel' =>
      match m s Some with
      | Some rest =>
          consumed s rest ::
          (if Nat.ltb (String.length rest) (String.length s)
           then findall_from m fuel' rest
           else match s with
                | String _ s' => findall_from m fuel' s'
                | EmptyString => []
                end)
      | None =>
          match s with
          | String _ s' => findall_from m fuel' s'
          | EmptyString => []
          end
      end
  end.

Definition findall (m : Matcher) (s : string) : list string :=
  findall_from m (S (String.length s)) s.

Definition between (lo hi : string) (c : ascii) : bool :=
  match lo, hi with
  | String l _, String h _ =>
      (nat_of_ascii l <=? nat_of_ascii c)%nat && (nat_of_ascii c <=? nat_of_ascii h)%nat
  | _, _ => false
  end.

Definition is_alpha (c : ascii) : bool := between "A" "Z" c || between "a" "z" c.
Definition is_digit (c : ascii) : bool := between "0" "9" c.

(** [[A-Za-z0-9._%+-]+@[A-Za-z0-9.-]+\.[A-Za-z]{2,}] (line 42). *)
Definition email_re : Matcher :=
  m_seq (m_at_least (fun c => is_alpha c || is_digit c || char_in c "._%+-") 1)
  (m_seq (m_char (Ascii.eqb "@"))
  (m_seq (m_at_least (fun c => is_alpha c || is_digit c || char_in c ".-") 1)
  (m_seq (m_char (Ascii.eqb "."))
         (m_at_least is_alpha 2)))).

Definition _extract_emails (text : string) : list string :=
  sorted_set (findall email_re text).

(** ** [urllib.parse]: what acts on the components only *)

Record ParseResult := {
  scheme : string;
  netloc : string;
  path : string;
  params : string;
  query : string;
  fragment : string
}.

Definition uses_relative : list string :=
  [""; "ftp"; "http"; "gopher"; "nntp"; "imap"; "wais"; "file"; "https";
   "shttp"; "mms"; "prospero"; "rtsp"; "rtspu"; "sftp"; "svn"; "svn+ssh";
   "ws"; "wss"].

Definition uses_netloc : list string :=
  [""; "ftp"; "http"; "gopher"; "nntp"; "telnet"; "imap"; "wais"; "file";
   "mms"; "https"; "shttp"; "snews"; "prospero"; "rtsp"; "rtspu"; "rsync";
   "svn"; "svn+ssh"; "sftp"; "nfs"; "git"; "git+ssh"; "ws"; "wss"].

Definition uses_params : list string :=
  [""; "ftp"; "hdl"; "prospero"; "http"; "imap"; "https"; "shttp"; "rtsp";
   "rtspu"; "sip"; "sips"; "mms"; "sftp"; "tel"].

(** [urlunsplit] and [urlunparse]. *)
Definition urlunsplit (scheme netloc url query fragment : string) : string :=
  let url :=
    if nonempty netloc
       || (nonempty scheme && mem scheme uses_netloc
           && negb (String.eqb (substring 0 2 url) "//"))
    then
      let url :=
        if nonempty url && negb (String.eqb (substring 0 1 url) "/")
        then "/" ++ url else url in
      "//" ++ netloc ++ url
    else url in
  let url := if nonempty scheme then scheme ++ ":" ++ url else url in
  let url := if nonempty query then url ++ "?" ++ query else url in
  let url := if nonempty fragment then url ++ "#" ++ fragment else url in
  url.

Definition urlunparse (p : ParseResult) : string :=
  let url := if nonempty (params p) then path p ++ ";" ++ params p else path p in
  urlunsplit (scheme p) (netloc p) url (query p) (fragment p).

(** [quote(s)] with the default [safe='/']: every byte outside
    [A-Za-z0-9_.-~/] becomes [%XX]. *)
Definition hex_digit (n : nat) : ascii :=
  match get n "0123456789ABCDEF" with
  | Some c => c
  | None => "0"%char
  end.

Definition quote_byte (c : ascii) : string :=
  if is_alpha c || is_digit c || char_in c "_.-~/" then String c ""
  else String "%" (String (hex_digit (nat_of_ascii c / 16))
                  (String (hex_digit (nat_of_ascii c mod 16)) "")).

Fixpoint quote (s : string) : string :=
  match s with
  | EmptyString => ""
  | String c s' => quote_byte c ++ quote s'
  end.

(** ** Parsed documents *)

(** An [<a href=...>] element: the attribute and [get_text(" ", strip=True)]. *)
Record Anchor := {
  href : string;
  anchor_text : string
}.

(** What the crawler reads off [BeautifulSoup(html, "html.parser")]. *)
Record Soup := {
  (** [soup.title], and its [.string] when the tag is there *)
  soup_title : option (option string);
  (** [soup.find("meta", attrs={"name":"description"})] and the tag's
      [content] attribute; the same for [property="og:description"] *)
  meta_name_description : option (option string);
  meta_og_description : option (option string);
  (** [get_text(" ", strip=True)] of the [h1], [h2], [h3] elements and of the
      [li] elements, in document order *)
  headings : list string;
  list_items : list string;
  (** [soup.get_text(" ", strip=True)] *)
  soup_text : string;
  (** [s.get("src","")] and [get_text(" ", strip=True)] of each [script];
      [l.get("href","")] of each [link] *)
  script_srcs : list string;
  script_texts : list string;
  link_hrefs : list string;
  (** [soup.find("html")] and the tag's [lang] attribute *)
  html_tag : option (option string);
  (** [soup.find_all("a", href=True)] *)
  anchors : list Anchor
}.

(** ** The runtime

    The library functions whose result is not a function of the bytes alone. *)

Class Runtime := {
  (** [str.lower], [str.strip()], [str.split()], [str.splitlines],
      [str.isdigit] and [int(str)] ([None]: [ValueError]) *)
  lower : string -> string;
  strip : string -> string;
  split : string -> list string;
  splitlines : string -> list string;
  isdigit : string -> bool;
  py_int : string -> option Z;
  (** [urllib.parse] *)
  urlparse : string -> ParseResult;
  urljoin : string -> string -> string;
  unquote : string -> string;
  (** [BeautifulSoup(html, "html.parser")] *)
  BeautifulSoup : string -> Soup;
  (** [SKIP_EXT.search(path)] (line 21, case-insensitive) *)
  SKIP_EXT_search : string -> bool;
  (** [re.findall] of the phone pattern (line 45) *)
  phone_findall : string -> list string;
  (** [re.search(r"(\$|\bsgd\b|\busd\b|\bper\b)", t)] (line 121) *)
  price_unit_search : string -> bool;
  (** [int(m.group(1))] for each match of
      [(\d+)\s+(open roles|jobs|positions)] (line 112) *)
  open_roles_finditer : string -> list Z;
  (** [list(s)] for a set [s] of strings, given by its elements in the order
      they were added: some arrangement of them, fixed by the hash seed *)
  set_list : list string -> list string;
  set_list_perm : forall l, Permutation (set_list l) l
}.

(** ** Module constants (lines 8-21 and 47-53) *)

Definition DEFAULT_UA : string := "ICPFinder-Bot/1.0 (+https://nexiuslabs.com)".
Definition TIMEOUT_S : Z := 12.
Definition MAX_PAGES : Z := 6.

Definition TARGET_KEYWORDS : list string :=
  ["pricing"; "plans"; "packages"; "cost";
   "services"; "solutions"; "products";
   "about"; "about us"; "team";
   "contact"; "contact us";
   "industries"; "sectors";
   "case studies"; "success stories"; "portfolio";
   "blog"; "news"; "insights";
   "careers"; "jobs"; "hiring"].

Definition TECH_PATTERNS : list (string * list string) :=
  [("analytics", ["gtag\("; "googletagmanager"; "hotjar"; "mixpanel"; "clarity"]);
   ("crm",       ["hubspot"; "salesforce"; "zoho"; "pipedrive"; "closeio"]);
   ("cms",       ["wp-content"; "wordpress"; "squarespace"; "wix"; "ghost"]);
   ("ecommerce", ["shopify"; "woocommerce"; "magento"; "bigcommerce"]);
   ("messaging", ["intercom"; "drift"; "tawk\.to"; "crisp"])].

(** Every pattern of [TECH_PATTERNS] is a literal whose punctuation is
    escaped, so [re.search(patt, blob)] asks whether the literal occurs. *)
Fixpoint unescape (patt : string) : string :=
  match patt with
  | String "\" (String c rest) => String c (unescape rest)
  | String c rest => String c (unescape rest)
  | EmptyString => ""
  end.

Definition tech_search (patt blob : string) : bool :=
  str_in (unescape patt) blob.

(** [patt.strip(r"\\").strip("r")] (line 101). *)
Definition tech_label (patt : string) : string :=
  strip_chars "r" (strip_chars "\" patt).

(** ** Data model *)

Record Contact := {
  emails : list string;
  phones : list string;
  address : option string
}.

Record Hiring := {
  careers_page : bool;
  open_roles : Z
}.

(** The dictionary that [_extract_signals] returns and [crawl_site] merges. *)
Record Signals := {
  title : string;
  meta_description : string;
  value_props : list string;
  products_services : list string;
  pricing : list string;
  industry_candidates : list string;
  contact : Contact;
  tech : gmap string (list string);
  has_case_studies : bool;
  has_testimonials : bool;
  has_careers_page : bool;
  open_roles_count : Z;
  languages : list string;
  hiring : Hiring
}.

(** The dictionary that [_derive_features] returns. *)
Record Derived := {
  b2x : string;
  company_size_guess : string;
  buyer_role_guess : string;
  budget_hint : string;
  urgency_hint : string;
  buying_process_guess : string;
  triggers : list string;
  risk_flags : list string;
  problem_terms_ranked : list string
}.

(** The dictionary that [_rule_score] returns. *)
Record Scored := {
  rule_score : Z;
  rule_band : string;
  shortlist : list string
}.

(** ** [_rule_score] (lines 162-182) *)

(** [signals.get("tech",{}).get(bucket)] as a truth value. *)
Definition tech_present (s : Signals) (bucket : string) : bool :=
  truthy (default [] (tech s !! bucket)).

Definition b2x_points (d : Derived) : Z :=
  if String.eqb (b2x d) "b2b" then 3
  else if String.eqb (b2x d) "unknown" then 1 else 0.

Definition rule_total (signals : Signals) (derived : Derived) : Z :=
  let total := 0%Z in
  let total := (total + b2x_points derived)%Z in
  let total := (total + if mem (company_size_guess derived) ["2-10"; "11-50"; "51-200"] then 2 else 0)%Z in
  let total := (total + if has_case_studies signals then 2 else 0)%Z in
  let total := (total + if has_careers_page signals then 2 else 0)%Z in
  let total := (total + if (0 <? open_roles_count signals)%Z then 2 else 0)%Z in
  let total := if tech_present signals "crm" || tech_present signals "analytics"
               then (total + 2)%Z else total in
  let total := if truthy (emails (contact signals)) then (total + 2)%Z else total in
  let total := (total + if truthy (pricing signals) then 2 else 0)%Z in
  total.

Definition band_of (score : Z) : string :=
  if (75 <=? score)%Z then "Ideal ICP"
  else if (50 <=? score)%Z then "Good fit"
  else "Poor fit".

Definition shortlist_of (signals : Signals) (derived : Derived) : list string :=
  let shortlist := [] in
  let shortlist :=
    if String.eqb (company_size_guess derived) "solo" && String.eqb (b2x derived) "b2b"
    then (shortlist ++ ["solo_services"])%list else shortlist in
  let shortlist :=
    if tech_present signals "ecommerce" then (shortlist ++ ["smb_ecom"])%list else shortlist in
  let shortlist :=
    if String.eqb (b2x derived) "b2b" then (shortlist ++ ["b2b_agency"])%list else shortlist in
  let shortlist :=
    if truthy shortlist then shortlist else (shortlist ++ ["other"])%list in
  shortlist.

Definition _rule_score (signals : Signals) (derived : Derived) : Scored :=
  let total := rule_total signals derived in
  let raw := Z.max 0 (Z.min total 48) in
  let score := normalise raw in
  {| rule_score := score;
     rule_band := band_of score;
     shortlist := shortlist_of signals derived |}.

(** ** Merging the signals of a sub-page (lines 203-216) *)

(** [sorted(set(a + b))[:40]]. *)
Definition merge_lists (a b : list string) : list string :=
  take 40 (sorted_set (a ++ b)).

(** The loop over [s2["tech"].items()]: each bucket of the sub-page is merged
    into the bucket of the same name, created empty when missing. *)
Definition merge_tech (t t2 : gmap string (list string)) : gmap string (list string) :=
  map_fold (fun bucket arr acc => <[bucket := merge_lists (default [] (acc !! bucket)) arr]> acc) t t2.

Definition merge_signals (signals s2 : Signals) : Signals :=
  {| title := title signals;
     meta_description := meta_description signals;
     value_props := merge_lists (value_props signals) (value_props s2);
     products_services := merge_lists (products_services signals) (products_services s2);
     pricing := merge_lists (pricing signals) (pricing s2);
     industry_candidates := industry_candidates signals;
     contact :=
       {| emails := merge_lists (emails (contact signals)) (emails (contact s2));
          phones := merge_lists (phones (contact signals)) (phones (contact s2));
          address := address (contact signals) |};
     tech := merge_tech (tech signals) (tech s2);
     has_case_studies := has_case_studies signals || has_case_studies s2;
     has_testimonials := has_testimonials signals || has_testimonials s2;
     has_careers_page := has_careers_page signals || has_careers_page s2;
     open_roles_count := Z.max (open_roles_count signals) (open_roles_count s2);
     languages := merge_lists (languages signals) (languages s2);
     hiring := hiring signals |}.

(** The sizes the specification promises after the merge: the lists that
    every page caps, and the two contact lists, which only the merge caps. *)
Definition capped_lists (s : Signals) : Prop :=
  (length (value_props s) <= 40)%nat /\
  (length (products_services s) <= 40)%nat /\
  (length (pricing s) <= 40)%nat /\
  (length (languages s) <= 40)%nat /\
  (forall bucket arr, tech s !! bucket = Some arr -> (length arr <= 40)%nat).

Definition capped_contact (s : Signals) : Prop :=
  (length (emails (contact s)) <= 40)%nat /\
  (length (phones (contact s)) <= 40)%nat.

Section Crawler.
Context {RT : Runtime}.

(** ** [_discover_links] (lines 60-76) *)

(** [found.add(full)] on a set kept as the list of its elements in the order
    they were added. *)
Definition set_add (x : string) (found : list string) : list string :=
  if mem x found then found else (found ++ [x])%list.

(** The [for] loop, with its [continue]s and its [break]. *)
Fixpoint discover_loop (base_url : string) (tags : list Anchor) (found : list string)
  : list string :=
  match tags with
  | [] => found
  | a :: rest =>
      let href := strip (href a) in
      if negb (nonempty href)
         || String.prefix "#" href || String.prefix "mailto:" href
         || String.prefix "tel:" href
         || str_in "javascript:" href
      then discover_loop base_url rest found
      else
        let full := urljoin base_url href in
        if negb (String.eqb (netloc (urlparse full)) (netloc (urlparse base_url)))
        then discover_loop base_url rest found
        else if SKIP_EXT_search (path (urlparse full))
        then discover_loop base_url rest found
        else
          let label := lower (if nonempty (anchor_text a) then anchor_text a else href) in
          let found :=
            if any_in TARGET_KEYWORDS label || any_in TARGET_KEYWORDS (lower full)
            then set_add full found else found in
          if (6 <=? length found)%nat then found
          else discover_loop base_url rest found
  end.

Definition _discover_links (html base_url : string) : list string :=
  let found := [] in
  set_list (discover_loop base_url (anchors (BeautifulSoup html)) found).

(** *** First-match order, as the specification words it

    The URL that an anchor stands for when it passes every test of the loop
    body and matches a keyword; the URLs in the order in which they first
    appear; the first six of them. *)
Definition candidate (base_url : string) (a : Anchor) : option string :=
  let href := strip (href a) in
  if negb (nonempty href)
     || String.prefix "#" href || String.prefix "mailto:" href
     || String.prefix "tel:" href
     || str_in "javascript:" href
  then None
  else
    let full := urljoin base_url href in
    if negb (String.eqb (netloc (urlparse full)) (netloc (urlparse base_url)))
    then None
    else if SKIP_EXT_search (path (urlparse full))
    then None
    else
      let label := lower (if nonempty (anchor_text a) then anchor_text a else href) in
      if any_in TARGET_KEYWORDS label || any_in TARGET_KEYWORDS (lower full)
      then Some full else None.

Definition first_seen (urls found : list string) : list string :=
  fold_left (fun found u => set_add u found) urls found.

Definition first_match_order (html base_url : string) : list string :=
  take 6 (first_seen (omap (candidate base_url) (anchors (BeautifulSoup html))) []).

(** ** [_extract_signals] (lines 78-140) *)

Definition _extract_phones (text : string) : list string :=
  sorted_set (phone_findall text).

(** [len(t.split())] between [lo] and [hi]. *)
Definition words_between (lo hi : nat) (t : string) : bool :=
  (lo <=? length (split t))%nat && (length (split t) <=? hi)%nat.

(** The pricing loop (lines 118-123), [pricing] being the list so far. *)
Fixpoint pricing_loop (items : list string) (pricing : list string) : list string :=
  match items with
  | [] => pricing
  | t :: rest =>
      if any_in ["plan"; "tier"; "price"] (lower t) && price_unit_search (lower t)
      then
        let pricing := (pricing ++ [t])%list in
        if (10 <=? length pricing)%nat then pricing
        else pricing_loop rest pricing
      else pricing_loop rest pricing
  end.

Definition tech_of (blob : string) : gmap string (list string) :=
  list_to_map
    (map (fun '(bucket, patterns) =>
            (bucket, map tech_label (List.filter (fun patt => tech_search patt blob) patterns)))
         TECH_PATTERNS).

Definition _extract_signals (html base_url : string) : Signals :=
  let soup := BeautifulSoup html in
  let title :=
    match soup_title soup with
    | Some s => strip (default "" s)
    | None => ""
    end in
  let mdesc :=
    match meta_name_description soup with
    | Some tag => Some tag
    | None => meta_og_description soup
    end in
  let meta_desc :=
    match mdesc with
    | Some (Some content) => if nonempty content then strip content else ""
    | _ => ""
    end in
  let headings := headings soup in
  let bullets := list_items soup in
  let value_props := List.filter (words_between 3 18) (take 8 headings) in
  let products_services := take 20 (List.filter (words_between 2 10) bullets) in
  let text := soup_text soup in
  let emails := _extract_emails text in
  let phones := _extract_phones text in
  let srcs := join " " (script_srcs soup ++ link_hrefs soup) in
  let inline := join " " (script_texts soup) in
  let blob := lower (srcs ++ " " ++ inline) in
  let tech := tech_of blob in
  let has_kw (kws : list string) :=
    let t := lower (title ++ " " ++ meta_desc ++ " " ++ join " " headings ++ join " " bullets) in
    any_in kws t in
  let has_case := has_kw ["case studies"; "success stories"; "portfolio"; "clients"] in
  let has_testimonials := has_kw ["testimonials"; "reviews"] in
  let has_careers := has_kw ["careers"; "jobs"; "hiring"] in
  let open_roles := fold_left Z.max (open_roles_finditer (lower text)) 0%Z in
  let lang :=
    match html_tag soup with
    | Some l => l
    | None => None
    end in
  let languages :=
    match lang with
    | Some l => if nonempty l then [l] else []
    | None => []
    end in
  let pricing := pricing_loop bullets [] in
  {| title := title;
     meta_description := meta_desc;
     value_props := value_props;
     products_services := products_services;
     pricing := pricing;
     industry_candidates := [];
     contact := {| emails := emails; phones := phones; address := None |};
     tech := tech;
     has_case_studies := has_case;
     has_testimonials := has_testimonials;
     has_careers_page := has_careers;
     open_roles_count := open_roles;
     languages := languages;
     hiring := {| careers_page := has_careers; open_roles := open_roles |} |}.

(** The value propositions as the specification words them: the first 8 of
    the headings whose word count is between 3 and 18. *)
Definition stated_value_props (html : string) : list string :=
  take 8 (List.filter (words_between 3 18) (headings (BeautifulSoup html))).

(** ** [_derive_features] (lines 142-160) *)

Definition _derive_features (signals : Signals) : Derived :=
  let text :=
    lower (join " " [title signals; meta_description signals;
                     join " " (value_props signals);
                     join " " (products_services signals)]) in
  let b2b_terms := ["clients"; "enterprise"; "b2b"; "solutions"; "consulting"; "services"; "agency"] in
  let b2c_terms := ["customers"; "shop"; "store"; "retail"; "buy"; "purchase"] in
  let b2x :=
    if any_in b2b_terms text then "b2b"
    else if any_in b2c_terms text then "b2c" else "unknown" in
  let size_guess := "unknown" in
  let size_guess :=
    if str_in "enterprise" text || str_in "global" text then "51-200"
    else if str_in "startup" text || str_in "small team" text then "2-10"
    else size_guess in
  let urgency_hint :=
    if (0 <? open_roles_count signals)%Z then "1-3_months"
    else if has_case_studies signals then "3-6_months" else "none" in
  let buying :=
    if String.eqb size_guess "51-200" then "multi_step_process"
    else "single_decision_maker" in
  {| b2x := b2x;
     company_size_guess := size_guess;
     buyer_role_guess := "Unknown";
     budget_hint := "unknown";
     urgency_hint := urgency_hint;
     buying_process_guess := buying;
     triggers := if String.eqb urgency_hint "1-3_months" then ["hiring_for_growth"] else [];
     risk_flags := [];
     problem_terms_ranked := [] |}.

End Crawler.
(** ** [urllib.robotparser]

    The parser object as [RobotsCache] uses it: [parse] and [can_fetch].
    Crawl delays, request rates and sitemaps are parsed but never read by
    [can_fetch]; the model keeps what their lines do to the parser's state. *)

Record RuleLine := {
  rule_path : string;
  allowance : bool
}.

Record Entry := {
  useragents : list string;
  rulelines : list RuleLine
}.

Record RobotFileParser := {
  entries : list Entry;
  default_entry : option Entry;
  disallow_all : bool;
  allow_all : bool;
  last_checked : Z
}.

(** [RobotFileParser()] and [Entry()]. *)
Definition new_parser : RobotFileParser :=
  {| entries := []; default_entry := None;
     disallow_all := false; allow_all := false; last_checked := 0 |}.

Definition new_entry : Entry := {| useragents := []; rulelines := [] |}.

Definition _add_entry (rp : RobotFileParser) (entry : Entry) : RobotFileParser :=
  if mem "*" (useragents entry) then
    match default_entry rp with
    | None =>
        {| entries := entries rp; default_entry := Some entry;
           disallow_all := disallow_all rp; allow_all := allow_all rp;
           last_checked := last_checked rp |}
    | Some _ => rp
    end
  else
    {| entries := (entries rp ++ [entry])%list; default_entry := default_entry rp;
       disallow_all := disallow_all rp; allow_all := allow_all rp;
       last_checked := last_checked rp |}.

(** [self.modified()] when the clock reads [now]. *)
Definition modified (now : Z) (rp : RobotFileParser) : RobotFileParser :=
  {| entries := entries rp; default_entry := default_entry rp;
     disallow_all := disallow_all rp; allow_all := allow_all rp;
     last_checked := now |}.

Definition add_useragent (e : Entry) (agent : string) : Entry :=
  {| useragents := (useragents e ++ [agent])%list; rulelines := rulelines e |}.

Definition add_ruleline (e : Entry) (r : RuleLine) : Entry :=
  {| useragents := useragents e; rulelines := (rulelines e ++ [r])%list |}.

(** [RuleLine.applies_to] and [Entry.allowance]. *)
Definition rule_applies_to (r : RuleLine) (filename : string) : bool :=
  String.eqb (rule_path r) "*" || String.prefix (rule_path r) filename.

Fixpoint entry_allowance (lines : list RuleLine) (filename : string) : bool :=
  match lines with
  | [] => true
  | line :: rest =>
      if rule_applies_to line filename then allowance line
      else entry_allowance rest filename
  end.

Section Robots.
Context {RT : Runtime}.

(** [RuleLine(path, allowance)]. *)
Definition new_rule (path : string) (allow : bool) : RuleLine :=
  let allow := if negb (nonempty path) && negb allow then true else allow in
  let path := urlunparse (urlparse path) in
  {| rule_path := quote path; allowance := allow |}.

(** [Entry.applies_to]. *)
Definition entry_applies_to (e : Entry) (useragent : string) : bool :=
  let useragent := lower (hd "" (split_on "/" useragent)) in
  (fix agents (l : list string) : bool :=
     match l with
     | [] => false
     | agent :: rest =>
         if String.eqb agent "*" then true
         else if str_in (lower agent) useragent then true
         else agents rest
     end) (useragents e).

(** The loop of [parse]: [state] and [entry] are its local variables, [rp]
    the parser it fills.  The boolean is [true] when a line raised
    ([int] on a digit string it does not read); the parser keeps what the
    lines before had already added. *)
Fixpoint parse_lines (lines : list string) (state : nat) (entry : Entry)
  (rp : RobotFileParser) : RobotFileParser * bool :=
  match lines with
  | [] => (if Nat.eqb state 2 then _add_entry rp entry else rp, false)
  | line :: rest =>
      let '(state, entry, rp) :=
        if nonempty line then (state, entry, rp)
        else if Nat.eqb state 1 then (0, new_entry, rp)
        else if Nat.eqb state 2 then (0, new_entry, _add_entry rp entry)
        else (state, entry, rp) in
      let line := strip (before_char "#" line) in
      if negb (nonempty line) then parse_lines rest state entry rp
      else
        match split_once ":" line with
        | [key; value] =>
            let key := lower (strip key) in
            let value := unquote (strip value) in
            if String.eqb key "user-agent" then
              let '(entry, rp) :=
                if Nat.eqb state 2 then (new_entry, _add_entry rp entry)
                else (entry, rp) in
              parse_lines rest 1 (add_useragent entry value) rp
            else if String.eqb key "disallow" then
              if Nat.eqb state 0 then parse_lines rest state entry rp
              else parse_lines rest 2 (add_ruleline entry (new_rule value false)) rp
            else if String.eqb key "allow" then
              if Nat.eqb state 0 then parse_lines rest state entry rp
              else parse_lines rest 2 (add_ruleline entry (new_rule value true)) rp
            else if String.eqb key "crawl-delay" then
              if Nat.eqb state 0 then parse_lines rest state entry rp
              else if isdigit (strip value) && negb (is_some (py_int value))
              then (rp, true)
              else parse_lines rest 2 entry rp
            else if String.eqb key "request-rate" then
              if Nat.eqb state 0 then parse_lines rest state entry rp
              else
                match split_on "/" value with
                | [n0; n1] =>
                    if isdigit (strip n0) && isdigit (strip n1)
                       && negb (is_some (py_int n0) && is_some (py_int n1))
                    then (rp, true)
                    else parse_lines rest 2 entry rp
                | _ => parse_lines rest 2 entry rp
                end
            else parse_lines rest state entry rp
        | _ => parse_lines rest state entry rp
        end
  end.

(** [rp.parse(lines)]. *)
Definition parse (now : Z) (lines : list string) (rp : RobotFileParser)
  : RobotFileParser * bool :=
  parse_lines lines 0 new_entry (modified now rp).

(** [rp.can_fetch(useragent, url)]. *)
Definition can_fetch (rp : RobotFileParser) (useragent url : string) : bool :=
  if disallow_all rp then false
  else if allow_all rp then true
  else if (last_checked rp =? 0)%Z then false
  else
    let parsed_url := urlparse (unquote url) in
    let url :=
      urlunparse {| scheme := ""; netloc := ""; path := path parsed_url;
                    params := params parsed_url; query := query parsed_url;
                    fragment := fragment parsed_url |} in
    let url := quote url in
    let url := if nonempty url then url else "/" in
    match List.find (fun e => entry_applies_to e useragent) (entries rp) with
    | Some e => entry_allowance (rulelines e) url
    | None =>
        match default_entry rp with
        | Some e => entry_allowance (rulelines e) url
        | None => true
        end
    end.

End Robots.

(** ** The network and the process state *)

Record Response := {
  status_code : Z;
  text : string
}.

(** What the outside answers during one run.  [None] stands for a raised
    exception; a URL is answered the same way each time it is asked for. *)
Record Env := {
  (** [client.get(robots_url, headers=..., timeout=...)] (line 32) *)
  client_get : string -> option Response;
  (** [client.get(url, ..., follow_redirects=True)] (line 56) *)
  client_get_following : string -> option Response;
  (** whether [r.raise_for_status()] raises *)
  raises_for_status : Response -> bool;
  (** [time.time()]: the clock reads a time after the epoch, a positive
      number of seconds *)
  time_time : positive
}.

Inductive Request :=
| RobotsRequest (url : string)
| PageRequest (url : string).

(** The global [ROBOTS] cache and the requests sent so far, oldest first. *)
Record State := {
  _cache : gmap string RobotFileParser;
  requests : list Request
}.

Definition sent (r : Request) (st : State) : State :=
  {| _cache := _cache st; requests := (requests st ++ [r])%list |}.

Definition is_page_request (r : Request) : bool :=
  match r with PageRequest _ => true | RobotsRequest _ => false end.

(** The number of [_fetch] calls recorded in a state. *)
Definition page_fetches (st : State) : nat :=
  length (List.filter is_page_request (requests st)).

Record CrawlMetadata := {
  fetched_pages : Z;
  ts : Z
}.

(** The dictionary that [crawl_site] returns. *)
Record CrawlSummary := {
  cs_url : string;
  cs_title : string;
  cs_description : string;
  cs_content_summary : string;
  cs_key_pages : list string;
  cs_signals : Signals;
  cs_scored : Scored;
  cs_crawl_metadata : CrawlMetadata
}.

Inductive Outcome :=
| BlockedByRobots
| RootFetchRaised
| Returned (summary : CrawlSummary).

Section Orchestrator.
Context {RT : Runtime}.
Variable env : Env.

(** The origin string of lines 27 and 185. *)
Definition origin (url : string) : string :=
  scheme (urlparse url) ++ "://" ++ netloc (urlparse url).

(** What the [try] block of [RobotsCache.allowed] leaves in a fresh parser. *)
Definition load_robots (robots_url : string) : RobotFileParser :=
  let rp := new_parser in
  match client_get env robots_url with
  | Some resp =>
      let lines :=
        if (400 <=? status_code resp)%Z then [] else splitlines (text resp) in
      let '(rp, raised) := parse (Z.pos (time_time env)) lines rp in
      if raised then fst (parse (Z.pos (time_time env)) [] rp) else rp
  | None => fst (parse (Z.pos (time_time env)) [] rp)
  end.

(** [RobotsCache.allowed] (lines 26-37). *)
Definition allowed (st : State) (url ua : string) : bool * State :=
  let base := origin url in
  let st :=
    match _cache st !! base with
    | Some _ => st
    | None =>
        let robots_url := urljoin base "/robots.txt" in
        let rp := load_robots robots_url in
        {| _cache := <[base := rp]> (_cache st);
           requests := (requests st ++ [RobotsRequest robots_url])%list |}
    end in
  (match _cache st !! base with
   | Some rp => can_fetch rp ua url
   | None => false
   end, st).

(** The body that [_fetch] obtains for a URL; [None] when the request or
    [raise_for_status] raises. *)
Definition fetched_html (url : string) : option string :=
  match client_get_following env url with
  | Some r => if raises_for_status env r then None else Some (text r)
  | None => None
  end.

(** [_fetch] (lines 55-58). *)
Definition _fetch (st : State) (url : string) : option (string * string) * State :=
  let st := sent (PageRequest url) st in
  match fetched_html url with
  | Some html => (Some (url, html), st)
  | None => (None, st)
  end.

(** Lines 192-197: the links that robots.txt lets through.  ([allowed] can
    only raise inside [urllib], which the model takes as total, so the
    [except] clause of line 196 has no case here.) *)
Fixpoint allowed_links (links : list string) (acc : list string) (st : State)
  : list string * State :=
  match links with
  | [] => (acc, st)
  | u :: rest =>
      let '(ok, st) := allowed st u DEFAULT_UA in
      allowed_links rest (if ok then (acc ++ [u])%list else acc) st
  end.

(** Line 198: one [_fetch] per allowed link, exceptions kept as results.
    The requests are recorded in the order of the links; the event loop may
    send them in another order, their number is the same. *)
Fixpoint gather (urls : list string) (st : State)
  : list (option (string * string)) * State :=
  match urls with
  | [] => ([], st)
  | u :: rest =>
      let '(res, st) := _fetch st u in
      let '(more, st) := gather rest st in
      (res :: more, st)
  end.

(** Lines 199-216. *)
Fixpoint merge_pages (base : string) (pages : list (option (string * string)))
  (signals : Signals) : Signals :=
  match pages with
  | [] => signals
  | None :: rest => merge_pages base rest signals
  | Some (_, h) :: rest =>
      merge_pages base rest (merge_signals signals (_extract_signals h base))
  end.

(** The signals of the sub-pages that take part in the merge: those whose
    fetch did not raise, in the order of the links. *)
Definition page_signals (base : string) (pages : list (option (string * string)))
  : list Signals :=
  omap (fun res =>
          match res with
          | Some (_, h) => Some (_extract_signals h base)
          | None => None
          end) pages.

(** [crawl_site] (lines 184-230). *)
Definition crawl_site (url : string) (max_pages : Z) (st : State) : Outcome * State :=
  let base := origin url in
  let '(ok, st) := allowed st url DEFAULT_UA in
  if negb ok then (BlockedByRobots, st)
  else
    match _fetch st url with
    | (None, st) => (RootFetchRaised, st)
    | (Some (_, html), st) =>
        let signals := _extract_signals html base in
        let links := slice_to (_discover_links html base) (max_pages - 1) in
        let '(allowed, st) := allowed_links links [] st in
        let '(pages, st) := gather allowed st in
        let signals := merge_pages base pages signals in
        let derived := _derive_features signals in
        let scored := _rule_score signals derived in
        (Returned
           {| cs_url := url;
              cs_title := title signals;
              cs_description := meta_description signals;
              cs_content_summary := join " | " (take 6 (value_props signals));
              cs_key_pages := allowed;
              cs_signals := signals;
              cs_scored := scored;
              cs_crawl_metadata :=
                {| fetched_pages := (1 + Z.of_nat (length allowed))%Z;
                   ts := Z.pos (time_time env) |} |},
         st)
    end.

End Orchestrator.
(** ** A reference runtime on ASCII text

    CPython 3.11's behaviour on text whose characters are all ASCII.
    [urlsplit]'s validation of bracketed hosts, which can only raise, is left
    out. *)

Module Reference.

Definition is_upper (c : ascii) : bool := between "A" "Z" c.
Definition is_space (c : ascii) : bool :=
  let n := nat_of_ascii c in
  ((9 <=? n) && (n <=? 13) || (28 <=? n) && (n <=? 32))%nat.
Definition is_word (c : ascii) : bool :=
  is_alpha c || is_digit c || Ascii.eqb c "_".

Definition lower_char (c : ascii) : ascii :=
  if is_upper c then ascii_of_nat (nat_of_ascii c + 32) else c.

Fixpoint lower (s : string) : string :=
  match s with
  | EmptyString => ""
  | String c s' => String (lower_char c) (lower s')
  end.

Fixpoint lstrip_while (p : ascii -> bool) (s : string) : string :=
  match s with
  | String c s' => if p c then lstrip_while p s' else s
  | EmptyString => s
  end.

Definition strip (s : string) : string :=
  reverse (lstrip_while is_space (reverse (lstrip_while is_space s))).

(** [s.split()]: the maximal runs of non-blank characters. *)
Fixpoint split_words (s : string) (word : string) : list string :=
  let flush := if nonempty word then [reverse word] else [] in
  match s with
  | EmptyString => flush
  | String c s' =>
      if is_space c then (flush ++ split_words s' "")%list
      else split_words s' (String c word)
  end.

Definition split (s : string) : list string := split_words s "".

Definition is_linebreak (c : ascii) : bool :=
  let n := nat_of_ascii c in
  ((10 <=? n) && (n <=? 13) || (28 <=? n) && (n <=? 30))%nat.

(** [s.splitlines()]: a carriage return followed by a line feed is one
    break, and a final break opens no further line. *)
Fixpoint split_lines (s : string) (line : string) : list string :=
  match s with
  | EmptyString => if nonempty line then [reverse line] else []
  | String c s' =>
      if is_linebreak c then
        reverse line ::
        match s' with
        | String c' s'' =>
            if Ascii.eqb c "013" && Ascii.eqb c' "010" then split_lines s'' ""
            else split_lines s' ""
        | EmptyString => []
        end
      else split_lines s' (String c line)
  end.

Definition splitlines (s : string) : list string := split_lines s "".

Definition all_chars (p : ascii -> bool) (s : string) : bool :=
  forallb p (list_ascii_of_string s).

Definition isdigit (s : string) : bool := nonempty s && all_chars is_digit s.

Definition digits_value (s : string) : Z :=
  fold_left (fun acc c => (10 * acc + Z.of_nat (nat_of_ascii c - 48))%Z)
            (list_ascii_of_string s) 0%Z.

(** [int(s)] on blanks, an optional sign and decimal digits. *)
Definition py_int (s : string) : option Z :=
  match strip s with
  | String "-" d => if isdigit d then Some (- digits_value d)%Z else None
  | String "+" d => if isdigit d then Some (digits_value d) else None
  | d => if isdigit d then Some (digits_value d) else None
  end.

(** [unquote]: each [%XX] becomes the byte it names. *)
Definition hex_value (c : ascii) : option nat :=
  if is_digit c then Some (nat_of_ascii c - 48)
  else if between "A" "F" c then Some (nat_of_ascii c - 55)
  else if between "a" "f" c then Some (nat_of_ascii c - 87)
  else None.

Fixpoint unquote (s : string) : string :=
  match s with
  | EmptyString => ""
  | String c rest =>
      match rest with
      | String a (String b rest') =>
          match Ascii.eqb c "%", hex_value a, hex_value b with
          | true, Some x, Some y => String (ascii_of_nat (16 * x + y)) (unquote rest')
          | _, _, _ => String c (unquote rest)
          end
      | _ => String c (unquote rest)
      end
  end.

(** *** [urlsplit], [urlparse] and [urljoin] *)

Definition is_c0_or_space (c : ascii) : bool := (nat_of_ascii c <=? 32)%nat.

Fixpoint remove_chars (p : ascii -> bool) (s : string) : string :=
  match s with
  | EmptyString => ""
  | String c s' => if p c then remove_chars p s' else String c (remove_chars p s')
  end.

(** The text before the first character satisfying [p], and the rest from
    that character on. *)
Fixpoint break_at (p : ascii -> bool) (s : string) : string * string :=
  match s with
  | EmptyString => ("", "")
  | String c s' =>
      if p c then ("", s)
      else let '(a, b) := break_at p s' in (String c a, b)
  end.

Definition tail (s : string) : string :=
  match s with String _ s' => s' | EmptyString => "" end.

Definition scheme_chars : string :=
  "abcdefghijklmnopqrstuvwxyzABCDEFGHIJKLMNOPQRSTUVWXYZ0123456789+-.".

Record SplitResult := {
  s_scheme : string;
  s_netloc : string;
  s_path : string;
  s_query : string;
  s_fragment : string
}.

Definition urlsplit (url default_scheme : string) : SplitResult :=
  let url := lstrip_while is_c0_or_space url in
  let scheme := reverse (lstrip_while is_c0_or_space
                  (reverse (lstrip_while is_c0_or_space default_scheme))) in
  let unsafe := fun c => char_in c (String "009" (String "013" (String "010" ""))) in
  let url := remove_chars unsafe url in
  let scheme := remove_chars unsafe scheme in
  let '(front, back) := break_at (Ascii.eqb ":") url in
  let '(scheme, url) :=
    match front, back, url with
    | String _ _, String _ after, String c0 _ =>
        if is_alpha c0 && all_chars (fun c => char_in c scheme_chars) front
        then (lower front, after) else (scheme, url)
    | _, _, _ => (scheme, url)
    end in
  let '(netloc, url) :=
    if String.eqb (substring 0 2 url) "//"
    then break_at (fun c => char_in c "/?#") (tail (tail url))
    else ("", url) in
  let '(url, fragment) :=
    if str_in "#" url
    then let '(a, b) := break_at (Ascii.eqb "#") url in (a, tail b)
    else (url, "") in
  let '(url, query) :=
    if str_in "?" url
    then let '(a, b) := break_at (Ascii.eqb "?") url in (a, tail b)
    else (url, "") in
  {| s_scheme := scheme; s_netloc := netloc; s_path := url;
     s_query := query; s_fragment := fragment |}.

(** [_splitparams]: the cut is at the first [;] of the last path segment. *)
Definition splitparams (url : string) : string * string :=
  if str_in "/" url then
    let '(last_rev, front_rev) := break_at (Ascii.eqb "/") (reverse url) in
    let last := reverse last_rev in
    let front := reverse front_rev in
    if str_in ";" last
    then let '(a, b) := break_at (Ascii.eqb ";") last in (front ++ a, tail b)
    else (url, "")
  else
    if str_in ";" url
    then let '(a, b) := break_at (Ascii.eqb ";") url in (a, tail b)
    else (reverse (tail (reverse url)), url).

Definition urlparse_with (url default_scheme : string) : ParseResult :=
  let r := urlsplit url default_scheme in
  let '(url, params) :=
    if mem (s_scheme r) uses_params && str_in ";" (s_path r)
    then splitparams (s_path r) else (s_path r, "") in
  {| scheme := s_scheme r; netloc := s_netloc r; path := url;
     params := params; query := s_query r; fragment := s_fragment r |}.

Definition urlparse (url : string) : ParseResult := urlparse_with url "".

(** The loop of [urljoin] over the path segments. *)
Fixpoint resolve (segments : list string) (resolved_path : list string) : list string :=
  match segments with
  | [] => resolved_path
  | seg :: rest =>
      if String.eqb seg ".." then resolve rest (removelast resolved_path)
      else if String.eqb seg "." then resolve rest resolved_path
      else resolve rest (resolved_path ++ [seg])%list
  end.

(** [segments[1:-1] = filter(None, segments[1:-1])]. *)
Definition drop_inner_empties (segments : list string) : list string :=
  match segments with
  | first :: rest =>
      match rev rest with
      | final :: inner_rev =>
          (first :: List.filter nonempty (rev inner_rev) ++ [final])%list
      | [] => segments
      end
  | [] => segments
  end.

Definition urljoin (base url : string) : string :=
  if negb (nonempty base) then url
  else if negb (nonempty url) then base
  else
    let b := urlparse_with base "" in
    let u := urlparse_with url (scheme b) in
    if negb (String.eqb (scheme u) (scheme b)) || negb (mem (scheme u) uses_relative)
    then url
    else if mem (scheme u) uses_netloc && nonempty (netloc u)
    then urlunparse u
    else
      let netloc := if mem (scheme u) uses_netloc then netloc b else netloc u in
      if negb (nonempty (path u)) && negb (nonempty (params u)) then
        urlunparse {| scheme := scheme u; netloc := netloc; path := path b;
                      params := params b;
                      query := if nonempty (query u) then query u else query b;
                      fragment := fragment u |}
      else
        let base_parts := split_on "/" (path b) in
        let base_parts :=
          if nonempty (List.last base_parts "") then removelast base_parts
          else base_parts in
        let segments :=
          if String.eqb (substring 0 1 (path u)) "/" then split_on "/" (path u)
          else drop_inner_empties (base_parts ++ split_on "/" (path u)) in
        let resolved_path := resolve segments [] in
        let resolved_path :=
          if mem (List.last segments "") ["."; ".."] then (resolved_path ++ [""])%list
          else resolved_path in
        let joined := join "/" resolved_path in
        urlunparse {| scheme := scheme u; netloc := netloc;
                      path := if nonempty joined then joined else "/";
                      params := params u; query := query u;
                      fragment := fragment u |}.

(** *** The regular expressions *)

Definition m_lit (w : string) : Matcher := fun s k =>
  if String.prefix w s then k (substring (String.length w) (String.length s) s)
  else None.

Definition m_alt (a b : Matcher) : Matcher := fun s k =>
  match a s k with
  | Some r => Some r
  | None => b s k
  end.

(** [\.(pdf|jpg|jpeg|png|gif|zip|doc|docx)$] with [re.I]: [$] also matches
    in front of a final line feed. *)
Definition SKIP_EXT_search (path : string) : bool :=
  let p := lower path in
  let p := if endswith (String "010" "") p then reverse (tail (reverse p)) else p in
  existsb (fun ext => endswith ext p)
          [".pdf"; ".jpg"; ".jpeg"; ".png"; ".gif"; ".zip"; ".doc"; ".docx"].

Definition is_sep (c : ascii) : bool := is_space c || char_in c ".-".

(** [(?:(?:\+?\d{1,3}[\s.-]?)?(?:\(?\d{2,4}\)?[\s.-]?)?\d{3,4}[\s.-]?\d{4})]. *)
Definition phone_re : Matcher :=
  m_seq (m_opt (m_seq (m_opt (m_char (Ascii.eqb "+")))
               (m_seq (m_rep is_digit 1 3) (m_opt (m_char is_sep)))))
  (m_seq (m_opt (m_seq (m_opt (m_char (Ascii.eqb "(")))
               (m_seq (m_rep is_digit 2 4)
               (m_seq (m_opt (m_char (Ascii.eqb ")"))) (m_opt (m_char is_sep))))))
  (m_seq (m_rep is_digit 3 4)
  (m_seq (m_opt (m_char is_sep)) (m_rep is_digit 4 4)))).

Definition phone_findall (text : string) : list string := findall phone_re text.

(** [\bw\b] somewhere in [s], [prev] telling whether a word character
    stands in front of [s]. *)
Fixpoint word_search (w s : string) (prev : bool) : bool :=
  (negb prev && String.prefix w s &&
   match get (String.length w) s with
   | Some c => negb (is_word c)
   | None => true
   end) ||
  match s with
  | String c s' => word_search w s' (is_word c)
  | EmptyString => false
  end.

Definition price_unit_search (t : string) : bool :=
  str_in "$" t || word_search "sgd" t false || word_search "usd" t false
  || word_search "per" t false.

(** [(\d+)\s+(open roles|jobs|positions)]: group 1 is the run of digits the
    match starts with. *)
Definition roles_re : Matcher :=
  m_seq (m_at_least is_digit 1)
  (m_seq (m_at_least is_space 1)
         (m_alt (m_lit "open roles") (m_alt (m_lit "jobs") (m_lit "positions")))).

Definition open_roles_finditer (text : string) : list Z :=
  map (fun m => digits_value (fst (break_at (fun c => negb (is_digit c)) m)))
      (findall roles_re text).

(** *** Pages *)

Definition no_page : Soup :=
  {| soup_title := None; meta_name_description := None; meta_og_description := None;
     headings := []; list_items := []; soup_text := "";
     script_srcs := []; script_texts := []; link_hrefs := [];
     html_tag := None; anchors := [] |}.

(** A parser given by a table of documents with their parse. *)
Fixpoint parse_table (pages : list (string * Soup)) (html : string) : Soup :=
  match pages with
  | [] => no_page
  | (source, soup) :: rest =>
      if String.eqb source html then soup else parse_table rest html
  end.

End Reference.

(** The runtime with the pages of a table and a set order. *)
Definition reference_runtime (pages : list (string * Soup))
  (order : list string -> list string)
  (order_perm : forall l, Permutation (order l) l) : Runtime :=
  {| lower := Reference.lower;
     strip := Reference.strip;
     split := Reference.split;
     splitlines := Reference.splitlines;
     isdigit := Reference.isdigit;
     py_int := Reference.py_int;
     urlparse := Reference.urlparse;
     urljoin := Reference.urljoin;
     unquote := Reference.unquote;
     BeautifulSoup := Reference.parse_table pages;
     SKIP_EXT_search := Reference.SKIP_EXT_search;
     phone_findall := Reference.phone_findall;
     price_unit_search := Reference.price_unit_search;
     open_roles_finditer := Reference.open_roles_finditer;
     set_list := order;
     set_list_perm := order_perm |}.
(** ** Example pages and sites

    Each page is given by its source and by the parse of that source. *)

Module Examples.

Definition page (hs items : list string) (txt : string) (links : list Anchor) : Soup :=
  {| soup_title := None; meta_name_description := None; meta_og_description := None;
     headings := hs; list_items := items; soup_text := txt;
     script_srcs := []; script_texts := []; link_hrefs := [];
     html_tag := None; anchors := links |}.

(** A link to the same host under another scheme. *)
Definition html_http_link : string :=
  "<a href='http://example.com/about'>About</a>".

Definition soup_http_link : Soup :=
  page [] [] "About" [ {| href := "http://example.com/about"; anchor_text := "About" |} ].

(** Two links that match a keyword. *)
Definition html_two_links : string :=
  "<a href='/pricing'>Pricing</a> <a href='/about'>About</a>".

Definition soup_two_links : Soup :=
  page [] [] "Pricing About"
       [ {| href := "/pricing"; anchor_text := "Pricing" |};
         {| href := "/about"; anchor_text := "About" |} ].

(** Eight one-word headings in front of a four-word one. *)
Definition html_nine_headings : string :=
  join "" (repeat "<h2>Hi</h2>" 8) ++ "<h2>We build great software</h2>".

Definition soup_nine_headings : Soup :=
  page (repeat "Hi" 8 ++ ["We build great software"]) []
       (join " " (repeat "Hi" 8) ++ " We build great software") [].

(** A page that lists 41 addresses and has no link. *)
Definition mailbox (n : nat) : string :=
  "u" ++ String (ascii_of_nat (48 + n / 10)) (String (ascii_of_nat (48 + n mod 10)) "")
      ++ "@example.com".

Definition html_directory : string :=
  "<p>" ++ join " " (map mailbox (seq 0 41)) ++ "</p>".

Definition soup_directory : Soup :=
  page [] [] (join " " (map mailbox (seq 0 41))) [].

(** A sub-page: a careers page with an address and a price list. *)
Definition html_about : string :=
  "<h1>About our small team</h1><ul><li>Starter plan $10 per month</li></ul><p>jobs@example.com 3 open roles</p>".

Definition soup_about : Soup :=
  page ["About our small team"] ["Starter plan $10 per month"]
       "About our small team Starter plan $10 per month jobs@example.com 3 open roles" [].

Definition html_pricing : string := "<h1>Pricing</h1>".

Definition soup_pricing : Soup := page ["Pricing"] [] "Pricing" [].

Definition pages : list (string * Soup) :=
  [ (html_http_link, soup_http_link);
    (html_two_links, soup_two_links);
    (html_nine_headings, soup_nine_headings);
    (html_directory, soup_directory);
    (html_about, soup_about);
    (html_pricing, soup_pricing) ].

(** Sets that list their elements in the order they were added, and sets
    that list them in the opposite order. *)
Definition insertion_order : Runtime :=
  reference_runtime pages (fun l => l) (fun l => Permutation_refl l).

Definition reverse_order : Runtime :=
  reference_runtime pages (@rev string) (fun l => Permutation_sym (Permutation_rev l)).

(** A site: the documents it serves, by URL.  Any other URL answers 404, and
    robots.txt cannot be fetched at all. *)
Fixpoint serve (site : list (string * string)) (url : string) : option Response :=
  match site with
  | [] => Some {| status_code := 404; text := "" |}
  | (u, html) :: rest =>
      if String.eqb u url then Some {| status_code := 200; text := html |}
      else serve rest url
  end.

Definition site_env (site : list (string * string)) : Env :=
  {| client_get := fun _ => None;
     client_get_following := serve site;
     raises_for_status := fun r => (400 <=? status_code r)%Z;
     time_time := 1730000000 |}.

Definition start : State := {| _cache := ∅; requests := [] |}.

Definition directory_site : Env :=
  site_env [("https://example.com", html_directory)].

Definition small_site : Env :=
  site_env [("https://example.com", html_two_links);
            ("https://example.com/about", html_about);
            ("https://example.com/pricing", html_pricing)].

(** A site without a robots.txt: the request is answered with 404. *)
Definition no_robots_site : Env :=
  {| client_get := fun _ => Some {| status_code := 404; text := "Not Found" |};
     client_get_following := serve [("https://example.com", html_two_links)];
     raises_for_status := fun r => (400 <=? status_code r)%Z;
     time_time := 1730000000 |}.

(** A site whose robots.txt closes [/pricing] to every agent. *)
Definition robots_txt : string :=
  "User-agent: *" ++ String "010" "Disallow: /pricing" ++ String "010" "".

Definition guarded_site : Env :=
  {| client_get := fun _ => Some {| status_code := 200; text := robots_txt |};
     client_get_following :=
       serve [("https://example.com", html_two_links);
              ("https://example.com/about", html_about);
              ("https://example.com/pricing", html_pricing)];
     raises_for_status := fun r => (400 <=? status_code r)%Z;
     time_time := 1730000000 |}.

End Examples.
(** ** Sorted lists of strings *)

Definition str_lt (a b : string) : Prop := str_ltb a b = true.

(** Increasing without repetition: every element is below all later ones. *)
Definition increasing (l : list string) : Prop := Sorted.StronglySorted str_lt l.

(** ** The callers in [enrichment.py] *)

Definition CRAWLER_MAX_PAGES : Z := 6.

Definition CRAWL_KEYWORDS : list string :=
  ["pricing"; "plans"; "packages"; "services"; "solutions"; "products";
   "about"; "team"; "contact"; "industries"; "sectors";
   "case studies"; "success stories"; "portfolio";
   "blog"; "news"; "insights";
   "careers"; "jobs"; "hiring"].

(** A value of the dictionary that the LLM extraction fills: [None], a
    boolean, an integer, a string or a list of strings.  (Other values, such
    as floats or lists of other things, are outside the model.) *)
Inductive Value :=
| VNone
| VBool (b : bool)
| VInt (n : Z)
| VStr (s : string)
| VList (items : list string).

(** The truth value of a value. *)
Definition truth (v : Value) : bool :=
  match v with
  | VNone => false
  | VBool b => b
  | VInt n => negb (n =? 0)%Z
  | VStr s => nonempty s
  | VList l => truthy l
  end.

(** [v in (None, 0)]: [None], the integer 0, and [False], which equals 0. *)
Definition none_or_zero (v : Value) : bool :=
  match v with
  | VNone => true
  | VBool b => negb b
  | VInt n => (n =? 0)%Z
  | _ => false
  end.

(** [data.get(key)]. *)
Definition dict_get (data : gmap string Value) (key : string) : Value :=
  default VNone (data !! key).

(** [data.setdefault(key, v)] (the dictionary afterwards). *)
Definition dict_setdefault (data : gmap string Value) (key : string) (v : Value)
  : gmap string Value :=
  match data !! key with
  | Some _ => data
  | None => <[key := v]> data
  end.

(** [re.split(r"[,\n;]+", s)]: the pieces between the maximal runs of
    separators; a run at either end leaves an empty piece there.  [piece]
    holds, reversed, the piece being read, and [in_run] tells whether the
    character before was a separator. *)
Definition is_list_separator (c : ascii) : bool :=
  Ascii.eqb c "," || Ascii.eqb c "010" || Ascii.eqb c ";".

(** A string that holds no separator, and one that holds nothing else. *)
Definition separator_free (s : string) : bool :=
  forallb (fun c => negb (is_list_separator c)) (list_ascii_of_string s).

Definition all_separators (s : string) : bool :=
  forallb is_list_separator (list_ascii_of_string s).

Fixpoint split_runs (s : string) (piece : string) (in_run : bool) : list string :=
  match s with
  | EmptyString => [reverse piece]
  | String c s' =>
      if is_list_separator c then
        if in_run then split_runs s' "" true
        else reverse piece :: split_runs s' "" true
      else split_runs s' (String c piece) false
  end.

Definition re_split_list (s : string) : list string := split_runs s "" false.

Section Enrichment.
Context {RT : Runtime}.

(** [_ensure_list] (lines 109-117). *)
Definition _ensure_list (v : Value) : option (list string) :=
  match v with
  | VNone => None
  | VList l => Some l
  | VStr s =>
      let parts :=
        map strip (List.filter (fun p => nonempty (strip p)) (re_split_list s)) in
      if truthy parts then Some parts else None
  | _ => None
  end.

(** The loop of [_discover_relevant_urls] (lines 74-85). *)
Fixpoint relevant_loop (base : string) (max_pages : Z) (tags : list Anchor)
  (found : list string) : list string :=
  match tags with
  | [] => found
  | a :: rest =>
      let href := strip (href a) in
      if negb (nonempty href)
         || String.prefix "#" href || String.prefix "mailto:" href
         || String.prefix "tel:" href
         || str_in "javascript:" href
      then relevant_loop base max_pages rest found
      else
        let full := urljoin base href in
        if negb (String.eqb (netloc (urlparse full)) (netloc (urlparse base)))
        then relevant_loop base max_pages rest found
        else
          let label := lower (if nonempty (anchor_text a) then anchor_text a else href) in
          let found :=
            if any_in CRAWL_KEYWORDS label || any_in CRAWL_KEYWORDS (lower full)
            then set_add full found else found in
          if (max_pages - 1 <=? Z.of_nat (length found))%Z then found
          else relevant_loop base max_pages rest found
  end.

(** [_discover_relevant_urls] (lines 62-87).  [env] answers the requests of
    the client this function opens; [sorted(found)] lists the set and sorts
    what it gets. *)
Definition _discover_relevant_urls (env : Env) (home_url : string) (max_pages : Z)
  : list string :=
  let base := scheme (urlparse home_url) ++ "://" ++ netloc (urlparse home_url) in
  let urls := [home_url] in
  match fetched_html env home_url with
  | None => urls
  | Some html =>
      let found := relevant_loop base max_pages (anchors (BeautifulSoup html)) [] in
      (urls ++ slice_to (sorted_set (set_list found)) (max_pages - 1))%list
  end.

(** All the labels of the technology buckets, bucket after bucket. *)
Definition tech_values (t : gmap string (list string)) : list string :=
  concat (map snd (map_to_list t)).

(** Lines 131-142: the three arrays, each the sorted union of what [data]
    holds and what the crawl found, cut at 40. *)
Definition merge_arrays (data : gmap string Value) (signals : Signals)
  : gmap string Value :=
  let sig_emails := emails (contact signals) in
  let sig_phones := phones (contact signals) in
  let base_emails := default [] (_ensure_list (dict_get data "email")) in
  let data := <["email" := VList (merge_lists base_emails sig_emails)]> data in
  let base_phones := default [] (_ensure_list (dict_get data "phone_number")) in
  let data := <["phone_number" := VList (merge_lists base_phones sig_phones)]> data in
  let tech_list := tech_values (tech signals) in
  let base_tech := default [] (_ensure_list (dict_get data "tech_stack")) in
  let data := <["tech_stack" := VList (merge_lists base_tech tech_list)]> data in
  data.

(** Lines 144-151: the text written to [about_text] when it is missing. *)
Definition about_text_of (signals : Signals) : string :=
  let val_props := take 6 (value_props signals) in
  if truthy val_props then join " | " val_props
  else strip_chars " -" (title signals ++ " - " ++ meta_description signals).

Definition fill_about_text (data : gmap string Value) (signals : Signals)
  : gmap string Value :=
  if truth (dict_get data "about_text") then data
  else <["about_text" := VStr (about_text_of signals)]> data.

(** Lines 153-154.  ([open_roles_count] is always an integer.) *)
Definition fill_jobs_count (data : gmap string Value) (signals : Signals)
  : gmap string Value :=
  if none_or_zero (dict_get data "jobs_count")
  then <["jobs_count" := VInt (open_roles_count signals)]> data
  else data.

(** Lines 156-160. *)
Definition mentions_singapore (home : string) (signals : Signals) : bool :=
  let text := lower (title signals ++ " " ++ meta_description signals) in
  str_in "singapore" text || endswith ".sg/" (lower home) || str_in ".sg" (lower home).

Definition guess_hq (data : gmap string Value) (home : string) (signals : Signals)
  : gmap string Value :=
  if negb (truth (dict_get data "hq_city")) || negb (truth (dict_get data "hq_country"))
  then
    if mentions_singapore home signals
    then dict_setdefault (dict_setdefault data "hq_city" (VStr "Singapore"))
                         "hq_country" (VStr "Singapore")
    else data
  else data.

(** Lines 162-163. *)
Definition fill_website_domain (data : gmap string Value) (home : string)
  : gmap string Value :=
  if truth (dict_get data "website_domain") then data
  else <["website_domain" := VStr home]> data.

(** What [_merge_with_deterministic] does to [data] once the crawl has
    returned [summary] (lines 126-164). *)
Definition merge_summary (data : gmap string Value) (home : string)
  (summary : CrawlSummary) : gmap string Value :=
  let signals := cs_signals summary in
  let data := merge_arrays data signals in
  let data := fill_about_text data signals in
  let data := fill_jobs_count data signals in
  let data := guess_hq data home signals in
  let data := fill_website_domain data home in
  data.

(** The keys that the merge can write. *)
Definition merged_keys : list string :=
  ["email"; "phone_number"; "tech_stack"; "about_text"; "jobs_count";
   "hq_city"; "hq_country"; "website_domain"].

(** [_merge_with_deterministic] (lines 119-164): the crawl, and [data]
    untouched when the crawl raises. *)
Definition _merge_with_deterministic (env : Env) (data : gmap string Value)
  (home : string) (st : State) : gmap string Value * State :=
  match crawl_site env home CRAWLER_MAX_PAGES st with
  | (Returned summary, st) => (merge_summary data home summary, st)
  | (_, st) => (data, st)
  end.

(** ** [_deterministic_crawl_and_persist]: what is made of the summary

    The function crawls, writes the summary to the database, and then builds
    from the summary the values of a second row and the dictionary [legacy]
    that it hands to [store_enrichment] (lines 255-292).  The database
    statements are not modelled; the values are. *)

(** [_guess_city_country] (lines 274-278). *)
Definition _guess_city_country (sig : Signals) (url_ : string)
  : option string * option string :=
  let text := title sig ++ " " ++ meta_description sig in
  if str_in "singapore" (lower text) || endswith ".sg/" (lower url_)
     || str_in ".sg" (lower url_)
  then (Some "Singapore", Some "Singapore")
  else (None, None).

Record Legacy := {
  legacy_about_text : string;
  legacy_tech_stack : list string;
  legacy_public_emails : list string;
  legacy_jobs_count : Z;
  legacy_linkedin_url : option string;
  legacy_phone_number : list string;
  legacy_hq_city : option string;
  legacy_hq_country : option string
}.

(** Lines 255-260 and 280-292. *)
Definition legacy_of (summary : CrawlSummary) (url : string) : Legacy :=
  let signals := cs_signals summary in
  let about_text :=
    if nonempty (cs_content_summary summary) then cs_content_summary summary
    else join " " (take 6 (value_props signals)) in
  let tech_stack := take 25 (sorted_set (tech_values (tech signals))) in
  let public_emails := take 10 (emails (contact signals)) in
  let jobs_count := open_roles_count signals in
  let '(hq_city, hq_country) := _guess_city_country signals url in
  let phones := phones (contact signals) in
  {| legacy_about_text := if nonempty about_text then about_text else "";
     legacy_tech_stack := if truthy tech_stack then tech_stack else [];
     legacy_public_emails := if truthy public_emails then public_emails else [];
     legacy_jobs_count := if (jobs_count =? 0)%Z then 0%Z else jobs_count;
     legacy_linkedin_url := None;
     legacy_phone_number := phones;
     legacy_hq_city := hq_city;
     legacy_hq_country := hq_country |}.

End Enrichment.

(** The names of the technology buckets and the labels a bucket can hold:
    the keys of [TECH_PATTERNS] and the labels of a key's patterns. *)
Definition tech_buckets : list string := map fst TECH_PATTERNS.

Definition tech_labels (bucket : string) : list string :=
  concat (map (fun entry => if String.eqb (fst entry) bucket
                            then map tech_label (snd entry) else [])
              TECH_PATTERNS).

(** The test of the pricing loop (line 121). *)
Definition is_pricing_item {RT : Runtime} (t : string) : bool :=
  any_in ["plan"; "tier"; "price"] (lower t) && price_unit_search (lower t).

(** The six list-valued fields that the merge loop unions (lines 203-208). *)
Definition list_fields : list (Signals -> list string) :=
  [value_props; products_services; pricing; languages;
   fun s => emails (contact s); fun s => phones (contact s)].
(** * Properties *)

(** ** The rule score *)

(** A property of the score of every clamped total, checked on the 49 values
    a clamped total can take. *)
Lemma normalise_table (P : Z -> bool) :
  forallb (fun n => P (Z.of_nat n)) (seq 0 49) = true ->
  forall raw, (0 <= raw <= 48)%Z -> P raw = true.
Proof.
  intros Hall raw Hraw.
  rewrite forallb_forall in Hall.
  specialize (Hall (Z.to_nat raw)).
  rewrite Z2Nat.id in Hall by lia.
  apply Hall, in_seq. lia.
Qed.

(** The float computation of line 173 never leaves the finite floats and
    agrees with the exact quotient rounded half to even. *)
Lemma normalise_finite raw :
  (0 <= raw <= 48)%Z -> is_finite (scaled raw) = true.
Proof.
  apply (normalise_table (fun r => is_finite (scaled r))).
  vm_compute. reflexivity.
Qed.

Lemma normalise_exact raw :
  (0 <= raw <= 48)%Z -> normalise raw = round_half_even_div (100 * raw) 48.
Proof.
  intros Hraw. apply Z.eqb_eq. revert raw Hraw.
  apply (normalise_table (fun r => (normalise r =? round_half_even_div (100 * r) 48)%Z)).
  vm_compute. reflexivity.
Qed.

Lemma normalise_range raw :
  (0 <= raw <= 48)%Z -> (0 <= normalise raw <= 100)%Z.
Proof.
  intros Hraw.
  assert (H : ((0 <=? normalise raw) && (normalise raw <=? 100))%Z = true).
  { revert raw Hraw.
    apply (normalise_table (fun r => ((0 <=? normalise r) && (normalise r <=? 100))%Z)).
    vm_compute. reflexivity. }
  apply andb_prop in H. lia.
Qed.

Lemma normalise_low raw :
  (0 <= raw <= 17)%Z -> (normalise raw <= 35)%Z.
Proof.
  intros Hraw.
  assert (H : ((17 <? raw) || (normalise raw <=? 35))%Z = true).
  { apply (normalise_table (fun r => ((17 <? r) || (normalise r <=? 35))%Z)).
    - vm_compute. reflexivity.
    - lia. }
  apply orb_prop in H. lia.
Qed.

(** The three thresholds of lines 174-176, for any score. *)
Lemma band_of_thresholds score :
  ((75 <= score)%Z -> band_of score = "Ideal ICP") /\
  ((50 <= score < 75)%Z -> band_of score = "Good fit") /\
  ((score < 50)%Z -> band_of score = "Poor fit").
Proof.
  unfold band_of. repeat split; intros H.
  - destruct (Z.leb_spec 75 score); [reflexivity | lia].
  - destruct (Z.leb_spec 75 score); [lia |].
    destruct (Z.leb_spec 50 score); [reflexivity | lia].
  - destruct (Z.leb_spec 75 score); [lia |].
    destruct (Z.leb_spec 50 score); [lia | reflexivity].
Qed.

Lemma b2x_points_range d : (0 <= b2x_points d <= 3)%Z.
Proof.
  unfold b2x_points.
  destruct (String.eqb (b2x d) "b2b"); [lia |].
  destruct (String.eqb (b2x d) "unknown"); lia.
Qed.

(** The additive conditions of lines 163-171 add up to 17 at most. *)
Lemma rule_total_range signals derived :
  (0 <= rule_total signals derived <= 17)%Z.
Proof.
  unfold rule_total. cbv zeta.
  pose proof (b2x_points_range derived).
  repeat match goal with
         | |- context [if ?b then _ else _] => destruct b
         end; lia.
Qed.

Lemma rule_score_unfold signals derived :
  rule_score (_rule_score signals derived) = normalise (rule_total signals derived) /\
  rule_band (_rule_score signals derived) =
    band_of (rule_score (_rule_score signals derived)).
Proof.
  pose proof (rule_total_range signals derived) as Ht.
  unfold _rule_score. cbn [rule_score rule_band].
  rewrite Z.min_l, Z.max_r by lia. split; reflexivity.
Qed.

(** C2. For every pair of signals and derived features the rule score lies
    between 0 and 100, and the band follows the thresholds: 75 and above is
    "Ideal ICP", 50 to 74 is "Good fit", below 50 is "Poor fit". *)
Theorem rule_score_bounded_and_banded (signals : Signals) (derived : Derived) :
  let r := _rule_score signals derived in
  (0 <= rule_score r <= 100)%Z /\
  ((75 <= rule_score r)%Z -> rule_band r = "Ideal ICP") /\
  ((50 <= rule_score r < 75)%Z -> rule_band r = "Good fit") /\
  ((rule_score r < 50)%Z -> rule_band r = "Poor fit").
Proof.
  intros r. subst r.
  destruct (rule_score_unfold signals derived) as [Hs Hb].
  pose proof (rule_total_range signals derived) as Ht.
  split.
  - rewrite Hs. apply normalise_range. lia.
  - rewrite Hb. apply band_of_thresholds.
Qed.

(** C3. The additive conditions sum to 17 at most, hence the rule score is
    at most 35 and the band is always "Poor fit": "Ideal ICP" and "Good fit"
    are never returned. *)
Theorem rule_score_at_most_35 (signals : Signals) (derived : Derived) :
  let r := _rule_score signals derived in
  (rule_total signals derived <= 17)%Z /\
  (rule_score r <= 35)%Z /\
  rule_band r = "Poor fit" /\
  rule_band r <> "Ideal ICP" /\ rule_band r <> "Good fit".
Proof.
  intros r. subst r.
  destruct (rule_score_unfold signals derived) as [Hs Hb].
  pose proof (rule_total_range signals derived) as Ht.
  assert (Hlow : (rule_score (_rule_score signals derived) <= 35)%Z).
  { rewrite Hs. apply normalise_low. lia. }
  assert (Hband : rule_band (_rule_score signals derived) = "Poor fit").
  { rewrite Hb. apply band_of_thresholds. lia. }
  repeat split; [lia | exact Hlow | exact Hband | |];
    rewrite Hband; discriminate.
Qed.

(** The largest total is reached: a b2b company with every signal scores 35. *)
Example rule_score_35_reached :
  normalise 17 = 35%Z /\ normalise 48 = 100%Z /\ normalise 6 = 12%Z.
Proof. vm_compute. repeat split; reflexivity. Qed.

(** ** Derived features *)

Section DerivedFeatures.
Context {RT : Runtime}.

(** C10. [_derive_features] guesses "unknown", "51-200" or "2-10" for the
    company size and never "solo"; so the shortlist that [_rule_score]
    computes from the derived features never holds "solo_services". *)
Theorem size_guess_never_solo (signals : Signals) :
  let derived := _derive_features signals in
  (company_size_guess derived = "unknown" \/
   company_size_guess derived = "51-200" \/
   company_size_guess derived = "2-10") /\
  company_size_guess derived <> "solo" /\
  ~ In "solo_services" (shortlist (_rule_score signals derived)).
Proof.
  intros derived.
  assert (Hsize : company_size_guess derived = "unknown" \/
                  company_size_guess derived = "51-200" \/
                  company_size_guess derived = "2-10").
  { subst derived. unfold _derive_features. cbn [company_size_guess].
    repeat match goal with
           | |- context [if ?b then _ else _] => destruct b
           end; auto. }
  assert (Hsolo : String.eqb (company_size_guess derived) "solo" = false).
  { destruct Hsize as [-> | [-> | ->]]; reflexivity. }
  split; [exact Hsize |]. split.
  - intros Heq. rewrite Heq in Hsolo. discriminate.
  - unfold _rule_score, shortlist_of. cbn [shortlist].
    rewrite Hsolo. cbn [andb].
    destruct (tech_present signals "ecommerce");
      destruct (String.eqb (b2x derived) "b2b"); cbn;
      intros H; repeat destruct H as [H | H]; try discriminate; exact H.
Qed.

End DerivedFeatures.
(** ** Link discovery *)

Lemma mem_In x l : mem x l = true <-> In x l.
Proof.
  unfold mem. rewrite existsb_exists. split.
  - intros [y [Hy Heq]]. apply String.eqb_eq in Heq. subst. exact Hy.
  - intros H. exists x. split; [exact H | apply String.eqb_refl].
Qed.

Lemma mem_false_not_In x l : mem x l = false -> ~ In x l.
Proof.
  intros Hf Hin. apply mem_In in Hin. congruence.
Qed.

Lemma set_add_length x found :
  (length (set_add x found) <= S (length found))%nat.
Proof.
  unfold set_add. destruct (mem x found).
  - lia.
  - rewrite length_app. simpl. lia.
Qed.

Lemma set_add_NoDup x found : NoDup found -> NoDup (set_add x found).
Proof.
  intros Hnd. unfold set_add. destruct (mem x found) eqn:Hm; [exact Hnd |].
  apply mem_false_not_In in Hm.
  apply NoDup_app. repeat split.
  - exact Hnd.
  - intros y Hy Hy'. apply list_elem_of_In in Hy.
    apply list_elem_of_singleton in Hy'. subst. contradiction.
  - apply NoDup_singleton.
Qed.

Lemma set_add_Forall (P : string -> Prop) x found :
  P x -> Forall P found -> Forall P (set_add x found).
Proof.
  intros Hx Hf. unfold set_add. destruct (mem x found); [exact Hf |].
  apply Forall_app. split; [exact Hf | constructor; [exact Hx | constructor]].
Qed.

(** What has been found stays in front. *)
Lemma first_seen_prefix urls found :
  exists more, first_seen urls found = (found ++ more)%list.
Proof.
  revert found. induction urls as [| u urls IH]; intros found.
  - exists []. unfold first_seen. simpl. rewrite app_nil_r. reflexivity.
  - unfold first_seen. simpl. fold (first_seen urls (set_add u found)).
    destruct (IH (set_add u found)) as [more Hmore]. rewrite Hmore.
    unfold set_add. destruct (mem u found).
    + exists more. reflexivity.
    + exists (u :: more). rewrite <- app_assoc. reflexivity.
Qed.

Lemma first_seen_NoDup urls found :
  NoDup found -> NoDup (first_seen urls found).
Proof.
  revert found. induction urls as [| u urls IH]; intros found Hnd.
  - exact Hnd.
  - unfold first_seen. simpl. apply IH, set_add_NoDup, Hnd.
Qed.

Lemma take_full_prefix (found more : list string) n :
  length found = n -> take n (found ++ more) = found.
Proof.
  intros <-. rewrite take_app_length. reflexivity.
Qed.

Section LinkDiscovery.
Context {RT : Runtime}.

(** One turn of the loop, read through [candidate]. *)
Lemma discover_loop_step base_url a rest found :
  (length found < 6)%nat ->
  discover_loop base_url (a :: rest) found =
    match candidate base_url a with
    | Some full =>
        if (6 <=? length (set_add full found))%nat then set_add full found
        else discover_loop base_url rest (set_add full found)
    | None => discover_loop base_url rest found
    end.
Proof.
  intros Hlen. cbn [discover_loop]. unfold candidate.
  destruct (negb (nonempty (strip (href a))) || _ || _ || _ || _); [reflexivity |].
  cbv zeta.
  destruct (negb (String.eqb _ _)); [reflexivity |].
  destruct (SKIP_EXT_search _); [reflexivity |].
  destruct (any_in TARGET_KEYWORDS _ || any_in TARGET_KEYWORDS _); [reflexivity |].
  destruct (Nat.leb_spec 6 (length found)); [lia | reflexivity].
Qed.

(** The loop with its [break] collects the first six of the URLs in the
    order they are first seen. *)
Lemma discover_loop_first_seen base_url tags found :
  (length found < 6)%nat ->
  discover_loop base_url tags found =
    take 6 (first_seen (omap (candidate base_url) tags) found).
Proof.
  revert found. induction tags as [| a rest IH]; intros found Hlen.
  - simpl. unfold first_seen. simpl. rewrite take_ge by lia. reflexivity.
  - rewrite discover_loop_step by exact Hlen.
    cbn [omap list_omap].
    destruct (candidate base_url a) as [full |]; [| apply IH, Hlen].
    pose proof (set_add_length full found) as Hadd.
    change (first_seen (full :: omap (candidate base_url) rest) found)
      with (first_seen (omap (candidate base_url) rest) (set_add full found)).
    destruct (Nat.leb_spec 6 (length (set_add full found))) as [Hfull | Hroom].
    + destruct (first_seen_prefix (omap (candidate base_url) rest) (set_add full found))
        as [more ->].
      symmetry. apply take_full_prefix. lia.
    + apply IH, Hroom.
Qed.

Lemma discover_loop_netloc base_url tags found :
  Forall (fun u => netloc (urlparse u) = netloc (urlparse base_url)) found ->
  Forall (fun u => netloc (urlparse u) = netloc (urlparse base_url))
         (discover_loop base_url tags found).
Proof.
  revert found. induction tags as [| a rest IH]; intros found Hf.
  - exact Hf.
  - cbn [discover_loop].
    destruct (negb (nonempty (strip (href a))) || _ || _ || _ || _); [apply IH, Hf |].
    cbv zeta.
    destruct (String.eqb (netloc (urlparse (urljoin base_url (strip (href a)))))
                         (netloc (urlparse base_url))) eqn:Hnet;
      cbn [negb]; [| apply IH, Hf].
    apply String.eqb_eq in Hnet.
    destruct (SKIP_EXT_search _); [apply IH, Hf |].
    assert (Hf' : Forall (fun u => netloc (urlparse u) = netloc (urlparse base_url))
                    (if any_in TARGET_KEYWORDS
                          (lower (if nonempty (anchor_text a) then anchor_text a
                                  else strip (href a)))
                        || any_in TARGET_KEYWORDS (lower (urljoin base_url (strip (href a))))
                     then set_add (urljoin base_url (strip (href a))) found else found)).
    { destruct (_ || _); [apply set_add_Forall; assumption | exact Hf]. }
    destruct (6 <=? length _)%nat; [exact Hf' | apply IH, Hf'].
Qed.

(** C1, as the code has it. Every URL that [_discover_links] returns has
    the network location (host and port) of [base_url]; the scheme is not
    compared. *)
Theorem discovered_links_share_netloc (html base_url : string) :
  Forall (fun u => netloc (urlparse u) = netloc (urlparse base_url))
         (_discover_links html base_url).
Proof.
  unfold _discover_links.
  eapply Permutation_Forall.
  - apply Permutation_sym, set_list_perm.
  - apply discover_loop_netloc. constructor.
Qed.

(** C8, as the code has it. [_discover_links] returns at most 6 URLs, all
    different: the first six matching URLs in the order of their first
    appearance in the page, listed in the order in which the set hands them
    out. *)
Theorem discovered_links_capped_first_matches (html base_url : string) :
  (length (_discover_links html base_url) <= 6)%nat /\
  Permutation (_discover_links html base_url) (first_match_order html base_url) /\
  NoDup (_discover_links html base_url).
Proof.
  assert (Hperm : Permutation (_discover_links html base_url)
                              (first_match_order html base_url)).
  { unfold _discover_links, first_match_order.
    rewrite <- discover_loop_first_seen by (simpl; lia).
    apply set_list_perm. }
  assert (Hnd : NoDup (first_match_order html base_url)).
  { unfold first_match_order.
    eapply sublist_NoDup; [| apply sublist_take].
    apply first_seen_NoDup. constructor. }
  repeat split.
  - rewrite (Permutation_length Hperm). unfold first_match_order.
    rewrite length_take. lia.
  - exact Hperm.
  - rewrite Hperm. exact Hnd.
Qed.

End LinkDiscovery.
(** ** Signal extraction *)

Lemma filter_length_bound {A} (f : A -> bool) (l : list A) n :
  (length l <= n)%nat -> (length (List.filter f l) <= n)%nat.
Proof.
  intros Hl. pose proof (filter_length_le f l). lia.
Qed.

Lemma take_length_bound {A} (l : list A) n : (length (take n l) <= n)%nat.
Proof. rewrite length_take. lia. Qed.

Section Extraction.
Context {RT : Runtime}.

(** The pricing loop stops at 10 entries. *)
Lemma pricing_loop_length items pricing :
  (length pricing < 10)%nat -> (length (pricing_loop items pricing) <= 10)%nat.
Proof.
  revert pricing. induction items as [| t rest IH]; intros pricing Hlen.
  - simpl. lia.
  - cbn [pricing_loop].
    destruct (any_in _ (lower t) && price_unit_search (lower t)); [| apply IH, Hlen].
    cbv zeta.
    destruct (Nat.leb_spec 10 (length (pricing ++ [t]))) as [Hfull | Hroom].
    + rewrite length_app in *. simpl in *. lia.
    + apply IH, Hroom.
Qed.

(** Every technology bucket of a page holds at most 5 labels. *)
Lemma tech_of_bucket_length blob bucket arr :
  tech_of blob !! bucket = Some arr -> (length arr <= 5)%nat.
Proof.
  unfold tech_of. intros Hlook.
  apply elem_of_list_to_map_2 in Hlook.
  apply list_elem_of_In, in_map_iff in Hlook.
  destruct Hlook as [[b patterns] [Heq Hin]].
  inversion Heq; subst; clear Heq.
  rewrite length_map.
  apply filter_length_bound.
  unfold TECH_PATTERNS in Hin. simpl in Hin.
  repeat destruct Hin as [Hin | Hin]; try contradiction;
    inversion Hin; subst; simpl; lia.
Qed.

(** The sizes of what one page yields. *)
Lemma extract_signals_sizes html base_url :
  let s := _extract_signals html base_url in
  (length (value_props s) <= 8)%nat /\
  (length (products_services s) <= 20)%nat /\
  (length (pricing s) <= 10)%nat /\
  (length (languages s) <= 1)%nat /\
  (forall bucket arr, tech s !! bucket = Some arr -> (length arr <= 5)%nat).
Proof.
  unfold _extract_signals.
  cbn [value_props products_services pricing languages tech].
  split; [| split; [| split; [| split]]].
  - apply filter_length_bound, take_length_bound.
  - apply take_length_bound.
  - apply pricing_loop_length. simpl. lia.
  - destruct (html_tag (BeautifulSoup html)) as [[l |] |]; simpl; try lia.
    destruct (nonempty l); simpl; lia.
  - intros bucket arr. apply tech_of_bucket_length.
Qed.

(** C7, as the code has it. [value_props] holds, in document order, those
    of the first 8 headings whose word count is between 3 and 18; headings
    after the eighth are never looked at.  On a page with at most 8 headings
    this is the list the specification words. *)
Theorem value_props_among_first_eight_headings (html base_url : string) :
  let hs := headings (BeautifulSoup html) in
  value_props (_extract_signals html base_url)
    = List.filter (words_between 3 18) (take 8 hs) /\
  Forall (fun t => (3 <= length (split t) <= 18)%nat)
         (value_props (_extract_signals html base_url)) /\
  ((length hs <= 8)%nat ->
   value_props (_extract_signals html base_url) = stated_value_props html).
Proof.
  intros hs. subst hs.
  unfold _extract_signals, stated_value_props. cbn [value_props].
  split; [reflexivity | split].
  - apply List.Forall_forall. intros t Ht.
    apply filter_In in Ht. destruct Ht as [_ Ht].
    unfold words_between in Ht. apply andb_prop in Ht. destruct Ht as [H3 H18].
    apply Nat.leb_le in H3. apply Nat.leb_le in H18. lia.
  - intros Hlen.
    rewrite (take_ge (headings (BeautifulSoup html))) by lia.
    rewrite take_ge; [reflexivity |].
    apply filter_length_bound, Hlen.
Qed.

End Extraction.
(** ** Merging the sub-pages *)

Lemma merge_lists_length a b : (length (merge_lists a b) <= 40)%nat.
Proof. unfold merge_lists. apply take_length_bound. Qed.

(** The loop over the buckets of the sub-page, bucket by bucket. *)
Lemma merge_tech_lookup (t t2 : gmap string (list string)) bucket :
  merge_tech t t2 !! bucket =
    match t2 !! bucket with
    | Some arr => Some (merge_lists (default [] (t !! bucket)) arr)
    | None => t !! bucket
    end.
Proof.
  unfold merge_tech.
  apply (map_fold_weak_ind
           (fun acc (m : gmap string (list string)) =>
              forall k, acc !! k =
                match m !! k with
                | Some arr => Some (merge_lists (default [] (t !! k)) arr)
                | None => t !! k
                end)).
  - intros k. rewrite lookup_empty. reflexivity.
  - intros i arr m acc Hfresh IH k.
    destruct (decide (i = k)) as [-> | Hne].
    + rewrite !lookup_insert_eq. rewrite IH, Hfresh. reflexivity.
    + rewrite !lookup_insert_ne by exact Hne. apply IH.
Qed.

Lemma merge_tech_bucket_length (t t2 : gmap string (list string)) :
  (forall bucket arr, t !! bucket = Some arr -> (length arr <= 40)%nat) ->
  forall bucket arr, merge_tech t t2 !! bucket = Some arr -> (length arr <= 40)%nat.
Proof.
  intros Ht bucket arr. rewrite merge_tech_lookup.
  destruct (t2 !! bucket) as [arr2 |].
  - intros [= <-]. apply merge_lists_length.
  - apply Ht.
Qed.

Section Merging.
Context {RT : Runtime}.

(** The merge loop folds [merge_signals] over the pages that were fetched. *)
Lemma merge_pages_fold base pages signals :
  merge_pages base pages signals =
    fold_left merge_signals (page_signals base pages) signals.
Proof.
  revert signals. induction pages as [| [[u h] |] rest IH]; intros signals.
  - reflexivity.
  - cbn [merge_pages page_signals omap list_omap fold_left]. apply IH.
  - cbn [merge_pages page_signals omap list_omap]. apply IH.
Qed.

Lemma fold_merge_flags subs root :
  let merged := fold_left merge_signals subs root in
  has_case_studies merged = has_case_studies root || existsb has_case_studies subs /\
  has_testimonials merged = has_testimonials root || existsb has_testimonials subs /\
  has_careers_page merged = has_careers_page root || existsb has_careers_page subs /\
  open_roles_count merged = fold_left Z.max (map open_roles_count subs) (open_roles_count root).
Proof.
  revert root. induction subs as [| s2 subs IH]; intros root.
  - cbn. rewrite !orb_false_r. repeat split; reflexivity.
  - cbn [fold_left existsb map].
    destruct (IH (merge_signals root s2)) as (Hc & Ht & Hp & Hr).
    cbn zeta. rewrite Hc, Ht, Hp, Hr.
    cbn [merge_signals has_case_studies has_testimonials has_careers_page open_roles_count].
    rewrite !orb_assoc. repeat split; reflexivity.
Qed.

Lemma fold_max_ge (l : list Z) (x : Z) :
  (x <= fold_left Z.max l x)%Z /\ Forall (fun y => (y <= fold_left Z.max l x)%Z) l.
Proof.
  revert x. induction l as [| y l IH]; intros x.
  - cbn. split; [lia | constructor].
  - cbn [fold_left]. destruct (IH (Z.max x y)) as [Hx Hl]. split; [lia |].
    constructor; [lia | exact Hl].
Qed.

(** C9. After the merge each of the three flags is the OR of the root flag
    and the flags of all merged sub-pages, so a flag that is set on the root
    stays set; [open_roles_count] is the maximum over the root and the
    sub-pages, so it is never below the root's count nor below a
    sub-page's. *)
Theorem merge_is_or_and_max (base : string) (pages : list (option (string * string)))
  (root : Signals) :
  let subs := page_signals base pages in
  let merged := merge_pages base pages root in
  (has_case_studies merged = has_case_studies root || existsb has_case_studies subs /\
   has_testimonials merged = has_testimonials root || existsb has_testimonials subs /\
   has_careers_page merged = has_careers_page root || existsb has_careers_page subs) /\
  ((has_case_studies root = true -> has_case_studies merged = true) /\
   (has_testimonials root = true -> has_testimonials merged = true) /\
   (has_careers_page root = true -> has_careers_page merged = true)) /\
  open_roles_count merged
    = fold_left Z.max (map open_roles_count subs) (open_roles_count root) /\
  (open_roles_count root <= open_roles_count merged)%Z /\
  Forall (fun s => (open_roles_count s <= open_roles_count merged)%Z) subs.
Proof.
  intros subs merged. subst subs merged.
  rewrite merge_pages_fold.
  destruct (fold_merge_flags (page_signals base pages) root) as (Hc & Ht & Hp & Hr).
  cbn zeta in Hc, Ht, Hp, Hr.
  split; [repeat split; assumption |].
  split.
  { rewrite Hc, Ht, Hp. repeat split; intros ->; reflexivity. }
  split; [exact Hr |].
  rewrite Hr.
  destruct (fold_max_ge (map open_roles_count (page_signals base pages))
                        (open_roles_count root)) as [Hroot Hsubs].
  split; [exact Hroot |].
  apply List.Forall_forall. intros s Hs.
  rewrite List.Forall_forall in Hsubs. apply Hsubs, in_map, Hs.
Qed.

Lemma merge_signals_capped signals s2 :
  capped_lists signals ->
  capped_lists (merge_signals signals s2) /\ capped_contact (merge_signals signals s2).
Proof.
  intros (_ & _ & _ & _ & Htech).
  unfold capped_lists, capped_contact, merge_signals.
  cbn [value_props products_services pricing languages tech contact emails phones].
  repeat split; try apply merge_lists_length.
  apply merge_tech_bucket_length, Htech.
Qed.

Lemma fold_merge_capped subs signals :
  capped_lists signals ->
  capped_lists (fold_left merge_signals subs signals) /\
  (capped_contact signals \/ subs <> [] ->
   capped_contact (fold_left merge_signals subs signals)).
Proof.
  revert signals. induction subs as [| s2 subs IH]; intros signals Hcap.
  - cbn. split; [exact Hcap |]. intros [H | H]; [exact H | congruence].
  - cbn [fold_left].
    destruct (merge_signals_capped signals s2 Hcap) as [Hl Hc].
    destruct (IH _ Hl) as [Hl' Hc'].
    split; [exact Hl' |]. intros _. apply Hc'. left. exact Hc.
Qed.

Lemma extract_signals_capped html base : capped_lists (_extract_signals html base).
Proof.
  destruct (extract_signals_sizes html base) as (Hv & Hp & Hr & Hl & Ht).
  cbn zeta in *.
  unfold capped_lists. repeat split; try lia.
  intros bucket arr Hb. specialize (Ht bucket arr Hb). lia.
Qed.

End Merging.
(** ** The robots cache *)

Section RobotsCache.
Context {RT : Runtime}.
Variable env : Env.

(** Parsing no line at all only stamps the parser. *)
Lemma parse_nil now rp : parse now [] rp = (modified now rp, false).
Proof. reflexivity. Qed.

(** A stamped parser without rules lets every agent fetch every URL. *)
Lemma can_fetch_without_rules now ua url :
  now <> 0%Z -> can_fetch (modified now new_parser) ua url = true.
Proof.
  intros Hnow. unfold can_fetch, modified, new_parser.
  cbn [disallow_all allow_all last_checked entries default_entry List.find].
  destruct (Z.eqb_spec now 0); [contradiction | reflexivity].
Qed.

Lemma load_robots_unreachable robots_url :
  (client_get env robots_url = None \/
   exists resp, client_get env robots_url = Some resp /\ (400 <= status_code resp)%Z) ->
  load_robots env robots_url = modified (Z.pos (time_time env)) new_parser.
Proof.
  unfold load_robots. intros [-> | [resp [-> Hstatus]]].
  - reflexivity.
  - destruct (Z.leb_spec 400 (status_code resp)); [reflexivity | lia].
Qed.

(** A hit in the cache sends nothing and leaves the state as it is. *)
Lemma allowed_cached st url ua rp :
  _cache st !! origin url = Some rp ->
  allowed env st url ua = (can_fetch rp ua url, st).
Proof.
  intros Hhit. unfold allowed. cbv zeta. rewrite Hhit. rewrite Hhit. reflexivity.
Qed.

Lemma allowed_miss st url ua :
  _cache st !! origin url = None ->
  let rp := load_robots env (urljoin (origin url) "/robots.txt") in
  allowed env st url ua =
    (can_fetch rp ua url,
     {| _cache := <[origin url := rp]> (_cache st);
        requests := (requests st ++ [RobotsRequest (urljoin (origin url) "/robots.txt")])%list |}).
Proof.
  intros Hmiss rp. unfold allowed. cbv zeta. rewrite Hmiss.
  cbn [_cache]. rewrite lookup_insert_eq. reflexivity.
Qed.

(** [allowed] sends no page request. *)
Lemma allowed_page_fetches st url ua :
  page_fetches (snd (allowed env st url ua)) = page_fetches st.
Proof.
  destruct (_cache st !! origin url) as [rp |] eqn:Hc.
  - rewrite (allowed_cached _ _ _ _ Hc). reflexivity.
  - rewrite (allowed_miss _ _ _ Hc). cbn [snd]. unfold page_fetches.
    cbn [requests]. rewrite List.filter_app. cbn.
    rewrite app_nil_r. reflexivity.
Qed.

(** C5. When the request for robots.txt raises, or is answered with a
    status of 400 or more, [allowed] returns [True], stores the rule set
    without rules for the origin, and from then on answers [True] for every
    URL of that origin without asking again. *)
Theorem robots_fail_open (st : State) (url ua : string) :
  _cache st !! origin url = None ->
  (client_get env (urljoin (origin url) "/robots.txt") = None \/
   exists resp,
     client_get env (urljoin (origin url) "/robots.txt") = Some resp /\
     (400 <= status_code resp)%Z) ->
  let st' := snd (allowed env st url ua) in
  fst (allowed env st url ua) = true /\
  _cache st' !! origin url = Some (modified (Z.pos (time_time env)) new_parser) /\
  (forall url' ua', origin url' = origin url ->
     allowed env st' url' ua' = (true, st')).
Proof.
  intros Hmiss Hfail st'. subst st'.
  rewrite (allowed_miss _ _ _ Hmiss). cbv zeta. cbn [fst snd].
  rewrite (load_robots_unreachable _ Hfail).
  split; [apply can_fetch_without_rules; discriminate |].
  split; [cbn [_cache]; apply lookup_insert_eq |].
  intros url' ua' Horigin.
  rewrite (allowed_cached _ url' ua' (modified (Z.pos (time_time env)) new_parser)).
  - rewrite can_fetch_without_rules by discriminate. reflexivity.
  - cbn [_cache]. rewrite Horigin. apply lookup_insert_eq.
Qed.

End RobotsCache.

(** ** The orchestrator *)

Lemma slice_to_length {A} (l : list A) (n : Z) :
  (0 <= n)%Z -> (Z.of_nat (length (slice_to l n)) <= n)%Z.
Proof.
  intros Hn. unfold slice_to.
  destruct (Z.ltb_spec n 0); [lia |].
  rewrite length_take. lia.
Qed.

Lemma page_fetches_sent_page url st :
  page_fetches (sent (PageRequest url) st) = S (page_fetches st).
Proof.
  unfold page_fetches, sent. cbn [requests].
  rewrite List.filter_app, length_app. cbn. lia.
Qed.

Section Orchestration.
Context {RT : Runtime}.
Variable env : Env.

Lemma fetch_page_fetches st url :
  page_fetches (snd (_fetch env st url)) = S (page_fetches st).
Proof.
  unfold _fetch. cbv zeta.
  destruct (fetched_html env url); cbn [snd]; apply page_fetches_sent_page.
Qed.

Lemma fetch_result st url :
  fst (_fetch env st url) =
    match fetched_html env url with
    | Some html => Some (url, html)
    | None => None
    end.
Proof.
  unfold _fetch. cbv zeta. destruct (fetched_html env url); reflexivity.
Qed.

(** The robots checks keep some of the links and fetch no page. *)
Lemma allowed_links_spec links acc st :
  (length (fst (allowed_links env links acc st)) <= length acc + length links)%nat /\
  page_fetches (snd (allowed_links env links acc st)) = page_fetches st.
Proof.
  revert acc st. induction links as [| u rest IH]; intros acc st.
  - cbn. split; lia.
  - cbn [allowed_links].
    pose proof (allowed_page_fetches env st u DEFAULT_UA) as Hpf.
    destruct (allowed env st u DEFAULT_UA) as [ok st1]. cbn [snd] in Hpf.
    destruct (IH (if ok then (acc ++ [u])%list else acc) st1) as [Hlen Hfetch].
    split.
    + etransitivity; [exact Hlen |].
      destruct ok; [rewrite length_app |]; cbn [length]; lia.
    + rewrite Hfetch. exact Hpf.
Qed.

(** The group of fetches asks once for every allowed link. *)
Lemma gather_spec urls st :
  fst (gather env urls st) =
    map (fun u => match fetched_html env u with
                  | Some html => Some (u, html)
                  | None => None
                  end) urls /\
  page_fetches (snd (gather env urls st)) = (page_fetches st + length urls)%nat.
Proof.
  revert st. induction urls as [| u rest IH]; intros st.
  - cbn. split; [reflexivity | lia].
  - cbn [gather].
    pose proof (fetch_page_fetches st u) as Hpf.
    pose proof (fetch_result st u) as Hres.
    destruct (_fetch env st u) as [res st1]. cbn [fst snd] in Hpf, Hres.
    destruct (IH st1) as [Hmap Hcount].
    destruct (gather env rest st1) as [more st2]. cbn [fst snd] in *.
    split.
    + cbn [map]. rewrite Hres, Hmap. reflexivity.
    + rewrite Hcount, Hpf. cbn [length]. lia.
Qed.

(** What a crawl that returns has done. *)
Lemma crawl_site_returned url max_pages st s st' :
  crawl_site env url max_pages st = (Returned s, st') ->
  exists html st1 st3,
    allowed env st url DEFAULT_UA = (true, st1) /\
    fetched_html env url = Some html /\
    allowed_links env (slice_to (_discover_links html (origin url)) (max_pages - 1)) []
                  (sent (PageRequest url) st1) = (cs_key_pages s, st3) /\
    cs_signals s =
      merge_pages (origin url) (fst (gather env (cs_key_pages s) st3))
                  (_extract_signals html (origin url)) /\
    st' = snd (gather env (cs_key_pages s) st3) /\
    fetched_pages (cs_crawl_metadata s) = (1 + Z.of_nat (length (cs_key_pages s)))%Z.
Proof.
  unfold crawl_site. cbv zeta.
  destruct (allowed env st url DEFAULT_UA) as [ok st1].
  destruct ok; cbn [negb]; [| discriminate].
  unfold _fetch. cbv zeta.
  destruct (fetched_html env url) as [html |]; [| discriminate].
  destruct (allowed_links env _ [] (sent (PageRequest url) st1)) as [links st3] eqn:Hlinks.
  destruct (gather env links st3) as [pages st4] eqn:Hgather.
  intros [= <- <-]. cbn [cs_key_pages cs_signals cs_crawl_metadata fetched_pages].
  exists html, st1, st3. rewrite Hgather. cbn [fst snd].
  repeat split; try reflexivity. exact Hlinks.
Qed.

(** C4, as the code has it. With a page budget of at least 1, [crawl_site]
    fetches at most [max_pages] pages, the root page and at most
    [max_pages - 1] sub-pages (requests for robots.txt apart), and the
    [fetched_pages] it reports is the number of pages it asked for. *)
Theorem crawl_site_fetch_budget (url : string) (max_pages : Z) (st : State) :
  (1 <= max_pages)%Z ->
  let out := crawl_site env url max_pages st in
  (Z.of_nat (page_fetches (snd out)) - Z.of_nat (page_fetches st) <= max_pages)%Z /\
  (forall s, fst out = Returned s ->
     (Z.of_nat (length (cs_key_pages s)) <= max_pages - 1)%Z /\
     fetched_pages (cs_crawl_metadata s)
       = (Z.of_nat (page_fetches (snd out)) - Z.of_nat (page_fetches st))%Z /\
     (fetched_pages (cs_crawl_metadata s) <= max_pages)%Z).
Proof.
  intros Hbudget out.
  destruct (crawl_site env url max_pages st) as [o st'] eqn:Hrun.
  subst out. cbn [fst snd].
  assert (Hreturned : forall s, o = Returned s ->
            (Z.of_nat (length (cs_key_pages s)) <= max_pages - 1)%Z /\
            Z.of_nat (page_fetches st') =
              (Z.of_nat (page_fetches st) + 1 + Z.of_nat (length (cs_key_pages s)))%Z /\
            fetched_pages (cs_crawl_metadata s) = (1 + Z.of_nat (length (cs_key_pages s)))%Z).
  { intros s ->.
    destruct (crawl_site_returned _ _ _ _ _ Hrun)
      as (html & st1 & st3 & Hroot & Hhtml & Hlinks & _ & Hst' & Hmeta).
    pose proof (allowed_page_fetches env st url DEFAULT_UA) as Hpf1.
    rewrite Hroot in Hpf1. cbn [snd] in Hpf1.
    pose proof (allowed_links_spec
                  (slice_to (_discover_links html (origin url)) (max_pages - 1)) []
                  (sent (PageRequest url) st1)) as [Hlen Hpf3].
    rewrite Hlinks in Hlen, Hpf3. cbn [fst snd] in Hlen, Hpf3.
    rewrite page_fetches_sent_page in Hpf3.
    pose proof (gather_spec (cs_key_pages s) st3) as [_ Hpf4].
    rewrite <- Hst' in Hpf4.
    pose proof (slice_to_length (_discover_links html (origin url)) (max_pages - 1)).
    cbn [length] in Hlen. repeat split; [lia | lia | exact Hmeta]. }
  split.
  - destruct o as [| | s].
    + revert Hrun. unfold crawl_site. cbv zeta.
      pose proof (allowed_page_fetches env st url DEFAULT_UA) as Hpf1.
      destruct (allowed env st url DEFAULT_UA) as [ok st1]. cbn [snd] in Hpf1.
      destruct ok; cbn [negb].
      * destruct (_fetch env st1 url) as [[[u html] |] st2].
        -- destruct (allowed_links env _ [] st2) as [links st3].
           destruct (gather env links st3) as [pages st4]. discriminate.
        -- discriminate.
      * intros [= <-]. lia.
    + revert Hrun. unfold crawl_site. cbv zeta.
      pose proof (allowed_page_fetches env st url DEFAULT_UA) as Hpf1.
      destruct (allowed env st url DEFAULT_UA) as [ok st1]. cbn [snd] in Hpf1.
      destruct ok; cbn [negb]; [| discriminate].
      pose proof (fetch_page_fetches st1 url) as Hpf2.
      destruct (_fetch env st1 url) as [[[u html] |] st2]; cbn [snd] in Hpf2.
      * destruct (allowed_links env _ [] st2) as [links st3].
        destruct (gather env links st3) as [pages st4]. discriminate.
      * intros [= <-]. lia.
    + destruct (Hreturned s eq_refl) as (Hk & Hcount & _). lia.
  - intros s ->. destruct (Hreturned s eq_refl) as (Hk & Hcount & Hmeta).
    repeat split; lia.
Qed.

(** C6, as the code has it. One page yields at most 8 value propositions,
    20 products and services and 10 pricing entries.  In the summary of a
    crawl the value propositions, products and services, pricing entries,
    languages and every technology bucket hold at most 40 entries; the
    e-mail addresses and phone numbers hold at most 40 once a sub-page has
    been merged, the cut to 40 being part of the merge. *)
Theorem crawl_summary_sizes (url : string) (max_pages : Z) (st st' : State)
  (s : CrawlSummary) :
  crawl_site env url max_pages st = (Returned s, st') ->
  (forall html base_url,
     (length (value_props (_extract_signals html base_url)) <= 8)%nat /\
     (length (products_services (_extract_signals html base_url)) <= 20)%nat /\
     (length (pricing (_extract_signals html base_url)) <= 10)%nat) /\
  capped_lists (cs_signals s) /\
  ((exists u, In u (cs_key_pages s) /\ fetched_html env u <> None) ->
   capped_contact (cs_signals s)).
Proof.
  intros Hrun.
  split.
  { intros html base_url.
    destruct (extract_signals_sizes html base_url) as (Hv & Hp & Hr & _).
    repeat split; assumption. }
  destruct (crawl_site_returned _ _ _ _ _ Hrun)
    as (html & st1 & st3 & _ & _ & _ & Hsignals & _ & _).
  rewrite Hsignals, merge_pages_fold.
  destruct (fold_merge_capped
              (page_signals (origin url) (fst (gather env (cs_key_pages s) st3)))
              (_extract_signals html (origin url))
              (extract_signals_capped html (origin url))) as [Hlists Hcontact].
  split; [exact Hlists |].
  intros [u [Hin Hfetched]]. apply Hcontact. right.
  destruct (gather_spec (cs_key_pages s) st3) as [-> _].
  clear - Hin Hfetched. induction (cs_key_pages s) as [| v rest IH]; [contradiction |].
  cbn [map page_signals omap list_omap].
  destruct (fetched_html env v) as [h |] eqn:Hv; [discriminate |].
  destruct Hin as [-> | Hin]; [congruence |].
  apply IH, Hin.
Qed.

End Orchestration.
(** ** The example pages *)

Section ExamplePages.
Import Examples.

(** C1, counterexample. From the page at [https://example.com] whose one
    link points to [http://example.com/about], [_discover_links] returns that
    link, although its origin is not the origin of the base URL. *)
Lemma cross_scheme_link_is_returned :
  _discover_links (RT := insertion_order) html_http_link "https://example.com"
    = ["http://example.com/about"] /\
  origin (RT := insertion_order) "http://example.com/about" = "http://example.com" /\
  origin (RT := insertion_order) "https://example.com" = "https://example.com" /\
  origin (RT := insertion_order) "http://example.com/about"
    <> origin (RT := insertion_order) "https://example.com".
Proof.
  vm_compute. repeat split; try reflexivity. discriminate.
Qed.

(** C8, counterexample. Where a set hands out its elements in the reverse
    of the order of insertion, the two links of the page come back in the
    reverse of the order in which they appear.  (CPython orders a set of
    strings by their salted hashes: it lists these two URLs in this order
    under PYTHONHASHSEED=1 and in the other under PYTHONHASHSEED=0.) *)
Lemma set_order_is_not_first_match_order :
  _discover_links (RT := reverse_order) html_two_links "https://example.com"
    = ["https://example.com/about"; "https://example.com/pricing"] /\
  first_match_order (RT := reverse_order) html_two_links "https://example.com"
    = ["https://example.com/pricing"; "https://example.com/about"] /\
  _discover_links (RT := reverse_order) html_two_links "https://example.com"
    <> first_match_order (RT := reverse_order) html_two_links "https://example.com".
Proof.
  vm_compute. repeat split; try reflexivity. discriminate.
Qed.

(** Where a set keeps the order of insertion the result is in first-match
    order. *)
Example insertion_order_is_first_match_order :
  _discover_links (RT := insertion_order) html_two_links "https://example.com"
    = first_match_order (RT := insertion_order) html_two_links "https://example.com".
Proof. vm_compute. reflexivity. Qed.

(** C7, counterexample. The ninth heading of the page has four words and
    the eight in front of it have one: the specification's list holds the
    ninth heading, [value_props] is empty. *)
Lemma ninth_heading_is_dropped :
  value_props (_extract_signals (RT := insertion_order) html_nine_headings "https://example.com")
    = [] /\
  stated_value_props (RT := insertion_order) html_nine_headings
    = ["We build great software"].
Proof.
  vm_compute. split; reflexivity.
Qed.

(** C6, counterexample. A crawl of a page that lists 41 addresses and links
    nowhere merges nothing, and its summary keeps the 41 addresses. *)
Lemma directory_keeps_41_addresses :
  exists s st',
    crawl_site (RT := insertion_order) directory_site "https://example.com" 6 start
      = (Returned s, st') /\
    cs_key_pages s = [] /\
    length (emails (contact (cs_signals s))) = 41%nat /\
    ~ capped_contact (cs_signals s).
Proof.
  eexists. eexists. split; [vm_compute; reflexivity |].
  split; [reflexivity |]. split; [reflexivity |].
  unfold capped_contact. cbn. lia.
Qed.

(** C4, counterexample. With a page budget of 0 the root page is fetched
    all the same, and the slice [[:-1]] keeps the first of the two links:
    two pages are fetched. *)
Lemma zero_budget_fetches_two_pages :
  exists s st',
    crawl_site (RT := insertion_order) small_site "https://example.com" 0 start
      = (Returned s, st') /\
    fetched_pages (cs_crawl_metadata s) = 2%Z /\
    page_fetches st' = 2%nat /\
    cs_key_pages s = ["https://example.com/pricing"].
Proof.
  eexists. eexists. split; [vm_compute; reflexivity |].
  repeat split; reflexivity.
Qed.

(** A robots.txt that closes [/pricing] is obeyed: the page is not among the
    key pages, and asking for it as the root is refused. *)
Example disallowed_page_is_skipped :
  exists s st',
    crawl_site (RT := insertion_order) guarded_site "https://example.com" 6 start
      = (Returned s, st') /\
    cs_key_pages s = ["https://example.com/about"] /\
    fetched_pages (cs_crawl_metadata s) = 2%Z /\
    fst (crawl_site (RT := insertion_order) guarded_site "https://example.com/pricing" 6 start)
      = BlockedByRobots.
Proof.
  eexists. eexists. split; [vm_compute; reflexivity |].
  repeat split; vm_compute; reflexivity.
Qed.

(** C5, witness: a site whose robots.txt request raises, and a site that
    answers it with 404. *)
Lemma robots_fail_open_witness :
  (_cache start !! origin (RT := insertion_order) "https://example.com/team" = None /\
   client_get small_site
     (urljoin (Runtime := insertion_order)
        (origin (RT := insertion_order) "https://example.com/team") "/robots.txt") = None /\
   fst (allowed (RT := insertion_order) small_site start "https://example.com/team" DEFAULT_UA)
     = true) /\
  ((exists resp,
      client_get no_robots_site
        (urljoin (Runtime := insertion_order)
           (origin (RT := insertion_order) "https://example.com/team") "/robots.txt")
        = Some resp /\ (400 <= status_code resp)%Z) /\
   fst (allowed (RT := insertion_order) no_robots_site start "https://example.com/team" DEFAULT_UA)
     = true).
Proof.
  assert (Hmiss : _cache start !! origin (RT := insertion_order) "https://example.com/team" = None)
    by reflexivity.
  assert (H404 : exists resp,
             client_get no_robots_site
               (urljoin (Runtime := insertion_order)
                  (origin (RT := insertion_order) "https://example.com/team") "/robots.txt")
               = Some resp /\ (400 <= status_code resp)%Z).
  { eexists. split; [reflexivity |]. vm_compute. discriminate. }
  split.
  - split; [exact Hmiss |]. split; [reflexivity |].
    exact (proj1 (robots_fail_open (RT := insertion_order) small_site start
                    "https://example.com/team" DEFAULT_UA Hmiss (or_introl eq_refl))).
  - split; [exact H404 |].
    exact (proj1 (robots_fail_open (RT := insertion_order) no_robots_site start
                    "https://example.com/team" DEFAULT_UA Hmiss (or_intror H404))).
Defined.

(** C4, witness: a budget of 2 on a page with two matching links. *)
Lemma crawl_site_fetch_budget_witness :
  (1 <= 2)%Z /\
  (Z.of_nat (page_fetches
               (snd (crawl_site (RT := insertion_order) small_site "https://example.com" 2 start)))
   - Z.of_nat (page_fetches start) <= 2)%Z.
Proof.
  assert (Hbudget : (1 <= 2)%Z) by lia.
  split; [exact Hbudget |].
  exact (proj1 (crawl_site_fetch_budget (RT := insertion_order) small_site
                  "https://example.com" 2 start Hbudget)).
Defined.

(** C6, witness: the crawl of the small site merges two sub-pages. *)
Lemma crawl_summary_sizes_witness :
  exists s st',
    crawl_site (RT := insertion_order) small_site "https://example.com" 6 start
      = (Returned s, st') /\
    (exists u, In u (cs_key_pages s) /\ fetched_html small_site u <> None) /\
    capped_lists (cs_signals s) /\
    capped_contact (cs_signals s).
Proof.
  eexists. eexists.
  match goal with
  | |- ?run /\ _ => assert (Hrun : run) by (vm_compute; reflexivity)
  end.
  match goal with
  | |- _ /\ ?sub /\ _ => assert (Hsub : sub)
  end.
  { exists "https://example.com/about". split; [right; left; reflexivity |].
    vm_compute. discriminate. }
  split; [exact Hrun |]. split; [exact Hsub |].
  pose proof (crawl_summary_sizes (RT := insertion_order) small_site _ _ _ _ _ Hrun)
    as (_ & Hlists & Hcontact).
  split; [exact Hlists | exact (Hcontact Hsub)].
Defined.

End ExamplePages.
(** * Further properties *)

(** ** Sorted lists of strings *)

Lemma str_lt_compare a b : str_lt a b <-> String.compare a b = Lt.
Proof.
  unfold str_lt, str_ltb. destruct (String.compare a b); split; congruence.
Qed.

Lemma str_lt_trans a b c : str_lt a b -> str_lt b c -> str_lt a c.
Proof.
  rewrite !str_lt_compare.
  exact (@RelationClasses.StrictOrder_Transitive _ _ OrdersEx.String_as_OT.lt_strorder a b c).
Qed.

Lemma str_lt_irrefl a : ~ str_lt a a.
Proof.
  rewrite str_lt_compare.
  exact (@RelationClasses.StrictOrder_Irreflexive _ _ OrdersEx.String_as_OT.lt_strorder a).
Qed.

Lemma str_lt_total a b : a = b \/ str_lt a b \/ str_lt b a.
Proof.
  rewrite !str_lt_compare.
  destruct (String.compare a b) eqn:Hc.
  - left. apply String.compare_eq_iff, Hc.
  - right. left. reflexivity.
  - right. right. rewrite String.compare_antisym, Hc. reflexivity.
Qed.

Lemma str_ltb_false_ge a b : str_ltb a b = false -> a = b \/ str_lt b a.
Proof.
  intros Hf. destruct (str_lt_total a b) as [H | [H | H]]; auto.
  unfold str_lt in H. congruence.
Qed.

Lemma insert_sorted_In x y l : In y (insert_sorted x l) <-> y = x \/ In y l.
Proof.
  induction l as [| z l IH]; cbn [insert_sorted].
  - cbn. intuition.
  - destruct (String.eqb_spec x z) as [-> | Hne].
    + cbn. intuition.
    + destruct (str_ltb x z).
      * cbn. intuition.
      * cbn [In]. rewrite IH. intuition.
Qed.

Lemma insert_sorted_increasing x l : increasing l -> increasing (insert_sorted x l).
Proof.
  unfold increasing. induction l as [| z l IH]; intros Hl; cbn [insert_sorted].
  - constructor; constructor.
  - apply Sorted.StronglySorted_inv in Hl. destruct Hl as [Hl Hz].
    destruct (String.eqb_spec x z) as [-> | Hne].
    + constructor; assumption.
    + destruct (str_ltb x z) eqn:Hlt.
      * constructor; [constructor; assumption |].
        constructor; [exact Hlt |].
        eapply List.Forall_impl; [| exact Hz].
        intros w Hw. exact (str_lt_trans _ _ _ Hlt Hw).
      * constructor; [apply IH, Hl |].
        apply List.Forall_forall. intros w Hw.
        apply insert_sorted_In in Hw. destruct Hw as [-> | Hw].
        -- destruct (str_ltb_false_ge _ _ Hlt) as [Heq | Hgt]; [contradiction | exact Hgt].
        -- rewrite List.Forall_forall in Hz. apply Hz, Hw.
Qed.


(** [sorted(set(l))] holds exactly the elements of [l], in increasing order
    and once each. *)
Lemma sorted_set_In x l : In x (sorted_set l) <-> In x l.
Proof.
  unfold sorted_set. induction l as [| y l IH]; cbn [fold_right].
  - reflexivity.
  - rewrite insert_sorted_In, IH. cbn. intuition.
Qed.

Lemma sorted_set_increasing l : increasing (sorted_set l).
Proof.
  unfold sorted_set. induction l as [| y l IH]; cbn [fold_right].
  - constructor.
  - apply insert_sorted_increasing, IH.
Qed.


Lemma increasing_NoDup l : increasing l -> NoDup l.
Proof.
  unfold increasing. induction 1 as [| a l Hl IH Ha]; constructor; [| exact IH].
  intros Hin. apply list_elem_of_In in Hin.
  rewrite List.Forall_forall in Ha. exact (str_lt_irrefl a (Ha a Hin)).
Qed.

(** Two increasing lists with the same elements are the same list. *)
Lemma increasing_unique l l' :
  increasing l -> increasing l' -> (forall x, In x l <-> In x l') -> l = l'.
Proof.
  unfold increasing. intros Hl. revert l'.
  induction Hl as [| a l Hl IH Ha]; intros l' Hl' Hsame.
  - destruct l' as [| b l']; [reflexivity |].
    exfalso. apply (Hsame b). left. reflexivity.
  - destruct Hl' as [| b l' Hl' Hb].
    + exfalso. apply (Hsame a). left. reflexivity.
    + rewrite List.Forall_forall in Ha, Hb.
      assert (Hab : a = b).
      { assert (Ha' : In a (b :: l')) by (apply Hsame; left; reflexivity).
        assert (Hb' : In b (a :: l)) by (apply Hsame; left; reflexivity).
        destruct Ha' as [Heq | Ha']; [congruence |].
        destruct Hb' as [Heq | Hb']; [congruence |].
        exfalso. apply (str_lt_irrefl a).
        exact (str_lt_trans _ _ _ (Ha b Hb') (Hb a Ha')). }
      subst b. f_equal. apply IH; [exact Hl' |].
      intros x. split; intros Hx.
      * assert (Hx' : In x (a :: l')) by (apply Hsame; right; exact Hx).
        destruct Hx' as [<- | Hx']; [| exact Hx'].
        exfalso. exact (str_lt_irrefl a (Ha a Hx)).
      * assert (Hx' : In x (a :: l)) by (apply Hsame; right; exact Hx).
        destruct Hx' as [<- | Hx']; [| exact Hx'].
        exfalso. exact (str_lt_irrefl a (Hb a Hx)).
Qed.

Lemma sorted_set_same_members l l' :
  (forall x, In x l <-> In x l') -> sorted_set l = sorted_set l'.
Proof.
  intros Hsame. apply increasing_unique; try apply sorted_set_increasing.
  intros x. rewrite !sorted_set_In. apply Hsame.
Qed.

Lemma take_In {A} (x : A) n (l : list A) : In x (take n l) -> In x l.
Proof.
  revert n. induction l as [| y l IH]; intros [| n]; cbn; try tauto.
  intros [H | H]; [left; exact H | right; exact (IH n H)].
Qed.

Lemma increasing_take n l : increasing l -> increasing (take n l).
Proof.
  unfold increasing. intros Hl. revert n.
  induction Hl as [| a l Hl IH Ha]; intros [| n]; cbn [take]; try constructor.
  - apply IH.
  - rewrite List.Forall_forall in *. intros x Hx. apply Ha.
    exact (take_In _ _ _ Hx).
Qed.
(** ** More on link discovery *)

Lemma first_seen_In u urls found :
  In u (first_seen urls found) <-> In u found \/ In u urls.
Proof.
  revert found. induction urls as [| v urls IH]; intros found.
  - cbn. tauto.
  - unfold first_seen. cbn [fold_left]. fold (first_seen urls (set_add v found)).
    rewrite IH. unfold set_add. destruct (mem v found) eqn:Hm.
    + apply mem_In in Hm. cbn [In]. split; [tauto |].
      intros [H | [<- | H]]; auto.
    + rewrite in_app_iff. cbn [In]. tauto.
Qed.

Lemma first_seen_length urls found :
  (length (first_seen urls found) <= length found + length urls)%nat.
Proof.
  revert found. induction urls as [| v urls IH]; intros found.
  - cbn. lia.
  - unfold first_seen. cbn [fold_left]. fold (first_seen urls (set_add v found)).
    pose proof (IH (set_add v found)). pose proof (set_add_length v found).
    cbn [length]. lia.
Qed.

Section MoreLinkDiscovery.
Context {RT : Runtime}.

(** What the tests of the loop body say about an anchor that contributes. *)
Lemma candidate_tests base_url a u :
  candidate base_url a = Some u ->
  u = urljoin base_url (strip (href a)) /\
  nonempty (strip (href a)) = true /\
  String.prefix "#" (strip (href a)) = false /\
  String.prefix "mailto:" (strip (href a)) = false /\
  String.prefix "tel:" (strip (href a)) = false /\
  str_in "javascript:" (strip (href a)) = false /\
  netloc (urlparse u) = netloc (urlparse base_url) /\
  SKIP_EXT_search (path (urlparse u)) = false /\
  (any_in TARGET_KEYWORDS
     (lower (if nonempty (anchor_text a) then anchor_text a else strip (href a)))
   || any_in TARGET_KEYWORDS (lower u)) = true.
Proof.
  unfold candidate. cbv zeta.
  destruct (nonempty (strip (href a))); cbn [negb orb]; [| discriminate].
  destruct (String.prefix "#" (strip (href a))); cbn [orb]; [discriminate |].
  destruct (String.prefix "mailto:" (strip (href a))); cbn [orb]; [discriminate |].
  destruct (String.prefix "tel:" (strip (href a))); cbn [orb]; [discriminate |].
  destruct (str_in "javascript:" (strip (href a))); [discriminate |].
  destruct (String.eqb_spec (netloc (urlparse (urljoin base_url (strip (href a)))))
                            (netloc (urlparse base_url))) as [Hnet | _];
    cbn [negb]; [| discriminate].
  destruct (SKIP_EXT_search _) eqn:Hskip; [discriminate |].
  destruct (_ || _) eqn:Hkw; [| discriminate].
  intros [= <-]. repeat split; try reflexivity; assumption.
Qed.

Lemma discovered_from_candidates html base_url u :
  In u (_discover_links html base_url) ->
  exists a, In a (anchors (BeautifulSoup html)) /\ candidate base_url a = Some u.
Proof.
  unfold _discover_links. intros Hin.
  apply (Permutation_in _ (set_list_perm _)) in Hin.
  rewrite discover_loop_first_seen in Hin by (cbn; lia).
  apply take_In, first_seen_In in Hin. destruct Hin as [[] | Hin].
  apply list_elem_of_In, list_elem_of_omap in Hin.
  destruct Hin as [a [Ha Hc]]. exists a. split; [apply list_elem_of_In, Ha | exact Hc].
Qed.

(** X1. No URL that [_discover_links] returns has a path that the blocked
    extensions pattern matches (pdf, jpg, jpeg, png, gif, zip, doc, docx). *)
Theorem discovered_links_skip_extensions (html base_url : string) :
  Forall (fun u => SKIP_EXT_search (path (urlparse u)) = false)
         (_discover_links html base_url).
Proof.
  apply List.Forall_forall. intros u Hu.
  destruct (discovered_from_candidates _ _ _ Hu) as [a [_ Hc]].
  apply candidate_tests in Hc. tauto.
Qed.

(** X2. Every URL that [_discover_links] returns is the resolution of the
    stripped [href] of some anchor of the page; that [href] is not empty,
    does not start with [#], [mailto:] or [tel:] and does not contain
    [javascript:]; and the anchor's lowercased text (its [href] when it has
    no text) or the lowercased URL contains one of the target keywords.
    When at most 6 anchors of the page pass these tests, the URL of each of
    them is returned. *)
Theorem discovered_links_come_from_matching_anchors (html base_url : string) :
  Forall (fun u =>
            exists a, In a (anchors (BeautifulSoup html)) /\
              u = urljoin base_url (strip (href a)) /\
              nonempty (strip (href a)) = true /\
              String.prefix "#" (strip (href a)) = false /\
              String.prefix "mailto:" (strip (href a)) = false /\
              String.prefix "tel:" (strip (href a)) = false /\
              str_in "javascript:" (strip (href a)) = false /\
              (any_in TARGET_KEYWORDS
                 (lower (if nonempty (anchor_text a) then anchor_text a
                         else strip (href a)))
               || any_in TARGET_KEYWORDS (lower u)) = true)
         (_discover_links html base_url) /\
  ((length (omap (candidate base_url) (anchors (BeautifulSoup html))) <= 6)%nat ->
   forall a u, In a (anchors (BeautifulSoup html)) -> candidate base_url a = Some u ->
     In u (_discover_links html base_url)).
Proof.
  split.
  - apply List.Forall_forall. intros u Hu.
    destruct (discovered_from_candidates _ _ _ Hu) as [a [Ha Hc]].
    exists a. apply candidate_tests in Hc. tauto.
  - intros Hfew a u Ha Hc. unfold _discover_links.
    apply (Permutation_in _ (Permutation_sym (set_list_perm _))).
    rewrite discover_loop_first_seen by (cbn; lia).
    rewrite take_ge.
    + apply first_seen_In. right.
      apply list_elem_of_In, list_elem_of_omap. exists a.
      split; [apply list_elem_of_In, Ha | exact Hc].
    + pose proof (first_seen_length
                    (omap (candidate base_url) (anchors (BeautifulSoup html))) []).
      cbn [length] in *. lia.
Qed.

End MoreLinkDiscovery.
(** ** More on signal extraction *)

Lemma filter_sublist {A} (f : A -> bool) (l : list A) : List.filter f l `sublist_of` l.
Proof.
  induction l as [| x l IH]; cbn [List.filter]; [constructor |].
  destruct (f x); [apply sublist_skip | apply sublist_cons]; exact IH.
Qed.

Lemma fold_max_nonneg (l : list Z) : (0 <= fold_left Z.max l 0)%Z.
Proof. apply fold_max_ge. Qed.

Section MoreExtraction.
Context {RT : Runtime}.

(** The pricing loop appends, in order, items that pass its test. *)
Lemma pricing_loop_spec items acc :
  exists sub,
    pricing_loop items acc = (acc ++ sub)%list /\
    sub `sublist_of` items /\
    Forall (fun t => is_pricing_item t = true) sub.
Proof.
  revert acc. induction items as [| t rest IH]; intros acc.
  - exists []. cbn. rewrite app_nil_r. repeat split; constructor.
  - cbn [pricing_loop]. fold (is_pricing_item t).
    destruct (is_pricing_item t) eqn:Ht.
    + cbv zeta. destruct (10 <=? length (acc ++ [t]))%nat.
      * exists [t]. repeat split.
        -- apply sublist_skip, sublist_nil_l.
        -- constructor; [exact Ht | constructor].
      * destruct (IH (acc ++ [t])%list) as (sub & Heq & Hsub & Hall).
        exists (t :: sub). rewrite Heq, <- app_assoc. repeat split.
        -- apply sublist_skip, Hsub.
        -- constructor; assumption.
    + destruct (IH acc) as (sub & Heq & Hsub & Hall).
      exists sub. repeat split; [exact Heq | apply sublist_cons, Hsub | exact Hall].
Qed.

(** X3. The e-mail addresses and the phone numbers of a page are exactly the
    matches of their pattern in the page's text, each listed once, in
    increasing order. *)
Theorem page_contacts_sorted_distinct (html base_url : string) :
  let s := _extract_signals html base_url in
  let text := soup_text (BeautifulSoup html) in
  increasing (emails (contact s)) /\
  increasing (phones (contact s)) /\
  (forall e, In e (emails (contact s)) <-> In e (findall email_re text)) /\
  (forall p, In p (phones (contact s)) <-> In p (phone_findall text)) /\
  NoDup (emails (contact s)) /\ NoDup (phones (contact s)).
Proof.
  cbv zeta. unfold _extract_signals. cbn [contact emails phones].
  unfold _extract_emails, _extract_phones.
  repeat split; try apply sorted_set_increasing;
    try apply sorted_set_In; apply increasing_NoDup, sorted_set_increasing.
Qed.

(** X4. [products_services] and [pricing] keep the order of the page: each
    is a sub-sequence of the texts of the [li] elements.  Every product or
    service has 2 to 10 words, and every pricing entry passes both tests of
    the pricing loop. *)
Theorem list_items_kept_in_order (html base_url : string) :
  let s := _extract_signals html base_url in
  let items := list_items (BeautifulSoup html) in
  products_services s `sublist_of` items /\
  Forall (fun t => (2 <= length (split t) <= 10)%nat) (products_services s) /\
  pricing s `sublist_of` items /\
  Forall (fun t => is_pricing_item t = true) (pricing s).
Proof.
  cbv zeta. unfold _extract_signals. cbn [products_services pricing].
  split; [| split].
  - etransitivity; [apply sublist_take | apply filter_sublist].
  - apply List.Forall_forall. intros t Ht.
    apply take_In, filter_In in Ht. destruct Ht as [_ Ht].
    unfold words_between in Ht. apply andb_prop in Ht. destruct Ht as [H2 H10].
    apply Nat.leb_le in H2. apply Nat.leb_le in H10. lia.
  - destruct (pricing_loop_spec (list_items (BeautifulSoup html)) [])
      as (sub & -> & Hsub & Hall).
    cbn [app]. split; assumption.
Qed.

(** A bucket of a page holds the labels of those of its patterns that
    occur in the page's scripts and links. *)
Lemma tech_of_lookup blob bucket arr :
  tech_of blob !! bucket = Some arr ->
  exists patterns,
    In (bucket, patterns) TECH_PATTERNS /\
    arr = map tech_label (List.filter (fun patt => tech_search patt blob) patterns).
Proof.
  unfold tech_of. intros Harr.
  apply elem_of_list_to_map_2, list_elem_of_In, in_map_iff in Harr.
  destruct Harr as [[b patterns] [Heq Hin]]. inversion Heq; subst; clear Heq.
  exists patterns. split; [exact Hin | reflexivity].
Qed.

Lemma tech_labels_In bucket patterns patt :
  In (bucket, patterns) TECH_PATTERNS -> In patt patterns ->
  In (tech_label patt) (tech_labels bucket).
Proof.
  intros Hentry Hpatt. unfold tech_labels.
  apply in_concat. exists (map tech_label patterns). split.
  - apply in_map_iff. exists (bucket, patterns). cbn [fst snd].
    rewrite String.eqb_refl. split; [reflexivity | exact Hentry].
  - apply in_map, Hpatt.
Qed.

(** A page has the five technology buckets, and a bucket holds labels of
    its own patterns only. *)
Lemma tech_of_buckets blob bucket :
  (is_Some (tech_of blob !! bucket) <-> In bucket tech_buckets) /\
  (forall arr label,
     tech_of blob !! bucket = Some arr -> In label arr -> In label (tech_labels bucket)).
Proof.
  split.
  - split.
    + intros [arr Harr]. destruct (tech_of_lookup _ _ _ Harr) as [patterns [Hin _]].
      unfold tech_buckets. apply in_map_iff. exists (bucket, patterns). auto.
    + intros Hin. unfold tech_buckets in Hin. cbn in Hin.
      repeat destruct Hin as [Hin | Hin]; try contradiction; subst bucket;
        unfold tech_of; cbn [map TECH_PATTERNS list_to_map foldr uncurry];
        eexists; simplify_map_eq; reflexivity.
  - intros arr label Harr Hlabel.
    destruct (tech_of_lookup _ _ _ Harr) as [patterns [Hin ->]].
    apply in_map_iff in Hlabel. destruct Hlabel as [patt [<- Hpatt]].
    apply filter_In in Hpatt. destruct Hpatt as [Hpatt _].
    exact (tech_labels_In _ _ _ Hin Hpatt).
Qed.

(** X5. The number of open roles of a page is never negative, and neither
    is the number left by merging any sub-pages into it. *)
Theorem open_roles_count_nonnegative (html base_url : string)
  (pages : list (option (string * string))) :
  (0 <= open_roles_count (_extract_signals html base_url))%Z /\
  (0 <= open_roles_count (merge_pages base_url pages (_extract_signals html base_url)))%Z.
Proof.
  assert (Hroot : (0 <= open_roles_count (_extract_signals html base_url))%Z).
  { unfold _extract_signals. cbn [open_roles_count]. apply fold_max_nonneg. }
  split; [exact Hroot |].
  rewrite merge_pages_fold.
  destruct (fold_merge_flags (page_signals base_url pages)
                             (_extract_signals html base_url)) as (_ & _ & _ & Hr).
  cbn zeta in Hr. rewrite Hr.
  pose proof (fold_max_ge (map open_roles_count (page_signals base_url pages))
                          (open_roles_count (_extract_signals html base_url))) as [Hge _].
  lia.
Qed.

End MoreExtraction.
(** ** More on the merge *)

Lemma merge_lists_increasing a b : increasing (merge_lists a b).
Proof. unfold merge_lists. apply increasing_take, sorted_set_increasing. Qed.

Lemma merge_lists_In x a b : In x (merge_lists a b) -> In x a \/ In x b.
Proof.
  unfold merge_lists. intros H.
  apply take_In in H. apply (proj1 (sorted_set_In _ _)) in H.
  apply in_app_iff in H. exact H.
Qed.

(** Under the cap the union is kept whole. *)
Lemma merge_lists_under_cap a b :
  (length (sorted_set (a ++ b)) <= 40)%nat -> merge_lists a b = sorted_set (a ++ b).
Proof. intros H. unfold merge_lists. apply take_ge. exact H. Qed.

(** [sorted(set(l))] is no longer than [sorted(set(l'))] when every element
    of [l] is in [l']. *)
Lemma sorted_set_length_incl l l' :
  (forall x, In x l -> In x l') -> (length (sorted_set l) <= length (sorted_set l'))%nat.
Proof.
  intros Hincl. apply NoDup_incl_length.
  - apply NoDup_ListNoDup. apply increasing_NoDup. apply sorted_set_increasing.
  - intros x Hx. apply (proj2 (sorted_set_In _ _)).
    apply (proj1 (sorted_set_In _ _)) in Hx. auto.
Qed.

(** A field that [merge_signals] unions, through the whole merge. *)
Lemma fold_merge_field (f : Signals -> list string) :
  (forall a b, f (merge_signals a b) = merge_lists (f a) (f b)) ->
  forall subs root,
    (forall x, In x (f (fold_left merge_signals subs root)) ->
       In x (f root) \/ exists s, In s subs /\ In x (f s)) /\
    ((length (sorted_set (f root ++ concat (map f subs))) <= 40)%nat ->
     forall x, In x (f root) \/ (exists s, In s subs /\ In x (f s)) ->
       In x (f (fold_left merge_signals subs root))) /\
    (subs <> [] -> increasing (f (fold_left merge_signals subs root))).
Proof.
  intros Hf subs. induction subs as [| s2 subs IH]; intros root.
  - cbn [fold_left]. split; [auto | split; [| congruence]].
    intros _ x [H | [s [[] _]]]. exact H.
  - cbn [fold_left]. destruct (IH (merge_signals root s2)) as (Hfrom & Hkeep & Hsorted).
    split; [| split].
    + intros x Hx. destruct (Hfrom x Hx) as [H | [s [Hs H]]].
      * rewrite Hf in H. apply merge_lists_In in H. destruct H as [H | H]; [auto |].
        right. exists s2. split; [left; reflexivity | exact H].
      * right. exists s. split; [right; exact Hs | exact H].
    + intros Hcap x Hx. cbn [map concat] in Hcap.
      assert (Hstep : f (merge_signals root s2) = sorted_set (f root ++ f s2)).
      { rewrite Hf. apply merge_lists_under_cap.
        etransitivity; [| exact Hcap].
        apply sorted_set_length_incl. intros y. rewrite !in_app_iff. tauto. }
      apply Hkeep.
      * etransitivity; [| exact Hcap]. apply Nat.eq_le_incl. f_equal.
        apply sorted_set_same_members. intros y.
        rewrite Hstep, !in_app_iff, sorted_set_In, in_app_iff. tauto.
      * rewrite Hstep. destruct Hx as [Hx | [s [[<- | Hs] Hx]]].
        -- left. apply (proj2 (sorted_set_In _ _)), in_app_iff. auto.
        -- left. apply (proj2 (sorted_set_In _ _)), in_app_iff. auto.
        -- right. exists s. auto.
    + intros _. destruct subs as [| s3 subs].
      * cbn [fold_left]. rewrite Hf. apply merge_lists_increasing.
      * apply Hsorted. discriminate.
Qed.

Lemma list_fields_merge :
  Forall (fun f => forall a b, f (merge_signals a b) = merge_lists (f a) (f b)) list_fields.
Proof. unfold list_fields. repeat constructor. Qed.

Section MoreMerging.
Context {RT : Runtime}.

(** X6. For each of the six list-valued fields that the merge unions (value
    propositions, products and services, pricing, languages, e-mail
    addresses, phone numbers): every entry of the merged field comes from
    the root page or from a merged sub-page; when the root page and the
    sub-pages hold at most 40 different entries between them, none is lost;
    and once a sub-page has been merged the field is in increasing order,
    without repetition. *)
Theorem merged_fields_union (base : string) (pages : list (option (string * string)))
  (root : Signals) :
  let subs := page_signals base pages in
  let merged := merge_pages base pages root in
  Forall (fun f : Signals -> list string =>
            (forall x, In x (f merged) ->
               In x (f root) \/ exists s, In s subs /\ In x (f s)) /\
            ((length (sorted_set (f root ++ concat (map f subs))) <= 40)%nat ->
             forall x, In x (f root) \/ (exists s, In s subs /\ In x (f s)) ->
               In x (f merged)) /\
            (subs <> [] -> increasing (f merged)))
         list_fields.
Proof.
  cbv zeta. rewrite merge_pages_fold.
  eapply List.Forall_impl; [| exact list_fields_merge].
  intros f Hf. exact (fold_merge_field f Hf (page_signals base pages) root).
Qed.

(** What the merge never touches. *)
Lemma fold_merge_frame subs root :
  let merged := fold_left merge_signals subs root in
  title merged = title root /\
  meta_description merged = meta_description root /\
  industry_candidates merged = industry_candidates root /\
  address (contact merged) = address (contact root) /\
  hiring merged = hiring root.
Proof.
  revert root. induction subs as [| s2 subs IH]; intros root.
  - cbn. repeat split; reflexivity.
  - cbn [fold_left]. destruct (IH (merge_signals root s2)) as (Ht & Hm & Hi & Ha & Hh).
    cbv zeta. rewrite Ht, Hm, Hi, Ha, Hh. repeat split; reflexivity.
Qed.

Lemma flags_of_permuted (subs subs' : list Signals) (f : Signals -> bool) :
  Permutation subs subs' -> existsb f subs = existsb f subs'.
Proof.
  induction 1 as [| x l l' _ IH | x y l | l l' l'' _ IH1 _ IH2]; cbn [existsb].
  - reflexivity.
  - rewrite IH. reflexivity.
  - destruct (f x), (f y); reflexivity.
  - congruence.
Qed.

Lemma fold_max_permuted (l l' : list Z) (x : Z) :
  Permutation l l' -> fold_left Z.max l x = fold_left Z.max l' x.
Proof.
  intros Hp. revert x.
  induction Hp as [| y l l' _ IH | y z l | l l' l'' _ IH1 _ IH2]; intros x;
    cbn [fold_left].
  - reflexivity.
  - apply IH.
  - f_equal. lia.
  - rewrite IH1. apply IH2.
Qed.

(** X7. The merged flags and the merged number of open roles do not depend
    on the order in which the sub-pages are merged. *)
Theorem merged_flags_ignore_page_order (base : string)
  (pages pages' : list (option (string * string))) (root : Signals) :
  Permutation pages pages' ->
  has_case_studies (merge_pages base pages root)
    = has_case_studies (merge_pages base pages' root) /\
  has_testimonials (merge_pages base pages root)
    = has_testimonials (merge_pages base pages' root) /\
  has_careers_page (merge_pages base pages root)
    = has_careers_page (merge_pages base pages' root) /\
  open_roles_count (merge_pages base pages root)
    = open_roles_count (merge_pages base pages' root).
Proof.
  intros Hp.
  assert (Hsubs : Permutation (page_signals base pages) (page_signals base pages')).
  { unfold page_signals. apply omap_Permutation, Hp. }
  rewrite !merge_pages_fold.
  destruct (fold_merge_flags (page_signals base pages) root) as (Hc & Ht & Hcp & Hr).
  destruct (fold_merge_flags (page_signals base pages') root) as (Hc' & Ht' & Hcp' & Hr').
  cbv zeta in *. rewrite Hc, Ht, Hcp, Hr, Hc', Ht', Hcp', Hr'.
  rewrite !(flags_of_permuted _ _ _ Hsubs).
  rewrite (fold_max_permuted _ _ _ (Permutation_map open_roles_count Hsubs)).
  repeat split; reflexivity.
Qed.

(** The technology buckets through the merge. *)
Lemma merge_tech_buckets (t t2 : gmap string (list string)) :
  (forall bucket,
     (is_Some (t !! bucket) -> In bucket tech_buckets) /\
     (forall arr label, t !! bucket = Some arr -> In label arr ->
        In label (tech_labels bucket))) ->
  (forall bucket,
     (is_Some (t2 !! bucket) <-> In bucket tech_buckets) /\
     (forall arr label, t2 !! bucket = Some arr -> In label arr ->
        In label (tech_labels bucket))) ->
  forall bucket,
    (is_Some (merge_tech t t2 !! bucket) <-> In bucket tech_buckets) /\
    (forall arr label, merge_tech t t2 !! bucket = Some arr -> In label arr ->
       In label (tech_labels bucket)) /\
    (forall arr, merge_tech t t2 !! bucket = Some arr -> increasing arr).
Proof.
  intros Ht Ht2 bucket. rewrite merge_tech_lookup.
  destruct (Ht bucket) as [Hdom Hlab]. destruct (Ht2 bucket) as [Hdom2 Hlab2].
  destruct (t2 !! bucket) as [arr2 |] eqn:H2.
  - split; [| split].
    + split; [intros _; apply Hdom2; eauto | eauto].
    + intros arr label [= <-] Hin. apply merge_lists_In in Hin.
      destruct Hin as [Hin | Hin]; [| exact (Hlab2 arr2 label eq_refl Hin)].
      destruct (t !! bucket) as [arr1 |]; [| contradiction].
      exact (Hlab arr1 label eq_refl Hin).
    + intros arr [= <-]. apply merge_lists_increasing.
  - assert (Hout : ~ In bucket tech_buckets).
    { intros Hin. apply Hdom2 in Hin. destruct Hin as [? Hin]. discriminate. }
    split; [| split].
    + split; [intros Hs; exfalso; exact (Hout (Hdom Hs)) | intros Hin; contradiction].
    + intros arr label Harr. exfalso. apply Hout, Hdom. eauto.
    + intros arr Harr. exfalso. apply Hout, Hdom. eauto.
Qed.

Lemma extract_signals_buckets html base bucket :
  (is_Some (tech (_extract_signals html base) !! bucket) <-> In bucket tech_buckets) /\
  (forall arr label, tech (_extract_signals html base) !! bucket = Some arr ->
     In label arr -> In label (tech_labels bucket)).
Proof. unfold _extract_signals. cbn [tech]. apply tech_of_buckets. Qed.

Lemma merge_pages_buckets base pages root :
  (forall bucket,
     (is_Some (tech root !! bucket) <-> In bucket tech_buckets) /\
     (forall arr label, tech root !! bucket = Some arr -> In label arr ->
        In label (tech_labels bucket))) ->
  forall bucket,
    (is_Some (tech (merge_pages base pages root) !! bucket) <-> In bucket tech_buckets) /\
    (forall arr label, tech (merge_pages base pages root) !! bucket = Some arr ->
       In label arr -> In label (tech_labels bucket)) /\
    (page_signals base pages <> [] ->
     forall arr, tech (merge_pages base pages root) !! bucket = Some arr -> increasing arr).
Proof.
  revert root. induction pages as [| [[u h] |] rest IH]; intros root Hroot bucket.
  - cbn [merge_pages page_signals omap list_omap].
    destruct (Hroot bucket) as [Hdom Hlab]. split; [exact Hdom | split; [exact Hlab |]].
    congruence.
  - cbn [merge_pages].
    assert (Hstep : forall b,
              (is_Some (tech (merge_signals root (_extract_signals h base)) !! b)
               <-> In b tech_buckets) /\
              (forall arr label,
                 tech (merge_signals root (_extract_signals h base)) !! b = Some arr ->
                 In label arr -> In label (tech_labels b)) /\
              (forall arr,
                 tech (merge_signals root (_extract_signals h base)) !! b = Some arr ->
                 increasing arr)).
    { intros b. cbn [merge_signals tech]. apply merge_tech_buckets.
      - intros b'. destruct (Hroot b') as [Hd Hl]. split; [apply Hd | exact Hl].
      - intros b'. apply extract_signals_buckets. }
    destruct (IH (merge_signals root (_extract_signals h base))
                 (fun b => conj (proj1 (Hstep b)) (proj1 (proj2 (Hstep b)))) bucket)
      as (Hdom & Hlab & Hsorted).
    split; [exact Hdom | split; [exact Hlab |]].
    intros _ arr Harr.
    destruct (page_signals base rest) as [| s3 subs] eqn:Hrest.
    + assert (Hnone : merge_pages base rest (merge_signals root (_extract_signals h base))
                      = merge_signals root (_extract_signals h base)).
      { rewrite merge_pages_fold, Hrest. reflexivity. }
      rewrite Hnone in Harr. exact (proj2 (proj2 (Hstep bucket)) arr Harr).
    + apply Hsorted; [discriminate | exact Harr].
  - cbn [merge_pages page_signals omap list_omap]. apply IH, Hroot.
Qed.

End MoreMerging.
(** ** More on the robots cache and the orchestrator *)

Section MoreOrchestration.
Context {RT : Runtime}.
Variable env : Env.

(** X8. [allowed] asks for the robots.txt of an origin at most once: after
    a call the origin has its parser in the cache, the parsers of the other
    origins are as before, a call for an origin that is in the cache sends
    nothing and answers from the cached parser, and a call sends at most one
    request. *)
Theorem robots_fetched_once_per_origin (st : State) (url ua : string) :
  let st' := snd (allowed env st url ua) in
  is_Some (_cache st' !! origin url) /\
  (forall b, b <> origin url -> _cache st' !! b = _cache st !! b) /\
  (forall rp, _cache st !! origin url = Some rp ->
     st' = st /\ fst (allowed env st url ua) = can_fetch rp ua url) /\
  (forall url' ua', origin url' = origin url ->
     snd (allowed env st' url' ua') = st') /\
  (length (requests st') <= S (length (requests st)))%nat /\
  page_fetches st' = page_fetches st.
Proof.
  cbv zeta.
  assert (Hafter : is_Some (_cache (snd (allowed env st url ua)) !! origin url)).
  { destruct (_cache st !! origin url) as [rp |] eqn:Hc.
    - rewrite (allowed_cached _ _ _ _ _ Hc). cbn [snd]. eauto.
    - rewrite (allowed_miss _ _ _ _ Hc). cbn [snd _cache].
      rewrite lookup_insert_eq. eauto. }
  split; [exact Hafter |]. split; [| split; [| split; [| split]]].
  - intros b Hb. destruct (_cache st !! origin url) as [rp |] eqn:Hc.
    + rewrite (allowed_cached _ _ _ _ _ Hc). reflexivity.
    + rewrite (allowed_miss _ _ _ _ Hc). cbn [snd _cache].
      apply lookup_insert_ne. congruence.
  - intros rp Hc. rewrite (allowed_cached _ _ _ _ _ Hc). split; reflexivity.
  - intros url' ua' Horigin. destruct Hafter as [rp Hrp].
    rewrite <- Horigin in Hrp. rewrite (allowed_cached _ _ _ _ _ Hrp). reflexivity.
  - destruct (_cache st !! origin url) as [rp |] eqn:Hc.
    + rewrite (allowed_cached _ _ _ _ _ Hc). cbn [snd]. lia.
    + rewrite (allowed_miss _ _ _ _ Hc). cbn [snd requests].
      rewrite length_app. cbn [length]. lia.
  - apply allowed_page_fetches.
Qed.

(** The robots checks keep a sub-sequence of the links. *)
Lemma allowed_links_sublist links acc st :
  exists kept,
    fst (allowed_links env links acc st) = (acc ++ kept)%list /\
    kept `sublist_of` links.
Proof.
  revert acc st. induction links as [| u rest IH]; intros acc st.
  - exists []. cbn. rewrite app_nil_r. split; [reflexivity | constructor].
  - cbn [allowed_links]. destruct (allowed env st u DEFAULT_UA) as [ok st1].
    destruct (IH (if ok then (acc ++ [u])%list else acc) st1) as (kept & Heq & Hsub).
    destruct ok.
    + exists (u :: kept). rewrite Heq, <- app_assoc. split; [reflexivity |].
      apply sublist_skip, Hsub.
    + exists kept. split; [exact Heq | apply sublist_cons, Hsub].
Qed.

Lemma sublist_keeps_Forall {A} (P : A -> Prop) (l1 l2 : list A) :
  Forall P l2 -> l1 `sublist_of` l2 -> Forall P l1.
Proof.
  intros Hall Hsub. rewrite List.Forall_forall in *. intros x Hx.
  apply Hall, list_elem_of_In. apply list_elem_of_In in Hx.
  exact (elem_of_sublist _ _ _ Hx Hsub).
Qed.

Lemma slice_to_sublist {A} (l : list A) (n : Z) : slice_to l n `sublist_of` l.
Proof. unfold slice_to. destruct (n <? 0)%Z; apply sublist_take. Qed.

Lemma discover_links_distinct html base_url :
  NoDup (_discover_links html base_url) /\
  (length (_discover_links html base_url) <= 6)%nat.
Proof.
  unfold _discover_links.
  pose proof (set_list_perm (discover_loop base_url (anchors (BeautifulSoup html)) []))
    as Hperm.
  rewrite Hperm.
  rewrite discover_loop_first_seen by (cbn; lia). split.
  - eapply sublist_NoDup; [| apply sublist_take].
    apply first_seen_NoDup. constructor.
  - rewrite length_take. lia.
Qed.

(** The three ways a crawl can end. *)
Lemma crawl_site_blocked url max_pages st :
  fst (allowed env st url DEFAULT_UA) = false ->
  crawl_site env url max_pages st = (BlockedByRobots, snd (allowed env st url DEFAULT_UA)).
Proof.
  unfold crawl_site. cbv zeta.
  destruct (allowed env st url DEFAULT_UA) as [ok st1]. cbn [fst snd].
  intros ->. reflexivity.
Qed.

Lemma crawl_site_root_failed url max_pages st :
  fst (allowed env st url DEFAULT_UA) = true ->
  fetched_html env url = None ->
  crawl_site env url max_pages st
    = (RootFetchRaised, sent (PageRequest url) (snd (allowed env st url DEFAULT_UA))).
Proof.
  unfold crawl_site, _fetch. cbv zeta.
  destruct (allowed env st url DEFAULT_UA) as [ok st1]. cbn [fst snd].
  intros -> ->. reflexivity.
Qed.

Lemma crawl_site_returns url max_pages st html :
  fst (allowed env st url DEFAULT_UA) = true ->
  fetched_html env url = Some html ->
  exists s st', crawl_site env url max_pages st = (Returned s, st').
Proof.
  unfold crawl_site, _fetch. cbv zeta.
  destruct (allowed env st url DEFAULT_UA) as [ok st1]. cbn [fst snd].
  intros -> ->. cbn [negb].
  destruct (allowed_links env _ [] (sent (PageRequest url) st1)) as [links st3].
  destruct (gather env links st3) as [pages st4]. eauto.
Qed.

(** The fields of a summary that are computed from its signals. *)
Lemma crawl_site_summary_fields url max_pages st s st' :
  crawl_site env url max_pages st = (Returned s, st') ->
  cs_url s = url /\
  cs_title s = title (cs_signals s) /\
  cs_description s = meta_description (cs_signals s) /\
  cs_content_summary s = join " | " (take 6 (value_props (cs_signals s))) /\
  cs_scored s = _rule_score (cs_signals s) (_derive_features (cs_signals s)).
Proof.
  unfold crawl_site. cbv zeta.
  destruct (allowed env st url DEFAULT_UA) as [ok st1].
  destruct ok; cbn [negb]; [| discriminate].
  destruct (_fetch env st1 url) as [[[u html] |] st2]; [| discriminate].
  destruct (allowed_links env _ [] st2) as [links st3].
  destruct (gather env links st3) as [pages st4].
  intros [= <- <-]. cbn. repeat split; reflexivity.
Qed.


(** X10. Whatever the page budget, negative or huge, a crawl asks for at
    most 7 pages.  The key pages of a summary are a sub-sequence of the
    links discovered on the root page, cut to the budget: at most 6 URLs,
    all different, each with the network location of the root's origin. *)
Theorem crawl_site_at_most_seven_pages (url : string) (max_pages : Z) (st : State) :
  let out := crawl_site env url max_pages st in
  (page_fetches (snd out) <= page_fetches st + 7)%nat /\
  (forall s, fst out = Returned s ->
     (exists html,
        fetched_html env url = Some html /\
        cs_key_pages s `sublist_of` _discover_links html (origin url)) /\
     (length (cs_key_pages s) <= 6)%nat /\
     NoDup (cs_key_pages s) /\
     Forall (fun u => netloc (urlparse u) = netloc (urlparse (origin url)))
            (cs_key_pages s) /\
     page_fetches (snd out) = (page_fetches st + 1 + length (cs_key_pages s))%nat).
Proof.
  cbv zeta.
  assert (Hreturned : forall s st',
            crawl_site env url max_pages st = (Returned s, st') ->
            (exists html,
               fetched_html env url = Some html /\
               cs_key_pages s `sublist_of` _discover_links html (origin url)) /\
            page_fetches st' = (page_fetches st + 1 + length (cs_key_pages s))%nat).
  { intros s st' Hrun.
    destruct (crawl_site_returned _ _ _ _ _ _ Hrun)
      as (html & st1 & st3 & Hroot & Hhtml & Hlinks & _ & Hst' & _).
    split.
    - exists html. split; [exact Hhtml |].
      destruct (allowed_links_sublist
                  (slice_to (_discover_links html (origin url)) (max_pages - 1)) []
                  (sent (PageRequest url) st1)) as (kept & Heq & Hsub).
      rewrite Hlinks in Heq. cbn [fst app] in Heq. subst kept.
      etransitivity; [exact Hsub | apply slice_to_sublist].
    - pose proof (allowed_page_fetches env st url DEFAULT_UA) as Hpf1.
      rewrite Hroot in Hpf1. cbn [snd] in Hpf1.
      pose proof (allowed_links_spec env
                    (slice_to (_discover_links html (origin url)) (max_pages - 1)) []
                    (sent (PageRequest url) st1)) as [_ Hpf3].
      rewrite Hlinks in Hpf3. cbn [snd] in Hpf3.
      rewrite page_fetches_sent_page in Hpf3.
      pose proof (gather_spec env (cs_key_pages s) st3) as [_ Hpf4].
      rewrite <- Hst' in Hpf4. lia. }
  assert (Hkeys : forall s st',
            crawl_site env url max_pages st = (Returned s, st') ->
            (length (cs_key_pages s) <= 6)%nat /\
            NoDup (cs_key_pages s) /\
            Forall (fun u => netloc (urlparse u) = netloc (urlparse (origin url)))
                   (cs_key_pages s)).
  { intros s st' Hrun.
    destruct (Hreturned s st' Hrun) as [(html & _ & Hsub) _].
    destruct (discover_links_distinct html (origin url)) as [Hnd Hlen].
    split; [| split].
    - apply sublist_length in Hsub. lia.
    - exact (sublist_NoDup _ _ Hnd Hsub).
    - eapply sublist_keeps_Forall; [| exact Hsub].
      unfold _discover_links. eapply Permutation_Forall.
      + apply Permutation_sym, set_list_perm.
      + apply discover_loop_netloc. constructor. }
  destruct (crawl_site env url max_pages st) as [o st'] eqn:Hrun. cbn [fst snd].
  split.
  - destruct o as [| | s].
    + destruct (fst (allowed env st url DEFAULT_UA)) eqn:Hok.
      * destruct (fetched_html env url) as [html |] eqn:Hf.
        -- destruct (crawl_site_returns url max_pages st html Hok Hf) as (s & st2 & H).
           congruence.
        -- rewrite (crawl_site_root_failed _ _ _ Hok Hf) in Hrun. discriminate.
      * rewrite (crawl_site_blocked _ _ _ Hok) in Hrun.
        assert (Hst : st' = snd (allowed env st url DEFAULT_UA)) by congruence.
        rewrite Hst, allowed_page_fetches. lia.
    + destruct (fst (allowed env st url DEFAULT_UA)) eqn:Hok.
      * destruct (fetched_html env url) as [html |] eqn:Hf.
        -- destruct (crawl_site_returns url max_pages st html Hok Hf) as (s & st2 & H).
           congruence.
        -- rewrite (crawl_site_root_failed _ _ _ Hok Hf) in Hrun.
           assert (Hst : st' = sent (PageRequest url) (snd (allowed env st url DEFAULT_UA)))
             by congruence.
           rewrite Hst, page_fetches_sent_page, allowed_page_fetches. lia.
      * rewrite (crawl_site_blocked _ _ _ Hok) in Hrun. discriminate.
    + destruct (Hreturned s st' eq_refl) as [_ Hcount].
      destruct (Hkeys s st' eq_refl) as [Hlen _]. lia.
  - intros s ->. destruct (Hreturned s st' eq_refl) as [Hsub Hcount].
    destruct (Hkeys s st' eq_refl) as (Hlen & Hnd & Hnet).
    repeat split; assumption.
Qed.

(** X11. The summary that a crawl returns carries the rule score of its
    merged signals and of the features derived from them: the score is at
    most 35 and the band is "Poor fit".  Its title, description and content
    summary are read off the merged signals, the content summary being the
    first 6 value propositions joined by " | ". *)
Theorem crawl_summary_is_scored (url : string) (max_pages : Z) (st st' : State)
  (s : CrawlSummary) :
  crawl_site env url max_pages st = (Returned s, st') ->
  cs_scored s = _rule_score (cs_signals s) (_derive_features (cs_signals s)) /\
  (0 <= rule_score (cs_scored s) <= 35)%Z /\
  rule_band (cs_scored s) = "Poor fit" /\
  cs_url s = url /\
  cs_title s = title (cs_signals s) /\
  cs_description s = meta_description (cs_signals s) /\
  cs_content_summary s = join " | " (take 6 (value_props (cs_signals s))).
Proof.
  intros Hrun.
  destruct (crawl_site_summary_fields _ _ _ _ _ Hrun) as (Hurl & Ht & Hd & Hc & Hs).
  split; [exact Hs |].
  destruct (rule_score_unfold (cs_signals s) (_derive_features (cs_signals s)))
    as [Hscore Hband].
  pose proof (rule_total_range (cs_signals s) (_derive_features (cs_signals s))) as Hrange.
  rewrite Hs.
  assert (Hlow : (0 <= rule_score (_rule_score (cs_signals s)
                                     (_derive_features (cs_signals s))) <= 35)%Z).
  { rewrite Hscore. split.
    - apply normalise_range. lia.
    - apply normalise_low. lia. }
  split; [exact Hlow |].
  split; [rewrite Hband; apply band_of_thresholds; lia |].
  repeat split; assumption.
Qed.

(** X12. In a summary the title, the description, the industry candidates,
    the address and the [hiring] entry are those of the root page: the merge
    updates [has_careers_page] and [open_roles_count] but never the copy of
    them under [hiring]. *)
Theorem crawl_summary_keeps_root_fields (url : string) (max_pages : Z) (st st' : State)
  (s : CrawlSummary) :
  crawl_site env url max_pages st = (Returned s, st') ->
  exists html,
    fetched_html env url = Some html /\
    let root := _extract_signals html (origin url) in
    title (cs_signals s) = title root /\
    meta_description (cs_signals s) = meta_description root /\
    industry_candidates (cs_signals s) = [] /\
    address (contact (cs_signals s)) = None /\
    hiring (cs_signals s)
      = {| careers_page := has_careers_page root; open_roles := open_roles_count root |} /\
    (careers_page (hiring (cs_signals s)) = true -> has_careers_page (cs_signals s) = true) /\
    (open_roles (hiring (cs_signals s)) <= open_roles_count (cs_signals s))%Z.
Proof.
  intros Hrun.
  destruct (crawl_site_returned _ _ _ _ _ _ Hrun)
    as (html & st1 & st3 & _ & Hhtml & _ & Hsignals & _ & _).
  exists html. split; [exact Hhtml |]. cbv zeta.
  rewrite Hsignals, merge_pages_fold.
  set (subs := page_signals (origin url) (fst (gather env (cs_key_pages s) st3))).
  assert (Hroot : industry_candidates (_extract_signals html (origin url)) = [] /\
                  address (contact (_extract_signals html (origin url))) = None /\
                  hiring (_extract_signals html (origin url))
                    = {| careers_page := has_careers_page (_extract_signals html (origin url));
                         open_roles := open_roles_count (_extract_signals html (origin url)) |})
    by (repeat split; reflexivity).
  revert Hroot. generalize (_extract_signals html (origin url)). intros root (Hi0 & Ha0 & Hh0).
  destruct (fold_merge_frame subs root) as (Ht & Hm & Hi & Ha & Hh).
  destruct (fold_merge_flags subs root) as (_ & _ & Hcp & Hr).
  cbv zeta in Ht, Hm, Hi, Ha, Hh, Hcp, Hr.
  rewrite Ht, Hm, Hi, Ha, Hh, Hcp, Hr, Hi0, Ha0, Hh0.
  repeat split; try reflexivity.
  - cbn [careers_page]. intros ->. reflexivity.
  - cbn [open_roles]. apply (fold_max_ge (map open_roles_count subs)).
Qed.

(** X13. In a summary the technology map has the five buckets of
    [TECH_PATTERNS] and no other, and a bucket holds labels of its own
    patterns only.  Once a sub-page has been merged every list-valued field
    and every bucket is in increasing order, without repetition, so the
    content summary is made of the first 6 value propositions in that
    order. *)
Theorem crawl_summary_buckets_and_order (url : string) (max_pages : Z) (st st' : State)
  (s : CrawlSummary) :
  crawl_site env url max_pages st = (Returned s, st') ->
  (forall bucket,
     (is_Some (tech (cs_signals s) !! bucket) <-> In bucket tech_buckets) /\
     (forall arr label, tech (cs_signals s) !! bucket = Some arr -> In label arr ->
        In label (tech_labels bucket))) /\
  ((exists u, In u (cs_key_pages s) /\ fetched_html env u <> None) ->
   Forall (fun f : Signals -> list string => increasing (f (cs_signals s))) list_fields /\
   (forall bucket arr, tech (cs_signals s) !! bucket = Some arr -> increasing arr)).
Proof.
  intros Hrun.
  destruct (crawl_site_returned _ _ _ _ _ _ Hrun)
    as (html & st1 & st3 & _ & _ & _ & Hsignals & _ & _).
  pose proof (merge_pages_buckets (origin url) (fst (gather env (cs_key_pages s) st3))
                (_extract_signals html (origin url))
                (extract_signals_buckets html (origin url))) as Hbuckets.
  rewrite <- Hsignals in Hbuckets.
  split.
  - intros bucket. destruct (Hbuckets bucket) as (Hdom & Hlab & _). split; assumption.
  - intros [u [Hin Hfetched]].
    assert (Hsubs : page_signals (origin url) (fst (gather env (cs_key_pages s) st3)) <> []).
    { destruct (gather_spec env (cs_key_pages s) st3) as [-> _].
      clear - Hin Hfetched. induction (cs_key_pages s) as [| v rest IH]; [contradiction |].
      cbn [map page_signals omap list_omap].
      destruct (fetched_html env v) as [h |] eqn:Hv; [discriminate |].
      destruct Hin as [-> | Hin]; [congruence |]. apply IH, Hin. }
    split.
    + rewrite Hsignals, merge_pages_fold.
      eapply List.Forall_impl; [| exact list_fields_merge].
      intros f Hf.
      exact (proj2 (proj2 (fold_merge_field f Hf _ (_extract_signals html (origin url))))
                   Hsubs).
    + intros bucket arr Harr.
      destruct (Hbuckets bucket) as (_ & _ & Hsorted). exact (Hsorted Hsubs arr Harr).
Qed.

End MoreOrchestration.
(** ** More on the rule score and the derived features *)

Lemma normalise_monotone raw raw' :
  (0 <= raw <= raw')%Z -> (raw' <= 48)%Z -> (normalise raw <= normalise raw')%Z.
Proof.
  intros Hraw Hraw'.
  assert (H : forallb (fun n => (Z.of_nat n <? raw) || (normalise raw <=? normalise (Z.of_nat n)))%Z
                      (seq 0 49) = true).
  { assert (Hall : (fun r => forallb (fun n => (Z.of_nat n <? r)
                                              || (normalise r <=? normalise (Z.of_nat n)))%Z
                                     (seq 0 49)) raw = true).
    { apply (normalise_table
               (fun r => forallb (fun n => (Z.of_nat n <? r)
                                           || (normalise r <=? normalise (Z.of_nat n)))%Z
                                 (seq 0 49))).
      - vm_compute. reflexivity.
      - lia. }
    exact Hall. }
  rewrite forallb_forall in H. specialize (H (Z.to_nat raw')).
  rewrite Z2Nat.id in H by lia.
  assert (Hin : In (Z.to_nat raw') (seq 0 49)) by (apply in_seq; lia).
  apply H in Hin. apply orb_prop in Hin. lia.
Qed.

(** X14. The score that [_rule_score] computes in floating point is the
    exact quotient [100 * total / 48] rounded to the nearest integer, halves
    going to the even neighbour: the float arithmetic adds no error. *)
Theorem rule_score_is_exact_rounding (signals : Signals) (derived : Derived) :
  rule_score (_rule_score signals derived)
    = round_half_even_div (100 * rule_total signals derived) 48.
Proof.
  destruct (rule_score_unfold signals derived) as [-> _].
  pose proof (rule_total_range signals derived).
  apply normalise_exact. lia.
Qed.

(** X15. The score follows the total of the points: signals and features
    that earn at least as many points never get a lower score. *)
Theorem rule_score_monotone (signals signals' : Signals) (derived derived' : Derived) :
  (rule_total signals derived <= rule_total signals' derived')%Z ->
  (rule_score (_rule_score signals derived)
   <= rule_score (_rule_score signals' derived'))%Z.
Proof.
  intros Hle.
  destruct (rule_score_unfold signals derived) as [-> _].
  destruct (rule_score_unfold signals' derived') as [-> _].
  pose proof (rule_total_range signals derived).
  pose proof (rule_total_range signals' derived').
  apply normalise_monotone; lia.
Qed.

(** X16. The shortlist is never empty and never repeats a tag.  It holds
    "smb_ecom" exactly when an e-commerce technology was detected,
    "b2b_agency" exactly when [b2x] is "b2b", and "other" exactly when it
    holds nothing else. *)
Theorem shortlist_shape (signals : Signals) (derived : Derived) :
  let tags := shortlist (_rule_score signals derived) in
  tags <> [] /\
  NoDup tags /\
  Forall (fun t => In t ["solo_services"; "smb_ecom"; "b2b_agency"; "other"]) tags /\
  (In "smb_ecom" tags <-> tech_present signals "ecommerce" = true) /\
  (In "b2b_agency" tags <-> b2x derived = "b2b") /\
  (In "other" tags <-> tags = ["other"]).
Proof.
  cbv zeta. unfold _rule_score, shortlist_of. cbn [shortlist].
  destruct (String.eqb_spec (b2x derived) "b2b") as [Hb | Hb];
    destruct (String.eqb (company_size_guess derived) "solo");
    destruct (tech_present signals "ecommerce"); cbn;
    (split; [discriminate |]);
    (split; [apply NoDup_ListNoDup; repeat constructor; cbn; intuition discriminate |]);
    (split; [repeat constructor; tauto |]);
    repeat split; try discriminate; try tauto; try congruence;
    intuition (try discriminate; try congruence).
Qed.

Section MoreDerivedFeatures.
Context {RT : Runtime}.

(** X17. In the derived features [b2x] is "b2b", "b2c" or "unknown", a B2B
    term winning over a B2C term; the urgency is "1-3_months" exactly when
    there are open roles, and only then is there a trigger, which is
    "hiring_for_growth"; the buying process is "multi_step_process" exactly
    when the size guess is "51-200". *)
Theorem derived_features_consistent (signals : Signals) :
  let d := _derive_features signals in
  (b2x d = "b2b" \/ b2x d = "b2c" \/ b2x d = "unknown") /\
  (urgency_hint d = "1-3_months" <-> (0 < open_roles_count signals)%Z) /\
  (urgency_hint d = "3-6_months" <->
     (open_roles_count signals <= 0)%Z /\ has_case_studies signals = true) /\
  (triggers d = ["hiring_for_growth"] <-> (0 < open_roles_count signals)%Z) /\
  (triggers d = [] <-> (open_roles_count signals <= 0)%Z) /\
  (buying_process_guess d = "multi_step_process" <-> company_size_guess d = "51-200") /\
  (buying_process_guess d = "single_decision_maker" <-> company_size_guess d <> "51-200").
Proof.
  cbv zeta. unfold _derive_features.
  cbn [b2x urgency_hint triggers buying_process_guess company_size_guess].
  split.
  { destruct (any_in _ _); [auto |]. destruct (any_in _ _); auto. }
  destruct (Z.ltb_spec 0 (open_roles_count signals)) as [Hpos | Hnot].
  - cbn [String.eqb Ascii.eqb Bool.eqb].
    assert (Hsize : forall size : string,
              ((if String.eqb size "51-200" then "multi_step_process"
                else "single_decision_maker") = "multi_step_process" <-> size = "51-200") /\
              ((if String.eqb size "51-200" then "multi_step_process"
                else "single_decision_maker") = "single_decision_maker" <-> size <> "51-200")).
    { intros size. destruct (String.eqb_spec size "51-200"); split; split;
        intros; try congruence; try discriminate; try reflexivity. }
    repeat split; intros; try discriminate; try lia; try reflexivity;
      try (apply Hsize; assumption); try (destruct H; lia).
  - assert (Hsize : forall size : string,
              ((if String.eqb size "51-200" then "multi_step_process"
                else "single_decision_maker") = "multi_step_process" <-> size = "51-200") /\
              ((if String.eqb size "51-200" then "multi_step_process"
                else "single_decision_maker") = "single_decision_maker" <-> size <> "51-200")).
    { intros size. destruct (String.eqb_spec size "51-200"); split; split;
        intros; try congruence; try discriminate; try reflexivity. }
    destruct (has_case_studies signals); cbn [String.eqb Ascii.eqb Bool.eqb];
      repeat split; intros; try discriminate; try lia; try reflexivity;
      try (apply Hsize; assumption); try (destruct H; try lia; discriminate).
Qed.

End MoreDerivedFeatures.
(** ** The callers in [enrichment.py]: the relevant URLs *)


Lemma slice_to_In {A} (x : A) (l : list A) (n : Z) : In x (slice_to l n) -> In x l.
Proof. unfold slice_to. destruct (n <? 0)%Z; apply take_In. Qed.


Section RelevantUrls.
Context {RT : Runtime}.

(** The tests of the loop body that an anchor passes when its URL is added. *)
Lemma relevant_loop_members base max_pages tags found u :
  In u (relevant_loop base max_pages tags found) ->
  In u found \/
  exists a, In a tags /\
    u = urljoin base (strip (href a)) /\
    nonempty (strip (href a)) = true /\
    String.prefix "#" (strip (href a)) = false /\
    String.prefix "mailto:" (strip (href a)) = false /\
    String.prefix "tel:" (strip (href a)) = false /\
    str_in "javascript:" (strip (href a)) = false /\
    netloc (urlparse u) = netloc (urlparse base) /\
    (any_in CRAWL_KEYWORDS
       (lower (if nonempty (anchor_text a) then anchor_text a else strip (href a)))
     || any_in CRAWL_KEYWORDS (lower u)) = true.
Proof.
  revert found. induction tags as [| a rest IH]; intros found Hin.
  - left. exact Hin.
  - cbn [relevant_loop] in Hin.
    assert (Hrest : forall found',
               In u (relevant_loop base max_pages rest found') ->
               (In u found' -> In u found \/
                  exists a0, In a0 (a :: rest) /\
                    u = urljoin base (strip (href a0)) /\
                    nonempty (strip (href a0)) = true /\
                    String.prefix "#" (strip (href a0)) = false /\
                    String.prefix "mailto:" (strip (href a0)) = false /\
                    String.prefix "tel:" (strip (href a0)) = false /\
                    str_in "javascript:" (strip (href a0)) = false /\
                    netloc (urlparse u) = netloc (urlparse base) /\
                    (any_in CRAWL_KEYWORDS
                       (lower (if nonempty (anchor_text a0) then anchor_text a0
                               else strip (href a0)))
                     || any_in CRAWL_KEYWORDS (lower u)) = true) ->
               In u found \/
               exists a0, In a0 (a :: rest) /\
                 u = urljoin base (strip (href a0)) /\
                 nonempty (strip (href a0)) = true /\
                 String.prefix "#" (strip (href a0)) = false /\
                 String.prefix "mailto:" (strip (href a0)) = false /\
                 String.prefix "tel:" (strip (href a0)) = false /\
                 str_in "javascript:" (strip (href a0)) = false /\
                 netloc (urlparse u) = netloc (urlparse base) /\
                 (any_in CRAWL_KEYWORDS
                    (lower (if nonempty (anchor_text a0) then anchor_text a0
                            else strip (href a0)))
                  || any_in CRAWL_KEYWORDS (lower u)) = true).
    { intros found' Hin' Hfound'.
      destruct (IH found' Hin') as [Hf | (a0 & Ha0 & Hrest)]; [auto |].
      right. exists a0. split; [right; exact Ha0 | exact Hrest]. }
    destruct (nonempty (strip (href a))) eqn:Hne; cbn [negb orb] in Hin;
      [| apply (Hrest found Hin); auto].
    destruct (String.prefix "#" (strip (href a))) eqn:Hhash; cbn [orb] in Hin;
      [apply (Hrest found Hin); auto |].
    destruct (String.prefix "mailto:" (strip (href a))) eqn:Hmail; cbn [orb] in Hin;
      [apply (Hrest found Hin); auto |].
    destruct (String.prefix "tel:" (strip (href a))) eqn:Htel; cbn [orb] in Hin;
      [apply (Hrest found Hin); auto |].
    destruct (str_in "javascript:" (strip (href a))) eqn:Hjs;
      [apply (Hrest found Hin); auto |].
    cbv zeta in Hin.
    destruct (String.eqb_spec (netloc (urlparse (urljoin base (strip (href a)))))
                              (netloc (urlparse base))) as [Hnet | _];
      cbn [negb] in Hin; [| apply (Hrest found Hin); auto].
    destruct (any_in CRAWL_KEYWORDS
                (lower (if nonempty (anchor_text a) then anchor_text a else strip (href a)))
              || any_in CRAWL_KEYWORDS (lower (urljoin base (strip (href a))))) eqn:Hkw.
    + assert (Hadd : In u (set_add (urljoin base (strip (href a))) found) ->
                     In u found \/
                     exists a0, In a0 (a :: rest) /\
                       u = urljoin base (strip (href a0)) /\
                       nonempty (strip (href a0)) = true /\
                       String.prefix "#" (strip (href a0)) = false /\
                       String.prefix "mailto:" (strip (href a0)) = false /\
                       String.prefix "tel:" (strip (href a0)) = false /\
                       str_in "javascript:" (strip (href a0)) = false /\
                       netloc (urlparse u) = netloc (urlparse base) /\
                       (any_in CRAWL_KEYWORDS
                          (lower (if nonempty (anchor_text a0) then anchor_text a0
                                  else strip (href a0)))
                        || any_in CRAWL_KEYWORDS (lower u)) = true).
      { unfold set_add. destruct (mem _ found); [auto |].
        rewrite in_app_iff. intros [Hf | [<- | []]]; [auto |].
        right. exists a. split; [left; reflexivity |].
        repeat split; assumption. }
      destruct (max_pages - 1 <=? _)%Z; [apply Hadd, Hin |].
      apply (Hrest _ Hin). exact Hadd.
    + destruct (max_pages - 1 <=? _)%Z; [left; exact Hin |].
      apply (Hrest _ Hin). auto.
Qed.


(** The URLs after the home page, whatever the order in which the set is
    listed. *)
Lemma relevant_urls_unfold env home max_pages html listing :
  fetched_html env home = Some html ->
  Permutation listing
    (relevant_loop (scheme (urlparse home) ++ "://" ++ netloc (urlparse home)) max_pages
                   (anchors (BeautifulSoup html)) []) ->
  _discover_relevant_urls env home max_pages
    = home :: slice_to (sorted_set listing) (max_pages - 1).
Proof.
  intros Hfetch Hperm. unfold _discover_relevant_urls. rewrite Hfetch. cbv zeta.
  cbn [app]. f_equal. f_equal.
  apply sorted_set_same_members. intros x.
  rewrite <- !list_elem_of_In. rewrite (set_list_perm _), Hperm. reflexivity.
Qed.



(** X20. Every URL after the home URL is the join of the base with the
    stripped [href] of an anchor of the home page: an [href] that is not
    empty, is no fragment, mail or telephone link and holds no
    "javascript:", whose URL is on the host of the base, and whose text or
    URL holds one of [CRAWL_KEYWORDS]. *)
Theorem relevant_urls_come_from_matching_anchors (env : Env) (home html : string)
  (max_pages : Z) (u : string) :
  fetched_html env home = Some html ->
  In u (tail (_discover_relevant_urls env home max_pages)) ->
  exists a, In a (anchors (BeautifulSoup html)) /\
    u = urljoin (scheme (urlparse home) ++ "://" ++ netloc (urlparse home)) (strip (href a)) /\
    nonempty (strip (href a)) = true /\
    String.prefix "#" (strip (href a)) = false /\
    String.prefix "mailto:" (strip (href a)) = false /\
    String.prefix "tel:" (strip (href a)) = false /\
    str_in "javascript:" (strip (href a)) = false /\
    netloc (urlparse u)
      = netloc (urlparse (scheme (urlparse home) ++ "://" ++ netloc (urlparse home))) /\
    (any_in CRAWL_KEYWORDS
       (lower (if nonempty (anchor_text a) then anchor_text a else strip (href a)))
     || any_in CRAWL_KEYWORDS (lower u)) = true.
Proof.
  intros Hfetch Hu.
  rewrite (relevant_urls_unfold env home max_pages html _ Hfetch (Permutation_refl _)) in Hu.
  cbn [tail] in Hu.
  apply slice_to_In in Hu. apply (proj1 (sorted_set_In _ _)) in Hu.
  apply relevant_loop_members in Hu. destruct Hu as [[] | Hu]. exact Hu.
Qed.

(** X21. The result does not depend on the order in which the set of found
    URLs is listed: it is the home URL followed by the first [max_pages - 1]
    of the found URLs in increasing order, for any listing of them. *)
Theorem relevant_urls_ignore_set_order (env : Env) (home html : string) (max_pages : Z)
  (listing : list string) :
  fetched_html env home = Some html ->
  Permutation listing
    (relevant_loop (scheme (urlparse home) ++ "://" ++ netloc (urlparse home)) max_pages
                   (anchors (BeautifulSoup html)) []) ->
  _discover_relevant_urls env home max_pages
    = home :: slice_to (sorted_set listing) (max_pages - 1).
Proof.
  intros Hfetch Hperm. unfold _discover_relevant_urls. rewrite Hfetch. cbv zeta.
  cbn [app]. f_equal. f_equal.
  apply increasing_unique; [apply sorted_set_increasing | apply sorted_set_increasing |].
  intros x. rewrite !sorted_set_In, <- !list_elem_of_In.
  rewrite (set_list_perm _), Hperm. reflexivity.
Qed.

End RelevantUrls.
(** ** The callers in [enrichment.py]: [_ensure_list] *)

Lemma string_of_list_ascii_app l1 l2 :
  string_of_list_ascii (l1 ++ l2)%list
    = string_of_list_ascii l1 ++ string_of_list_ascii l2.
Proof.
  induction l1 as [| c l1 IH]; [reflexivity |].
  change (string_of_list_ascii ((c :: l1) ++ l2)%list)
    with (String c (string_of_list_ascii (l1 ++ l2)%list)).
  rewrite IH. reflexivity.
Qed.

Lemma append_empty_r (s : string) : s ++ "" = s.
Proof.
  induction s as [| c s IH]; [reflexivity |].
  change (String c s ++ "") with (String c (s ++ "")). rewrite IH. reflexivity.
Qed.

Lemma separator_free_reverse piece :
  separator_free piece = true -> separator_free (reverse piece) = true.
Proof.
  unfold separator_free, reverse. rewrite list_ascii_of_string_of_list_ascii.
  rewrite !forallb_forall. intros H c Hc. apply H. apply in_rev. exact Hc.
Qed.

(** No piece of the split holds a separator. *)
Lemma split_runs_separator_free s piece in_run :
  separator_free piece = true ->
  Forall (fun q => separator_free q = true) (split_runs s piece in_run).
Proof.
  revert piece in_run. induction s as [| c s IH]; intros piece in_run Hpiece.
  - cbn. repeat constructor. apply separator_free_reverse, Hpiece.
  - cbn [split_runs]. destruct (is_list_separator c) eqn:Hc.
    + destruct in_run.
      * apply IH. reflexivity.
      * constructor; [apply separator_free_reverse, Hpiece | apply IH; reflexivity].
    + apply IH. unfold separator_free. cbn [list_ascii_of_string forallb].
      rewrite Hc. exact Hpiece.
Qed.

(** Reading a piece, and reading a run of separators. *)
Lemma split_runs_piece p rest piece in_run :
  separator_free p = true -> p <> "" ->
  split_runs (p ++ rest) piece in_run
    = split_runs rest
        (string_of_list_ascii (rev (list_ascii_of_string p) ++ list_ascii_of_string piece)%list)
        false.
Proof.
  revert piece in_run. induction p as [| c p IH]; intros piece in_run Hfree Hne;
    [congruence |].
  unfold separator_free in Hfree. cbn [list_ascii_of_string forallb] in Hfree.
  apply andb_prop in Hfree. destruct Hfree as [Hc Hfree].
  apply negb_true_iff in Hc.
  change (String c p ++ rest) with (String c (p ++ rest)).
  cbn [split_runs]. rewrite Hc.
  destruct p as [| c' p].
  - change ("" ++ rest) with rest.
    cbn [list_ascii_of_string rev app string_of_list_ascii].
    rewrite string_of_list_ascii_of_string. reflexivity.
  - rewrite IH by (exact Hfree || discriminate).
    f_equal. f_equal.
    change (list_ascii_of_string (String c (String c' p)))
      with (c :: list_ascii_of_string (String c' p)).
    change (rev (c :: list_ascii_of_string (String c' p)))
      with (rev (list_ascii_of_string (String c' p)) ++ [c])%list.
    rewrite <- app_assoc. reflexivity.
Qed.

Lemma split_runs_separators sep rest piece in_run :
  all_separators sep = true -> sep <> "" ->
  split_runs (sep ++ rest) piece in_run
    = ((if in_run then [] else [reverse piece]) ++ split_runs rest "" true)%list.
Proof.
  revert piece in_run. induction sep as [| c sep IH]; intros piece in_run Hall Hne;
    [congruence |].
  unfold all_separators in Hall. cbn [list_ascii_of_string forallb] in Hall.
  apply andb_prop in Hall. destruct Hall as [Hc Hall].
  change (String c sep ++ rest) with (String c (sep ++ rest)).
  cbn [split_runs]. rewrite Hc.
  destruct sep as [| c' sep].
  - change ("" ++ rest) with rest. destruct in_run; reflexivity.
  - destruct in_run.
    + rewrite IH by (exact Hall || discriminate). reflexivity.
    + rewrite IH by (exact Hall || discriminate). reflexivity.
Qed.

(** Splitting what [join] wrote gives the items back. *)
Lemma split_runs_join sep l in_run :
  all_separators sep = true -> sep <> "" -> l <> [] ->
  Forall (fun p => p <> "" /\ separator_free p = true) l ->
  split_runs (join sep l) "" in_run = l.
Proof.
  intros Hall Hsep. revert in_run. induction l as [| p l IH]; intros in_run Hne Hl;
    [congruence |].
  apply List.Forall_cons_iff in Hl. destruct Hl as [[Hp Hfree] Hl].
  destruct l as [| q l].
  - cbn [join]. rewrite <- (append_empty_r p) at 1.
    rewrite split_runs_piece by assumption.
    cbn [split_runs list_ascii_of_string]. rewrite app_nil_r.
    unfold reverse. rewrite list_ascii_of_string_of_list_ascii, rev_involutive.
    rewrite string_of_list_ascii_of_string. reflexivity.
  - change (join sep (p :: q :: l)) with (p ++ sep ++ join sep (q :: l)).
    rewrite split_runs_piece by assumption.
    rewrite split_runs_separators by assumption.
    cbn [list_ascii_of_string app]. rewrite app_nil_r.
    unfold reverse at 1. rewrite list_ascii_of_string_of_list_ascii, rev_involutive.
    rewrite string_of_list_ascii_of_string.
    f_equal. apply IH; [discriminate | exact Hl].
Qed.

Section EnsureList.
Context {RT : Runtime}.

(** X22. [_ensure_list] hands a list back as it is, and only a list can come
    back empty: what it makes of a string is never empty, and each item is
    a non-empty stripped piece of the string that holds no comma, semicolon
    or line feed.  Nothing but a list or a string gives a list. *)
Theorem ensure_list_results (v : Value) (parts : list string) :
  _ensure_list v = Some parts ->
  v = VList parts \/
  exists s, v = VStr s /\ parts <> [] /\
    Forall (fun p => p <> "" /\
                     exists q, In q (re_split_list s) /\ separator_free q = true /\
                               p = strip q) parts.
Proof.
  destruct v as [| b | n | s | l]; cbn [_ensure_list]; try discriminate.
  - cbv zeta. destruct (truthy _) eqn:Htruthy; [| discriminate].
    intros [= <-]. right. exists s. split; [reflexivity |].
    split.
    + intros Hnil. rewrite Hnil in Htruthy. discriminate.
    + apply List.Forall_forall. intros p Hp.
      apply in_map_iff in Hp. destruct Hp as (q & <- & Hq).
      apply filter_In in Hq. destruct Hq as [Hq Hne].
      split.
      * intros Hempty. rewrite Hempty in Hne. discriminate.
      * exists q. split; [exact Hq |]. split; [| reflexivity].
        pose proof (split_runs_separator_free s "" false eq_refl) as Hall.
        rewrite List.Forall_forall in Hall. apply Hall. exact Hq.
  - intros [= <-]. left. reflexivity.
Qed.

(** X23. A round trip: items that are not empty, hold no separator and have
    no blank to strip, joined by a run of separators, are split back into
    the same items. *)
Theorem ensure_list_round_trip (sep : string) (items : list string) :
  all_separators sep = true -> sep <> "" -> items <> [] ->
  Forall (fun p => p <> "" /\ separator_free p = true /\ strip p = p) items ->
  _ensure_list (VStr (join sep items)) = Some items.
Proof.
  intros Hall Hsep Hne Hitems.
  cbn [_ensure_list]. cbv zeta. unfold re_split_list.
  rewrite (split_runs_join sep items false Hall Hsep Hne).
  2: { eapply List.Forall_impl; [| exact Hitems]. cbn. tauto. }
  assert (Hfilter : List.filter (fun p => nonempty (strip p)) items = items).
  { clear Hne. induction Hitems as [| p l (Hp & _ & Hstrip) _ IH]; [reflexivity |].
    cbn [List.filter]. rewrite Hstrip, IH. destruct p; [congruence | reflexivity]. }
  assert (Hmap : map strip items = items).
  { clear Hne Hfilter. induction Hitems as [| p l (_ & _ & Hstrip) _ IH]; [reflexivity |].
    cbn [map]. rewrite Hstrip, IH. reflexivity. }
  rewrite Hfilter, Hmap. destruct items; [congruence | reflexivity].
Qed.

End EnsureList.
(** ** The callers in [enrichment.py]: the merge into the extracted data *)

Lemma default_Some {A} (d x : A) : default d (Some x) = x.
Proof. reflexivity. Qed.

Lemma dict_get_insert_eq (d : gmap string Value) k v : dict_get (<[k := v]> d) k = v.
Proof. unfold dict_get. rewrite lookup_insert_eq. reflexivity. Qed.

Lemma dict_get_insert_ne (d : gmap string Value) k k' v :
  k <> k' -> dict_get (<[k := v]> d) k' = dict_get d k'.
Proof. intros Hne. unfold dict_get. rewrite lookup_insert_ne by exact Hne. reflexivity. Qed.

Lemma dict_setdefault_lookup (d : gmap string Value) k v k' :
  dict_setdefault d k v !! k'
    = if String.eqb k k' then Some (default v (d !! k)) else d !! k'.
Proof.
  unfold dict_setdefault. destruct (String.eqb_spec k k') as [<- | Hne].
  - destruct (d !! k) eqn:Hk; [rewrite Hk; reflexivity |].
    rewrite lookup_insert_eq. reflexivity.
  - destruct (d !! k); [reflexivity |]. rewrite lookup_insert_ne by exact Hne. reflexivity.
Qed.

(** The first forty of an increasing list are the first forty of any
    increasing list between them and the whole. *)
Lemma take_increasing_between k (whole part : list string) :
  increasing whole -> increasing part ->
  (forall x, In x part -> In x whole) ->
  (forall x, In x (take k whole) -> In x part) ->
  take k part = take k whole.
Proof.
  revert whole part. induction k as [| k IH]; intros whole part Hw Hp Hsub Hsup;
    [reflexivity |].
  destruct whole as [| u whole].
  - destruct part as [| v part]; [reflexivity |]. destruct (Hsub v); left; reflexivity.
  - assert (Hu : In u part) by (apply Hsup; left; reflexivity).
    destruct part as [| v part]; [destruct Hu |].
    apply Sorted.StronglySorted_inv in Hw. destruct Hw as [Hw Hu_lt].
    apply Sorted.StronglySorted_inv in Hp. destruct Hp as [Hp Hv_lt].
    rewrite List.Forall_forall in Hu_lt, Hv_lt.
    assert (Huv : v = u).
    { destruct Hu as [Hu | Hu]; [exact Hu |].
      destruct (Hsub v (or_introl eq_refl)) as [Hv | Hv]; [congruence |].
      exfalso. apply (str_lt_irrefl u).
      apply (str_lt_trans u v u); [apply Hu_lt, Hv | apply Hv_lt, Hu]. }
    subst v. cbn [take]. f_equal. apply IH; [exact Hw | exact Hp | |].
    + intros x Hx. destruct (Hsub x (or_intror Hx)) as [<- | Hin]; [| exact Hin].
      exfalso. apply (str_lt_irrefl u). apply Hv_lt, Hx.
    + intros x Hx.
      destruct (Hsup x) as [<- | Hin]; [right; exact Hx | | exact Hin].
      exfalso. apply (str_lt_irrefl u). apply Hu_lt. apply (take_In _ _ _ Hx).
Qed.

(** Merging the same list in a second time changes nothing. *)
Lemma merge_lists_again a b : merge_lists (merge_lists a b) b = merge_lists a b.
Proof.
  unfold merge_lists at 1 3.
  apply take_increasing_between.
  - apply sorted_set_increasing.
  - apply sorted_set_increasing.
  - intros x Hx. apply (proj2 (sorted_set_In _ _)).
    apply (proj1 (sorted_set_In _ _)) in Hx. apply in_app_iff in Hx.
    destruct Hx as [Hx | Hx].
    + apply merge_lists_In in Hx. apply in_app_iff. exact Hx.
    + apply in_app_iff. right. exact Hx.
  - intros x Hx. apply (proj2 (sorted_set_In _ _)). apply in_app_iff. left. exact Hx.
Qed.

Section Merge.
Context {RT : Runtime}.

(** What each step of the merge leaves under a key. *)
Lemma merge_arrays_email d s :
  merge_arrays d s !! "email"
    = Some (VList (merge_lists (default [] (_ensure_list (dict_get d "email")))
                               (emails (contact s)))).
Proof.
  unfold merge_arrays. cbv zeta.
  rewrite !lookup_insert_ne by discriminate. rewrite lookup_insert_eq. reflexivity.
Qed.

Lemma merge_arrays_phone_number d s :
  merge_arrays d s !! "phone_number"
    = Some (VList (merge_lists (default [] (_ensure_list (dict_get d "phone_number")))
                               (phones (contact s)))).
Proof.
  unfold merge_arrays. cbv zeta.
  rewrite !lookup_insert_ne by discriminate. rewrite lookup_insert_eq.
  rewrite dict_get_insert_ne by discriminate. reflexivity.
Qed.

Lemma merge_arrays_tech_stack d s :
  merge_arrays d s !! "tech_stack"
    = Some (VList (merge_lists (default [] (_ensure_list (dict_get d "tech_stack")))
                               (tech_values (tech s)))).
Proof.
  unfold merge_arrays. cbv zeta.
  rewrite lookup_insert_eq.
  rewrite !dict_get_insert_ne by discriminate. reflexivity.
Qed.

Lemma merge_arrays_other d s k :
  k <> "email" -> k <> "phone_number" -> k <> "tech_stack" ->
  merge_arrays d s !! k = d !! k.
Proof.
  intros H1 H2 H3. unfold merge_arrays. cbv zeta.
  rewrite !lookup_insert_ne by congruence. reflexivity.
Qed.

Lemma fill_about_text_lookup d s k :
  fill_about_text d s !! k
    = if String.eqb k "about_text" && negb (truth (dict_get d "about_text"))
      then Some (VStr (about_text_of s)) else d !! k.
Proof.
  unfold fill_about_text. destruct (String.eqb_spec k "about_text") as [-> | Hne]; cbn [andb].
  - destruct (truth _); cbn [negb]; [reflexivity |]. apply lookup_insert_eq.
  - destruct (truth _); [reflexivity |]. apply lookup_insert_ne. congruence.
Qed.

Lemma fill_jobs_count_lookup d s k :
  fill_jobs_count d s !! k
    = if String.eqb k "jobs_count" && none_or_zero (dict_get d "jobs_count")
      then Some (VInt (open_roles_count s)) else d !! k.
Proof.
  unfold fill_jobs_count. destruct (String.eqb_spec k "jobs_count") as [-> | Hne]; cbn [andb].
  - destruct (none_or_zero _); [| reflexivity]. apply lookup_insert_eq.
  - destruct (none_or_zero _); [| reflexivity]. apply lookup_insert_ne. congruence.
Qed.

Lemma fill_website_domain_lookup d home k :
  fill_website_domain d home !! k
    = if String.eqb k "website_domain" && negb (truth (dict_get d "website_domain"))
      then Some (VStr home) else d !! k.
Proof.
  unfold fill_website_domain.
  destruct (String.eqb_spec k "website_domain") as [-> | Hne]; cbn [andb].
  - destruct (truth _); cbn [negb]; [reflexivity |]. apply lookup_insert_eq.
  - destruct (truth _); [reflexivity |]. apply lookup_insert_ne. congruence.
Qed.

Lemma guess_hq_lookup d home s k :
  guess_hq d home s !! k
    = if (String.eqb k "hq_city" || String.eqb k "hq_country")
         && (negb (truth (dict_get d "hq_city")) || negb (truth (dict_get d "hq_country")))
         && mentions_singapore home s
      then Some (default (VStr "Singapore") (d !! k)) else d !! k.
Proof.
  unfold guess_hq.
  destruct (negb (truth (dict_get d "hq_city")) || negb (truth (dict_get d "hq_country")));
    [| rewrite andb_false_r; reflexivity].
  destruct (mentions_singapore home s); [| rewrite andb_false_r; reflexivity].
  rewrite !andb_true_r. rewrite !dict_setdefault_lookup.
  destruct (String.eqb_spec k "hq_city") as [-> | Hcity]; cbn [orb].
  - reflexivity.
  - destruct (String.eqb_spec k "hq_country") as [-> | Hcountry].
    + reflexivity.
    + destruct (String.eqb_spec "hq_country" k) as [Heq | _]; [congruence |].
      destruct (String.eqb_spec "hq_city" k) as [Heq | _]; [congruence |]. reflexivity.
Qed.

(** The whole merge, key by key. *)
Lemma merge_summary_lookup d home s k :
  merge_summary d home s !! k =
    if String.eqb k "email" then
      Some (VList (merge_lists (default [] (_ensure_list (dict_get d "email")))
                               (emails (contact (cs_signals s)))))
    else if String.eqb k "phone_number" then
      Some (VList (merge_lists (default [] (_ensure_list (dict_get d "phone_number")))
                               (phones (contact (cs_signals s)))))
    else if String.eqb k "tech_stack" then
      Some (VList (merge_lists (default [] (_ensure_list (dict_get d "tech_stack")))
                               (tech_values (tech (cs_signals s)))))
    else if String.eqb k "about_text" && negb (truth (dict_get d "about_text")) then
      Some (VStr (about_text_of (cs_signals s)))
    else if String.eqb k "jobs_count" && none_or_zero (dict_get d "jobs_count") then
      Some (VInt (open_roles_count (cs_signals s)))
    else if (String.eqb k "hq_city" || String.eqb k "hq_country")
            && (negb (truth (dict_get d "hq_city")) || negb (truth (dict_get d "hq_country")))
            && mentions_singapore home (cs_signals s) then
      Some (default (VStr "Singapore") (d !! k))
    else if String.eqb k "website_domain" && negb (truth (dict_get d "website_domain")) then
      Some (VStr home)
    else d !! k.
Proof.
  assert (Hget : forall k', k' <> "email" -> k' <> "phone_number" -> k' <> "tech_stack" ->
                   dict_get (merge_arrays d (cs_signals s)) k' = dict_get d k').
  { intros k' H1 H2 H3. unfold dict_get. rewrite merge_arrays_other by assumption.
    reflexivity. }
  assert (Hget2 : forall k', k' <> "email" -> k' <> "phone_number" -> k' <> "tech_stack" ->
                    k' <> "about_text" ->
                    dict_get (fill_about_text (merge_arrays d (cs_signals s)) (cs_signals s)) k'
                      = dict_get d k').
  { intros k' H1 H2 H3 H4. unfold dict_get at 1. rewrite fill_about_text_lookup.
    destruct (String.eqb_spec k' "about_text"); [congruence |]. cbn [andb].
    apply Hget; assumption. }
  assert (Hget3 : forall k', k' <> "email" -> k' <> "phone_number" -> k' <> "tech_stack" ->
                    k' <> "about_text" -> k' <> "jobs_count" ->
                    dict_get (fill_jobs_count
                                (fill_about_text (merge_arrays d (cs_signals s)) (cs_signals s))
                                (cs_signals s)) k'
                      = dict_get d k').
  { intros k' H1 H2 H3 H4 H5. unfold dict_get at 1. rewrite fill_jobs_count_lookup.
    destruct (String.eqb_spec k' "jobs_count"); [congruence |]. cbn [andb].
    apply Hget2; assumption. }
  assert (Hget4 : dict_get (guess_hq
                              (fill_jobs_count
                                 (fill_about_text (merge_arrays d (cs_signals s)) (cs_signals s))
                                 (cs_signals s)) home (cs_signals s)) "website_domain"
                  = dict_get d "website_domain").
  { unfold dict_get at 1. rewrite guess_hq_lookup.
    cbn [String.eqb Ascii.eqb Bool.eqb orb andb].
    apply Hget3; discriminate. }
  unfold merge_summary. cbv zeta.
  rewrite fill_website_domain_lookup, Hget4.
  rewrite guess_hq_lookup, !Hget3 by discriminate.
  rewrite fill_jobs_count_lookup, Hget2 by discriminate.
  rewrite fill_about_text_lookup, Hget by discriminate.
  destruct (String.eqb_spec k "email") as [-> | He].
  { cbn [String.eqb Ascii.eqb Bool.eqb orb andb]. apply merge_arrays_email. }
  destruct (String.eqb_spec k "phone_number") as [-> | Hp].
  { cbn [String.eqb Ascii.eqb Bool.eqb orb andb]. apply merge_arrays_phone_number. }
  destruct (String.eqb_spec k "tech_stack") as [-> | Ht].
  { cbn [String.eqb Ascii.eqb Bool.eqb orb andb]. apply merge_arrays_tech_stack. }
  rewrite merge_arrays_other by assumption.
  destruct (String.eqb_spec k "about_text") as [-> | Ha].
  { cbn [String.eqb Ascii.eqb Bool.eqb orb andb].
    destruct (truth (dict_get d "about_text")); reflexivity. }
  cbn [andb].
  destruct (String.eqb_spec k "jobs_count") as [-> | Hj].
  { cbn [String.eqb Ascii.eqb Bool.eqb orb andb].
    destruct (none_or_zero (dict_get d "jobs_count")); reflexivity. }
  cbn [andb].
  destruct (String.eqb_spec k "website_domain") as [-> | Hw].
  { cbn [String.eqb Ascii.eqb Bool.eqb orb andb].
    destruct (truth (dict_get d "website_domain")); reflexivity. }
  cbn [andb]. reflexivity.
Qed.

Lemma merge_with_deterministic_cases env data home st :
  fst (_merge_with_deterministic env data home st) = data \/
  exists s st', crawl_site env home CRAWLER_MAX_PAGES st = (Returned s, st') /\
                fst (_merge_with_deterministic env data home st) = merge_summary data home s.
Proof.
  unfold _merge_with_deterministic.
  destruct (crawl_site env home CRAWLER_MAX_PAGES st) as [[| | s] st'] eqn:Hrun; cbn [fst];
    [left; reflexivity | left; reflexivity |].
  right. exists s, st'. split; reflexivity.
Qed.

Lemma merge_with_deterministic_returned env data home st s st' :
  crawl_site env home CRAWLER_MAX_PAGES st = (Returned s, st') ->
  _merge_with_deterministic env data home st = (merge_summary data home s, st').
Proof. intros Hrun. unfold _merge_with_deterministic. rewrite Hrun. reflexivity. Qed.

(** X24. The merge writes to no key but [email], [phone_number],
    [tech_stack], [about_text], [jobs_count], [hq_city], [hq_country] and
    [website_domain]: any other key holds afterwards what it held before, or
    is missing as before, whether the crawl returns or raises. *)
Theorem merge_spares_other_keys (env : Env) (data : gmap string Value) (home : string)
  (st : State) (key : string) :
  ~ In key merged_keys ->
  fst (_merge_with_deterministic env data home st) !! key = data !! key.
Proof.
  intros Hkey.
  destruct (merge_with_deterministic_cases env data home st) as [-> | (s & st' & _ & ->)];
    [reflexivity |].
  rewrite merge_summary_lookup.
  unfold merged_keys in Hkey. cbn [In] in Hkey.
  destruct (String.eqb_spec key "email"); [intuition congruence |].
  destruct (String.eqb_spec key "phone_number"); [intuition congruence |].
  destruct (String.eqb_spec key "tech_stack"); [intuition congruence |].
  destruct (String.eqb_spec key "about_text"); [intuition congruence |].
  destruct (String.eqb_spec key "jobs_count"); [intuition congruence |].
  destruct (String.eqb_spec key "hq_city"); [intuition congruence |].
  destruct (String.eqb_spec key "hq_country"); [intuition congruence |].
  destruct (String.eqb_spec key "website_domain"); [intuition congruence |].
  reflexivity.
Qed.

(** X25. After a crawl that returns, [email], [phone_number] and
    [tech_stack] each hold a list in increasing order without repetition of
    at most 40 strings, every one of them from the list that the key held
    (as [_ensure_list] reads it) or from the crawl; and nothing of the two
    is lost when their union has at most 40 strings. *)
Theorem merge_arrays_sorted_capped (env : Env) (data : gmap string Value) (home : string)
  (st st' : State) (s : CrawlSummary) (key : string) (found : list string) :
  crawl_site env home CRAWLER_MAX_PAGES st = (Returned s, st') ->
  In (key, found) [("email", emails (contact (cs_signals s)));
                   ("phone_number", phones (contact (cs_signals s)));
                   ("tech_stack", tech_values (tech (cs_signals s)))] ->
  let base := default [] (_ensure_list (dict_get data key)) in
  exists merged,
    fst (_merge_with_deterministic env data home st) !! key = Some (VList merged) /\
    increasing merged /\
    (length merged <= 40)%nat /\
    (forall x, In x merged -> In x base \/ In x found) /\
    ((length (sorted_set (base ++ found)) <= 40)%nat ->
     forall x, In x base \/ In x found -> In x merged).
Proof.
  intros Hrun Hkey base.
  rewrite (merge_with_deterministic_returned env data home st s st' Hrun). cbn [fst].
  exists (merge_lists base found).
  split.
  { rewrite merge_summary_lookup. subst base.
    destruct Hkey as [[= <- <-] | [[= <- <-] | [[= <- <-] | []]]]; reflexivity. }
  split; [apply merge_lists_increasing |].
  split; [unfold merge_lists; rewrite length_take; lia |].
  split; [intros x; apply merge_lists_In |].
  intros Hcap x Hx. rewrite merge_lists_under_cap by exact Hcap.
  apply (proj2 (sorted_set_In _ _)). apply in_app_iff. exact Hx.
Qed.

(** X26. The merge never replaces a value that is there: an [about_text]
    or [website_domain] that is truthy, a [jobs_count] that is neither
    [None] nor 0, and whatever an existing [hq_city] or [hq_country] key
    holds, be it [None] or an empty string, stay as they are. *)
Theorem merge_keeps_filled_fields (env : Env) (data : gmap string Value) (home : string)
  (st : State) :
  let data' := fst (_merge_with_deterministic env data home st) in
  (truth (dict_get data "about_text") = true ->
   data' !! "about_text" = data !! "about_text") /\
  (none_or_zero (dict_get data "jobs_count") = false ->
   data' !! "jobs_count" = data !! "jobs_count") /\
  (truth (dict_get data "website_domain") = true ->
   data' !! "website_domain" = data !! "website_domain") /\
  (forall v, data !! "hq_city" = Some v -> data' !! "hq_city" = Some v) /\
  (forall v, data !! "hq_country" = Some v -> data' !! "hq_country" = Some v).
Proof.
  cbv zeta.
  destruct (merge_with_deterministic_cases env data home st) as [-> | (s & st' & _ & ->)];
    [repeat split; auto |].
  rewrite !merge_summary_lookup. cbn [String.eqb Ascii.eqb Bool.eqb orb andb].
  repeat split.
  - intros ->. reflexivity.
  - intros ->. reflexivity.
  - intros ->. reflexivity.
  - intros v ->. destruct (_ && _); reflexivity.
  - intros v ->. destruct (_ && _); reflexivity.
Qed.

(** X27. After a crawl that returns, the six keys [email], [phone_number],
    [tech_stack], [about_text], [jobs_count] and [website_domain] are all
    present, [jobs_count] is not [None], and [website_domain] is truthy
    unless the home URL is empty. *)
Theorem merge_fills_missing_fields (env : Env) (data : gmap string Value) (home : string)
  (st st' : State) (s : CrawlSummary) :
  crawl_site env home CRAWLER_MAX_PAGES st = (Returned s, st') ->
  let data' := fst (_merge_with_deterministic env data home st) in
  Forall (fun key => is_Some (data' !! key))
         ["email"; "phone_number"; "tech_stack"; "about_text"; "jobs_count";
          "website_domain"] /\
  dict_get data' "jobs_count" <> VNone /\
  (home <> "" -> truth (dict_get data' "website_domain") = true).
Proof.
  intros Hrun. cbv zeta.
  rewrite (merge_with_deterministic_returned env data home st s st' Hrun). cbn [fst].
  split; [| split].
  - repeat constructor; rewrite merge_summary_lookup;
      cbn [String.eqb Ascii.eqb Bool.eqb orb andb]; try (eexists; reflexivity).
    + destruct (negb (truth (dict_get data "about_text"))) eqn:Hfilled;
        [eexists; reflexivity |].
      unfold dict_get in Hfilled. destruct (data !! "about_text"); [eexists; reflexivity |].
      discriminate.
    + destruct (none_or_zero (dict_get data "jobs_count")) eqn:Hfilled;
        [eexists; reflexivity |].
      unfold dict_get in Hfilled. destruct (data !! "jobs_count"); [eexists; reflexivity |].
      discriminate.
    + destruct (negb (truth (dict_get data "website_domain"))) eqn:Hfilled;
        [eexists; reflexivity |].
      unfold dict_get in Hfilled.
      destruct (data !! "website_domain"); [eexists; reflexivity |]. discriminate.
  - unfold dict_get at 1. rewrite merge_summary_lookup.
    cbn [String.eqb Ascii.eqb Bool.eqb orb andb].
    destruct (none_or_zero (dict_get data "jobs_count")) eqn:Hz; cbn [default];
      [discriminate |].
    intros Hnone. fold (dict_get data "jobs_count") in Hnone.
    rewrite Hnone in Hz. discriminate.
  - intros Hhome. unfold dict_get at 1. rewrite merge_summary_lookup.
    cbn [String.eqb Ascii.eqb Bool.eqb orb andb].
    destruct (truth (dict_get data "website_domain")) eqn:Ht; cbn [negb default].
    + exact Ht.
    + destruct home; [congruence | reflexivity].
Qed.

(** X28. Merging a second time changes nothing: when a second crawl finds
    the same signals, the data after the second merge are the data after
    the first. *)
Theorem merge_twice_changes_nothing (env : Env) (data : gmap string Value) (home : string)
  (st st1 st2 : State) (s s' : CrawlSummary) :
  crawl_site env home CRAWLER_MAX_PAGES st = (Returned s, st1) ->
  crawl_site env home CRAWLER_MAX_PAGES st1 = (Returned s', st2) ->
  cs_signals s' = cs_signals s ->
  fst (_merge_with_deterministic env
         (fst (_merge_with_deterministic env data home st)) home st1)
    = fst (_merge_with_deterministic env data home st).
Proof.
  intros Hrun Hrun' Hsame.
  rewrite (merge_with_deterministic_returned env data home st s st1 Hrun). cbn [fst].
  rewrite (merge_with_deterministic_returned env _ home st1 s' st2 Hrun'). cbn [fst].
  apply map_eq. intros k.
  rewrite (merge_summary_lookup (merge_summary data home s) home s' k).
  unfold dict_get. rewrite !(merge_summary_lookup data home s).
  cbn [String.eqb Ascii.eqb Bool.eqb orb andb]. rewrite Hsame.
  fold (dict_get data "email") (dict_get data "phone_number") (dict_get data "tech_stack")
       (dict_get data "about_text") (dict_get data "jobs_count")
       (dict_get data "hq_city") (dict_get data "hq_country")
       (dict_get data "website_domain").
  destruct (String.eqb_spec k "email") as [-> | He].
  { rewrite default_Some. cbn [_ensure_list]. rewrite default_Some, merge_lists_again.
    reflexivity. }
  destruct (String.eqb_spec k "phone_number") as [-> | Hp].
  { rewrite default_Some. cbn [_ensure_list]. rewrite default_Some, merge_lists_again.
    reflexivity. }
  destruct (String.eqb_spec k "tech_stack") as [-> | Ht].
  { rewrite default_Some. cbn [_ensure_list]. rewrite default_Some, merge_lists_again.
    reflexivity. }
  destruct (String.eqb_spec k "about_text") as [-> | Ha].
  { cbn [andb orb String.eqb Ascii.eqb Bool.eqb].
    destruct (truth (dict_get data "about_text")) eqn:Hta; cbn [negb].
    - fold (dict_get data "about_text"). rewrite Hta. reflexivity.
    - rewrite default_Some. destruct (negb (truth (VStr _))); reflexivity. }
  cbn [andb].
  destruct (String.eqb_spec k "jobs_count") as [-> | Hj].
  { cbn [andb orb String.eqb Ascii.eqb Bool.eqb].
    destruct (none_or_zero (dict_get data "jobs_count")) eqn:Hz.
    - rewrite default_Some. destruct (none_or_zero (VInt _)); reflexivity.
    - fold (dict_get data "jobs_count"). rewrite Hz. reflexivity. }
  cbn [andb].
  destruct (String.eqb_spec k "website_domain") as [-> | Hw].
  { cbn [andb orb String.eqb Ascii.eqb Bool.eqb].
    destruct (truth (dict_get data "website_domain")) eqn:Htw; cbn [negb].
    - fold (dict_get data "website_domain"). rewrite Htw. reflexivity.
    - rewrite default_Some. destruct (negb (truth (VStr _))); reflexivity. }
  cbn [andb].
  destruct (mentions_singapore home (cs_signals s)) eqn:Hsg;
    rewrite ?andb_false_r, ?andb_true_r; [| reflexivity].
  destruct (negb (truth (dict_get data "hq_city")) || negb (truth (dict_get data "hq_country")))
    eqn:Hcond; rewrite ?andb_true_r, ?andb_false_r.
  - destruct (String.eqb k "hq_city" || String.eqb k "hq_country"); cbn [andb];
      [| reflexivity].
    rewrite !default_Some.
    destruct (negb (truth (default (VStr "Singapore") (data !! "hq_city")))
              || negb (truth (default (VStr "Singapore") (data !! "hq_country"))));
      reflexivity.
  - fold (dict_get data "hq_city") (dict_get data "hq_country").
    rewrite Hcond. rewrite andb_false_r. reflexivity.
Qed.

End Merge.
(** ** The callers in [enrichment.py]: what is persisted of a summary *)

Lemma append_empty (a b : string) : a ++ b = "" -> a = "" /\ b = "".
Proof.
  destruct a as [| c a]; [intros H; split; [reflexivity | exact H] |].
  change (String c a ++ b) with (String c (a ++ b)). discriminate.
Qed.

(** A join that is empty is the join of no part or of one empty part. *)
Lemma join_empty sep parts :
  sep <> "" -> join sep parts = "" -> parts = [] \/ parts = [""].
Proof.
  intros Hsep Hjoin. destruct parts as [| p [| q rest]].
  - left. reflexivity.
  - right. cbn in Hjoin. rewrite Hjoin. reflexivity.
  - exfalso. change (join sep (p :: q :: rest)) with (p ++ sep ++ join sep (q :: rest)) in Hjoin.
    apply append_empty in Hjoin. destruct Hjoin as [_ Hjoin].
    apply append_empty in Hjoin. destruct Hjoin as [Hjoin _]. exact (Hsep Hjoin).
Qed.

Lemma tech_values_In (t : gmap string (list string)) label :
  In label (tech_values t) <-> exists bucket arr, t !! bucket = Some arr /\ In label arr.
Proof.
  unfold tech_values. rewrite in_concat. split.
  - intros (arr & Harr & Hlabel). apply in_map_iff in Harr.
    destruct Harr as ([bucket arr'] & <- & Hin).
    exists bucket, arr'. split; [| exact Hlabel].
    apply elem_of_map_to_list. apply list_elem_of_In. exact Hin.
  - intros (bucket & arr & Hlook & Hlabel). exists arr. split; [| exact Hlabel].
    apply in_map_iff. exists (bucket, arr). split; [reflexivity |].
    apply list_elem_of_In. apply elem_of_map_to_list. exact Hlook.
Qed.

Section Persisted.
Context {RT : Runtime}.

(** X29. Of a summary that a crawl returns, the [about_text] that is
    persisted is the content summary itself: the fallback that joins the
    value propositions with blanks never contributes.  The technology stack
    is in increasing order without repetition, has at most 25 labels, each
    of them from a bucket of the signals, and loses none when the buckets
    hold at most 25 different labels; the public e-mail addresses are the
    first 10 of the signals; the number of jobs is the number of open roles
    and is not negative; and the guessed city and country are both
    "Singapore" or both missing. *)
Theorem persisted_values_of_a_summary (env : Env) (url : string) (max_pages : Z)
  (st st' : State) (s : CrawlSummary) :
  crawl_site env url max_pages st = (Returned s, st') ->
  let legacy := legacy_of s url in
  legacy_about_text legacy = cs_content_summary s /\
  increasing (legacy_tech_stack legacy) /\
  (length (legacy_tech_stack legacy) <= 25)%nat /\
  (forall label, In label (legacy_tech_stack legacy) ->
     exists bucket arr, tech (cs_signals s) !! bucket = Some arr /\ In label arr) /\
  ((length (sorted_set (tech_values (tech (cs_signals s)))) <= 25)%nat ->
   forall bucket arr label, tech (cs_signals s) !! bucket = Some arr -> In label arr ->
     In label (legacy_tech_stack legacy)) /\
  legacy_public_emails legacy = take 10 (emails (contact (cs_signals s))) /\
  legacy_phone_number legacy = phones (contact (cs_signals s)) /\
  legacy_jobs_count legacy = open_roles_count (cs_signals s) /\
  (0 <= legacy_jobs_count legacy)%Z /\
  legacy_hq_city legacy = legacy_hq_country legacy /\
  (legacy_hq_city legacy = Some "Singapore" \/ legacy_hq_city legacy = None).
Proof.
  intros Hrun legacy.
  assert (Htech : legacy_tech_stack legacy
                  = take 25 (sorted_set (tech_values (tech (cs_signals s))))).
  { subst legacy. unfold legacy_of. cbv zeta.
    destruct (_guess_city_country (cs_signals s) url) as [city country].
    cbn [legacy_tech_stack].
    destruct (take 25 (sorted_set (tech_values (tech (cs_signals s))))); reflexivity. }
  assert (Hjobs : legacy_jobs_count legacy = open_roles_count (cs_signals s)).
  { subst legacy. unfold legacy_of. cbv zeta.
    destruct (_guess_city_country (cs_signals s) url) as [city country].
    cbn [legacy_jobs_count].
    destruct (Z.eqb_spec (open_roles_count (cs_signals s)) 0) as [-> | _]; reflexivity. }
  split.
  { destruct (crawl_site_summary_fields env url max_pages st s st' Hrun)
      as (_ & _ & _ & Hsummary & _).
    subst legacy. unfold legacy_of. cbv zeta.
    destruct (_guess_city_country (cs_signals s) url) as [city country].
    cbn [legacy_about_text].
    destruct (cs_content_summary s) as [| c rest] eqn:Hcs; cbn [nonempty]; [| reflexivity].
    symmetry in Hsummary.
    apply join_empty in Hsummary; [| discriminate].
    destruct Hsummary as [-> | ->]; reflexivity. }
  rewrite Htech.
  split; [apply increasing_take, sorted_set_increasing |].
  split; [rewrite length_take; lia |].
  split.
  { intros label Hlabel. apply take_In in Hlabel.
    apply (proj1 (sorted_set_In _ _)) in Hlabel.
    apply (proj1 (tech_values_In _ _)) in Hlabel. exact Hlabel. }
  split.
  { intros Hcap bucket arr label Hlook Hlabel.
    rewrite take_ge by exact Hcap.
    apply (proj2 (sorted_set_In _ _)). apply (proj2 (tech_values_In _ _)).
    exists bucket, arr. split; assumption. }
  split.
  { subst legacy. unfold legacy_of. cbv zeta.
    destruct (_guess_city_country (cs_signals s) url) as [city country].
    cbn [legacy_public_emails].
    destruct (take 10 (emails (contact (cs_signals s)))); reflexivity. }
  split.
  { subst legacy. unfold legacy_of. cbv zeta.
    destruct (_guess_city_country (cs_signals s) url) as [city country].
    reflexivity. }
  split; [exact Hjobs |].
  split.
  { rewrite Hjobs.
    destruct (crawl_site_returned env url max_pages st s st' Hrun)
      as (html & st1 & st3 & _ & _ & _ & Hsignals & _).
    rewrite Hsignals, merge_pages_fold.
    destruct (fold_merge_flags
                (page_signals (origin url) (fst (gather env (cs_key_pages s) st3)))
                (_extract_signals html (origin url))) as (_ & _ & _ & Hroles).
    cbv zeta in Hroles. rewrite Hroles.
    pose proof (fold_max_ge
                  (map open_roles_count
                       (page_signals (origin url) (fst (gather env (cs_key_pages s) st3))))
                  (open_roles_count (_extract_signals html (origin url)))) as [Hge _].
    assert (Hroot : (0 <= open_roles_count (_extract_signals html (origin url)))%Z).
    { unfold _extract_signals. cbn [open_roles_count]. apply fold_max_nonneg. }
    lia. }
  subst legacy. unfold legacy_of, _guess_city_country. cbv zeta.
  destruct (_ || _ || _); cbn [legacy_hq_city legacy_hq_country]; auto.
Qed.

(** X30. The two callers guess the same headquarters: when [data] has no
    [hq_city] key, the merge leaves under [hq_city] exactly the city that
    [_deterministic_crawl_and_persist] guesses for the same summary and
    URL, and likewise for [hq_country]. *)
Theorem merge_guesses_the_persisted_hq (env : Env) (data : gmap string Value)
  (home : string) (st st' : State) (s : CrawlSummary) :
  crawl_site env home CRAWLER_MAX_PAGES st = (Returned s, st') ->
  let data' := fst (_merge_with_deterministic env data home st) in
  (data !! "hq_city" = None ->
   data' !! "hq_city" = (VStr <$> legacy_hq_city (legacy_of s home))) /\
  (data !! "hq_country" = None ->
   data' !! "hq_country" = (VStr <$> legacy_hq_country (legacy_of s home))).
Proof.
  intros Hrun. cbv zeta.
  rewrite (merge_with_deterministic_returned env data home st s st' Hrun). cbn [fst].
  assert (Hguess : _guess_city_country (cs_signals s) home
                   = if mentions_singapore home (cs_signals s)
                     then (Some "Singapore", Some "Singapore") else (None, None))
    by reflexivity.
  split; intros Hmissing; rewrite merge_summary_lookup;
    cbn [String.eqb Ascii.eqb Bool.eqb orb andb];
    unfold legacy_of; cbv zeta; rewrite Hguess;
    unfold dict_get; rewrite Hmissing; cbn [default truth negb orb andb];
    rewrite ?orb_true_r; cbn [andb];
    destruct (mentions_singapore home (cs_signals s)); reflexivity.
Qed.

End Persisted.
(** ** The further properties at work on the example sites *)

Section FurtherExamples.
Import Examples.

(** X7, witness: the two sub-pages of the small site, in both orders. *)
Lemma merged_flags_ignore_page_order_witness :
  let pages := [Some ("https://example.com/about", html_about);
                Some ("https://example.com/pricing", html_pricing)] in
  let pages' := [Some ("https://example.com/pricing", html_pricing);
                 Some ("https://example.com/about", html_about)] in
  let root := _extract_signals (RT := insertion_order) html_two_links "https://example.com" in
  Permutation pages pages' /\
  (has_case_studies (merge_pages (RT := insertion_order) "https://example.com" pages root)
     = has_case_studies (merge_pages (RT := insertion_order) "https://example.com" pages' root) /\
   has_testimonials (merge_pages (RT := insertion_order) "https://example.com" pages root)
     = has_testimonials (merge_pages (RT := insertion_order) "https://example.com" pages' root) /\
   has_careers_page (merge_pages (RT := insertion_order) "https://example.com" pages root)
     = has_careers_page (merge_pages (RT := insertion_order) "https://example.com" pages' root) /\
   open_roles_count (merge_pages (RT := insertion_order) "https://example.com" pages root)
     = open_roles_count (merge_pages (RT := insertion_order) "https://example.com" pages' root)).
Proof.
  intros pages pages' root.
  assert (Hperm : Permutation pages pages') by apply perm_swap.
  split; [exact Hperm |].
  exact (merged_flags_ignore_page_order (RT := insertion_order)
           "https://example.com" pages pages' root Hperm).
Defined.

(** X11, witness: the crawl of the small site. *)
Lemma crawl_summary_is_scored_witness :
  exists s st',
    crawl_site (RT := insertion_order) small_site "https://example.com" 6 start
      = (Returned s, st') /\
    cs_scored s = _rule_score (cs_signals s) (_derive_features (RT := insertion_order)
                                                (cs_signals s)) /\
    (0 <= rule_score (cs_scored s) <= 35)%Z /\
    rule_band (cs_scored s) = "Poor fit" /\
    cs_url s = "https://example.com" /\
    cs_title s = title (cs_signals s) /\
    cs_description s = meta_description (cs_signals s) /\
    cs_content_summary s = join " | " (take 6 (value_props (cs_signals s))).
Proof.
  eexists. eexists.
  match goal with
  | |- ?run /\ _ => assert (Hrun : run) by (vm_compute; reflexivity)
  end.
  split; [exact Hrun |].
  exact (crawl_summary_is_scored (RT := insertion_order) small_site _ _ _ _ _ Hrun).
Defined.

(** X12, witness: the crawl of the small site, whose sub-page has open
    roles that the root page lacks. *)
Lemma crawl_summary_keeps_root_fields_witness :
  exists s st',
    crawl_site (RT := insertion_order) small_site "https://example.com" 6 start
      = (Returned s, st') /\
    exists html,
      fetched_html small_site "https://example.com" = Some html /\
      let root := _extract_signals (RT := insertion_order) html
                    (origin (RT := insertion_order) "https://example.com") in
      title (cs_signals s) = title root /\
      meta_description (cs_signals s) = meta_description root /\
      industry_candidates (cs_signals s) = [] /\
      address (contact (cs_signals s)) = None /\
      hiring (cs_signals s)
        = {| careers_page := has_careers_page root; open_roles := open_roles_count root |} /\
      (careers_page (hiring (cs_signals s)) = true -> has_careers_page (cs_signals s) = true) /\
      (open_roles (hiring (cs_signals s)) <= open_roles_count (cs_signals s))%Z.
Proof.
  eexists. eexists.
  match goal with
  | |- ?run /\ _ => assert (Hrun : run) by (vm_compute; reflexivity)
  end.
  split; [exact Hrun |].
  exact (crawl_summary_keeps_root_fields (RT := insertion_order) small_site _ _ _ _ _ Hrun).
Defined.

(** X13, witness: the crawl of the small site. *)
Lemma crawl_summary_buckets_and_order_witness :
  exists s st',
    crawl_site (RT := insertion_order) small_site "https://example.com" 6 start
      = (Returned s, st') /\
    (forall bucket,
       (is_Some (tech (cs_signals s) !! bucket) <-> In bucket tech_buckets) /\
       (forall arr label, tech (cs_signals s) !! bucket = Some arr -> In label arr ->
          In label (tech_labels bucket))) /\
    ((exists u, In u (cs_key_pages s) /\ fetched_html small_site u <> None) ->
     Forall (fun f : Signals -> list string => increasing (f (cs_signals s))) list_fields /\
     (forall bucket arr, tech (cs_signals s) !! bucket = Some arr -> increasing arr)).
Proof.
  eexists. eexists.
  match goal with
  | |- ?run /\ _ => assert (Hrun : run) by (vm_compute; reflexivity)
  end.
  split; [exact Hrun |].
  exact (crawl_summary_buckets_and_order (RT := insertion_order) small_site _ _ _ _ _ Hrun).
Defined.

(** X15, witness: the pricing page against the about page, which earns
    more points. *)
Lemma rule_score_monotone_witness :
  let low := _extract_signals (RT := insertion_order) html_pricing "https://example.com" in
  let high := _extract_signals (RT := insertion_order) html_about "https://example.com" in
  (rule_total low (_derive_features (RT := insertion_order) low)
   <= rule_total high (_derive_features (RT := insertion_order) high))%Z /\
  (rule_score (_rule_score low (_derive_features (RT := insertion_order) low))
   <= rule_score (_rule_score high (_derive_features (RT := insertion_order) high)))%Z.
Proof.
  intros low high.
  assert (Hle : (rule_total low (_derive_features (RT := insertion_order) low)
                 <= rule_total high (_derive_features (RT := insertion_order) high))%Z).
  { vm_compute. intros H. discriminate H. }
  split; [exact Hle |].
  exact (rule_score_monotone low high _ _ Hle).
Defined.


(** X20, witness: the link to the about page of the small site. *)
Lemma relevant_urls_come_from_matching_anchors_witness :
  fetched_html small_site "https://example.com" = Some html_two_links /\
  In "https://example.com/about"
     (tail (_discover_relevant_urls (RT := insertion_order) small_site
              "https://example.com" 6)) /\
  exists a, In a (anchors (BeautifulSoup (Runtime := insertion_order) html_two_links)) /\
    "https://example.com/about"
      = urljoin (Runtime := insertion_order)
          (scheme (urlparse (Runtime := insertion_order) "https://example.com") ++ "://"
             ++ netloc (urlparse (Runtime := insertion_order) "https://example.com"))
          (strip (Runtime := insertion_order) (href a)) /\
    nonempty (strip (Runtime := insertion_order) (href a)) = true /\
    String.prefix "#" (strip (Runtime := insertion_order) (href a)) = false /\
    String.prefix "mailto:" (strip (Runtime := insertion_order) (href a)) = false /\
    String.prefix "tel:" (strip (Runtime := insertion_order) (href a)) = false /\
    str_in "javascript:" (strip (Runtime := insertion_order) (href a)) = false /\
    netloc (urlparse (Runtime := insertion_order) "https://example.com/about")
      = netloc (urlparse (Runtime := insertion_order)
                  (scheme (urlparse (Runtime := insertion_order) "https://example.com")
                     ++ "://"
                     ++ netloc (urlparse (Runtime := insertion_order) "https://example.com"))) /\
    (any_in CRAWL_KEYWORDS
       (lower (Runtime := insertion_order)
          (if nonempty (anchor_text a) then anchor_text a
           else strip (Runtime := insertion_order) (href a)))
     || any_in CRAWL_KEYWORDS (lower (Runtime := insertion_order) "https://example.com/about"))
    = true.
Proof.
  assert (Hfetch : fetched_html small_site "https://example.com" = Some html_two_links)
    by reflexivity.
  assert (Hin : In "https://example.com/about"
                   (tail (_discover_relevant_urls (RT := insertion_order) small_site
                            "https://example.com" 6))).
  { vm_compute. left. reflexivity. }
  split; [exact Hfetch |]. split; [exact Hin |].
  exact (relevant_urls_come_from_matching_anchors (RT := insertion_order) small_site
           "https://example.com" html_two_links 6 "https://example.com/about" Hfetch Hin).
Defined.

(** X21, witness: the two URLs found on the small site, listed in the
    order opposite to the one in which they were found. *)
Lemma relevant_urls_ignore_set_order_witness :
  fetched_html small_site "https://example.com" = Some html_two_links /\
  Permutation
    ["https://example.com/about"; "https://example.com/pricing"]
    (relevant_loop (RT := reverse_order)
       (scheme (urlparse (Runtime := reverse_order) "https://example.com") ++ "://"
          ++ netloc (urlparse (Runtime := reverse_order) "https://example.com"))
       6 (anchors (BeautifulSoup (Runtime := reverse_order) html_two_links)) []) /\
  _discover_relevant_urls (RT := reverse_order) small_site "https://example.com" 6
    = "https://example.com"
        :: slice_to (sorted_set ["https://example.com/about"; "https://example.com/pricing"])
                    (6 - 1).
Proof.
  assert (Hfetch : fetched_html small_site "https://example.com" = Some html_two_links)
    by reflexivity.
  assert (Hperm : Permutation
                    ["https://example.com/about"; "https://example.com/pricing"]
                    (relevant_loop (RT := reverse_order)
                       (scheme (urlparse (Runtime := reverse_order) "https://example.com")
                          ++ "://"
                          ++ netloc (urlparse (Runtime := reverse_order) "https://example.com"))
                       6 (anchors (BeautifulSoup (Runtime := reverse_order) html_two_links)) [])).
  { vm_compute. apply perm_swap. }
  split; [exact Hfetch |]. split; [exact Hperm |].
  exact (relevant_urls_ignore_set_order (RT := reverse_order) small_site
           "https://example.com" html_two_links 6 _ Hfetch Hperm).
Defined.

(** X22, witness: two addresses in one string. *)
Lemma ensure_list_results_witness :
  _ensure_list (RT := insertion_order) (VStr "info@example.com, sales@example.com")
    = Some ["info@example.com"; "sales@example.com"] /\
  (VStr "info@example.com, sales@example.com"
     = VList ["info@example.com"; "sales@example.com"] \/
   exists s, VStr "info@example.com, sales@example.com" = VStr s /\
     ["info@example.com"; "sales@example.com"] <> [] /\
     Forall (fun p => p <> "" /\
                      exists q, In q (re_split_list s) /\ separator_free q = true /\
                                p = strip (Runtime := insertion_order) q)
            ["info@example.com"; "sales@example.com"]).
Proof.
  assert (Hparts : _ensure_list (RT := insertion_order)
                     (VStr "info@example.com, sales@example.com")
                   = Some ["info@example.com"; "sales@example.com"])
    by (vm_compute; reflexivity).
  split; [exact Hparts |].
  exact (ensure_list_results (RT := insertion_order) _ _ Hparts).
Defined.

(** X23, witness: two addresses joined by a semicolon and a line feed. *)
Lemma ensure_list_round_trip_witness :
  all_separators (String ";" (String "010" "")) = true /\
  String ";" (String "010" "") <> "" /\
  ["info@example.com"; "sales@example.com"] <> [] /\
  Forall (fun p => p <> "" /\ separator_free p = true
                   /\ strip (Runtime := insertion_order) p = p)
         ["info@example.com"; "sales@example.com"] /\
  _ensure_list (RT := insertion_order)
    (VStr (join (String ";" (String "010" "")) ["info@example.com"; "sales@example.com"]))
    = Some ["info@example.com"; "sales@example.com"].
Proof.
  assert (Hall : all_separators (String ";" (String "010" "")) = true) by reflexivity.
  assert (Hsep : String ";" (String "010" "") <> "") by discriminate.
  assert (Hne : ["info@example.com"; "sales@example.com"] <> []) by discriminate.
  assert (Hitems : Forall (fun p => p <> "" /\ separator_free p = true
                                    /\ strip (Runtime := insertion_order) p = p)
                          ["info@example.com"; "sales@example.com"]).
  { repeat constructor; try discriminate; vm_compute; reflexivity. }
  split; [exact Hall |]. split; [exact Hsep |]. split; [exact Hne |].
  split; [exact Hitems |].
  exact (ensure_list_round_trip (RT := insertion_order) _ _ Hall Hsep Hne Hitems).
Defined.

(** X24, witness: the name of the company through a merge with the crawl of
    the small site. *)
Lemma merge_spares_other_keys_witness :
  ~ In "name" merged_keys /\
  fst (_merge_with_deterministic (RT := insertion_order) small_site
         {["name" := VStr "Example Pte Ltd"]} "https://example.com" start) !! "name"
    = ({["name" := VStr "Example Pte Ltd"]} : gmap string Value) !! "name".
Proof.
  assert (Hkey : ~ In "name" merged_keys).
  { cbn. intuition discriminate. }
  split; [exact Hkey |].
  exact (merge_spares_other_keys (RT := insertion_order) small_site _
           "https://example.com" start "name" Hkey).
Defined.

(** X25, witness: two addresses given as one string, merged with the
    address that the crawl of the small site finds. *)
Lemma merge_arrays_sorted_capped_witness :
  exists s st',
    crawl_site (RT := insertion_order) small_site "https://example.com" CRAWLER_MAX_PAGES start
      = (Returned s, st') /\
    In ("email", emails (contact (cs_signals s)))
       [("email", emails (contact (cs_signals s)));
        ("phone_number", phones (contact (cs_signals s)));
        ("tech_stack", tech_values (tech (cs_signals s)))] /\
    let data : gmap string Value :=
      {["email" := VStr "sales@example.com; info@example.com"]} in
    let base := default [] (_ensure_list (RT := insertion_order) (dict_get data "email")) in
    exists merged,
      fst (_merge_with_deterministic (RT := insertion_order) small_site data
             "https://example.com" start) !! "email" = Some (VList merged) /\
      increasing merged /\
      (length merged <= 40)%nat /\
      (forall x, In x merged -> In x base \/ In x (emails (contact (cs_signals s)))) /\
      ((length (sorted_set (base ++ emails (contact (cs_signals s)))) <= 40)%nat ->
       forall x, In x base \/ In x (emails (contact (cs_signals s))) -> In x merged).
Proof.
  eexists. eexists.
  match goal with
  | |- ?run /\ _ => assert (Hrun : run) by (vm_compute; reflexivity)
  end.
  split; [exact Hrun |].
  match goal with
  | |- ?key /\ _ => assert (Hkey : key) by (left; reflexivity)
  end.
  split; [exact Hkey |].
  exact (merge_arrays_sorted_capped (RT := insertion_order) small_site
           {["email" := VStr "sales@example.com; info@example.com"]}
           "https://example.com" start _ _ "email" _ Hrun Hkey).
Defined.

(** X27, witness: an empty dictionary merged with the crawl of the small
    site. *)
Lemma merge_fills_missing_fields_witness :
  exists s st',
    crawl_site (RT := insertion_order) small_site "https://example.com" CRAWLER_MAX_PAGES start
      = (Returned s, st') /\
    let data' := fst (_merge_with_deterministic (RT := insertion_order) small_site ∅
                        "https://example.com" start) in
    Forall (fun key => is_Some (data' !! key))
           ["email"; "phone_number"; "tech_stack"; "about_text"; "jobs_count";
            "website_domain"] /\
    dict_get data' "jobs_count" <> VNone /\
    ("https://example.com" <> "" -> truth (dict_get data' "website_domain") = true).
Proof.
  eexists. eexists.
  match goal with
  | |- ?run /\ _ => assert (Hrun : run) by (vm_compute; reflexivity)
  end.
  split; [exact Hrun |].
  exact (merge_fills_missing_fields (RT := insertion_order) small_site ∅
           "https://example.com" start _ _ Hrun).
Defined.

(** X28, witness: two crawls of the small site, one after the other. *)
Lemma merge_twice_changes_nothing_witness :
  exists s s' st1 st2,
    crawl_site (RT := insertion_order) small_site "https://example.com" CRAWLER_MAX_PAGES start
      = (Returned s, st1) /\
    crawl_site (RT := insertion_order) small_site "https://example.com" CRAWLER_MAX_PAGES st1
      = (Returned s', st2) /\
    cs_signals s' = cs_signals s /\
    fst (_merge_with_deterministic (RT := insertion_order) small_site
           (fst (_merge_with_deterministic (RT := insertion_order) small_site
                   {["email" := VStr "sales@example.com; info@example.com"]}
                   "https://example.com" start))
           "https://example.com" st1)
      = fst (_merge_with_deterministic (RT := insertion_order) small_site
               {["email" := VStr "sales@example.com; info@example.com"]}
               "https://example.com" start).
Proof.
  eexists. eexists. eexists. eexists.
  match goal with
  | |- ?run /\ _ => assert (Hrun : run) by (vm_compute; reflexivity)
  end.
  split; [exact Hrun |].
  match goal with
  | |- ?run /\ _ => assert (Hrun' : run) by (vm_compute; reflexivity)
  end.
  split; [exact Hrun' |].
  match goal with
  | |- ?same /\ _ => assert (Hsame : same) by (vm_compute; reflexivity)
  end.
  split; [exact Hsame |].
  exact (merge_twice_changes_nothing (RT := insertion_order) small_site _
           "https://example.com" start _ _ _ _ Hrun Hrun' Hsame).
Defined.

(** X26, witness: a dictionary whose [hq_city] key holds [None], merged
    with the crawl of a site under [.sg]: the key keeps its [None]. *)
Lemma merge_keeps_filled_fields_witness :
  let data : gmap string Value :=
    <["about_text" := VStr "We sell tea"]>
      (<["jobs_count" := VInt 4]>
         (<["website_domain" := VStr "example.sg"]>
            (<["hq_city" := VNone]> {["hq_country" := VStr ""]}))) in
  let data' := fst (_merge_with_deterministic (RT := insertion_order)
                      (site_env [("https://example.sg", html_two_links)])
                      data "https://example.sg" start) in
  (truth (dict_get data "about_text") = true /\
   none_or_zero (dict_get data "jobs_count") = false /\
   truth (dict_get data "website_domain") = true /\
   data !! "hq_city" = Some VNone /\
   data !! "hq_country" = Some (VStr "")) /\
  (data' !! "about_text" = data !! "about_text" /\
   data' !! "jobs_count" = data !! "jobs_count" /\
   data' !! "website_domain" = data !! "website_domain" /\
   data' !! "hq_city" = Some VNone /\
   data' !! "hq_country" = Some (VStr "")).
Proof.
  intros data data'.
  assert (Hfilled : truth (dict_get data "about_text") = true /\
                    none_or_zero (dict_get data "jobs_count") = false /\
                    truth (dict_get data "website_domain") = true /\
                    data !! "hq_city" = Some VNone /\
                    data !! "hq_country" = Some (VStr "")).
  { repeat split; vm_compute; reflexivity. }
  split; [exact Hfilled |].
  destruct Hfilled as (Habout & Hjobs & Hweb & Hcity & Hcountry).
  pose proof (merge_keeps_filled_fields (RT := insertion_order)
                (site_env [("https://example.sg", html_two_links)])
                data "https://example.sg" start) as Hkeeps.
  cbv zeta in Hkeeps.
  destruct Hkeeps as (Kabout & Kjobs & Kweb & Kcity & Kcountry).
  split; [exact (Kabout Habout) |].
  split; [exact (Kjobs Hjobs) |].
  split; [exact (Kweb Hweb) |].
  split; [exact (Kcity _ Hcity) | exact (Kcountry _ Hcountry)].
Defined.

(** X29, witness: the crawl of the small site. *)
Lemma persisted_values_of_a_summary_witness :
  exists s st',
    crawl_site (RT := insertion_order) small_site "https://example.com" 6 start
      = (Returned s, st') /\
    let legacy := legacy_of (RT := insertion_order) s "https://example.com" in
    legacy_about_text legacy = cs_content_summary s /\
    increasing (legacy_tech_stack legacy) /\
    (length (legacy_tech_stack legacy) <= 25)%nat /\
    (forall label, In label (legacy_tech_stack legacy) ->
       exists bucket arr, tech (cs_signals s) !! bucket = Some arr /\ In label arr) /\
    ((length (sorted_set (tech_values (tech (cs_signals s)))) <= 25)%nat ->
     forall bucket arr label, tech (cs_signals s) !! bucket = Some arr -> In label arr ->
       In label (legacy_tech_stack legacy)) /\
    legacy_public_emails legacy = take 10 (emails (contact (cs_signals s))) /\
    legacy_phone_number legacy = phones (contact (cs_signals s)) /\
    legacy_jobs_count legacy = open_roles_count (cs_signals s) /\
    (0 <= legacy_jobs_count legacy)%Z /\
    legacy_hq_city legacy = legacy_hq_country legacy /\
    (legacy_hq_city legacy = Some "Singapore" \/ legacy_hq_city legacy = None).
Proof.
  eexists. eexists.
  match goal with
  | |- ?run /\ _ => assert (Hrun : run) by (vm_compute; reflexivity)
  end.
  split; [exact Hrun |].
  exact (persisted_values_of_a_summary (RT := insertion_order) small_site _ _ _ _ _ Hrun).
Defined.

(** X30, witness: an empty dictionary and a site under [.sg]. *)
Lemma merge_guesses_the_persisted_hq_witness :
  exists s st',
    crawl_site (RT := insertion_order) (site_env [("https://example.sg", html_two_links)])
               "https://example.sg" CRAWLER_MAX_PAGES start
      = (Returned s, st') /\
    let data' := fst (_merge_with_deterministic (RT := insertion_order)
                        (site_env [("https://example.sg", html_two_links)])
                        ∅ "https://example.sg" start) in
    ((∅ : gmap string Value) !! "hq_city" = None ->
     data' !! "hq_city"
       = (VStr <$> legacy_hq_city
                     (legacy_of (RT := insertion_order) s "https://example.sg"))) /\
    ((∅ : gmap string Value) !! "hq_country" = None ->
     data' !! "hq_country"
       = (VStr <$> legacy_hq_country
                     (legacy_of (RT := insertion_order) s "https://example.sg"))).
Proof.
  eexists. eexists.
  match goal with
  | |- ?run /\ _ => assert (Hrun : run) by (vm_compute; reflexivity)
  end.
  split; [exact Hrun |].
  exact (merge_guesses_the_persisted_hq (RT := insertion_order)
           (site_env [("https://example.sg", html_two_links)])
           ∅ "https://example.sg" start _ _ Hrun).
Defined.

End FurtherExamples.
